(** * Kuroukai API: access keys, admin sessions and client-origin resolution

    A shallow embedding of [src/utils/keyUtils.js],
    [src/middleware/adminAuth.js], the guard of [src/routes/adminRoutes.js]
    and the test page of [src/controllers/appController.js], together with
    the parts of the JavaScript and Node.js runtime those files rely on,
    followed by the properties the specification states about them and by
    further properties of the code. *)

From stdpp Require Import gmap strings list pretty.
From Stdlib Require Import ZArith QArith Qround Ascii String Lia.

Local Open Scope string_scope.
Local Open Scope Z_scope.

(** ** JavaScript strings

    Header values, cookies and socket addresses reach the program as strings
    whose code units lie in 0..255 (Node decodes header bytes as latin1), so
    a string is a [string] of [ascii] code units. *)

Module Js.

(** WhiteSpace and LineTerminator code units below 256: TAB, LF, VT, FF,
    CR, SP and NBSP. *)
Definition isWhiteSpace (c : ascii) : bool :=
  match N_of_ascii c with
  | 9 | 10 | 11 | 12 | 13 | 32 | 160 => true
  | _ => false
  end%N.

Fixpoint trimStart (s : string) : string :=
  match s with
  | String c s' => if isWhiteSpace c then trimStart s' else s
  | EmptyString => EmptyString
  end.

Fixpoint trimEnd (s : string) : string :=
  match s with
  | EmptyString => EmptyString
  | String c s' =>
      match trimEnd s' with
      | EmptyString => if isWhiteSpace c then EmptyString else String c EmptyString
      | t => String c t
      end
  end.

(** [String.prototype.trim] *)
Definition trim (s : string) : string := trimEnd (trimStart s).

(** [s.startsWith(p)] *)
Definition startsWith (s p : string) : bool := String.prefix p s.

Fixpoint drop (n : nat) (s : string) : string :=
  match n, s with
  | O, _ => s
  | S n', String _ s' => drop n' s'
  | S _, EmptyString => EmptyString
  end.

Fixpoint take (n : nat) (s : string) : string :=
  match n, s with
  | S n', String c s' => String c (take n' s')
  | _, _ => EmptyString
  end.

(** First position, counted from [i], at which [pat] occurs in [s]. *)
Fixpoint find_from (pat s : string) (i : nat) : option nat :=
  if String.prefix pat s then Some i
  else match s with
       | EmptyString => None
       | String _ s' => find_from pat s' (S i)
       end.

Definition clamp (len i : Z) : Z := Z.min (Z.max i 0) len.

(** [s.indexOf(pat, from)]: the least index [k >= from] where [pat]
    occurs, and [-1] when there is none. *)
Definition indexOf (s pat : string) (from : Z) : Z :=
  let n := Z.to_nat (clamp (Z.of_nat (String.length s)) from) in
  match find_from pat (drop n s) n with
  | Some k => Z.of_nat k
  | None => -1
  end.

(** [s.slice(a, b)]: negative indices count from the end. *)
Definition slice (s : string) (a b : Z) : string :=
  let len := Z.of_nat (String.length s) in
  let from := if a <? 0 then Z.max (len + a) 0 else Z.min a len in
  let to := if b <? 0 then Z.max (len + b) 0 else Z.min b len in
  take (Z.to_nat (Z.max (to - from) 0)) (drop (Z.to_nat from) s).

(** [s.replace(pat, repl)] with a string pattern: the first occurrence
    only.  [repl] is taken literally; the program only ever passes the
    empty string, so the dollar patterns of the replacement string do not
    arise. *)
Definition replace (s pat repl : string) : string :=
  match find_from pat s 0 with
  | Some k => take k s +:+ repl +:+ drop (k + String.length pat) s
  | None => s
  end.

(** [s.replace(/c/g, '')] for a single literal character [c]. *)
Fixpoint removeAll (c : ascii) (s : string) : string :=
  match s with
  | EmptyString => EmptyString
  | String d s' => if Ascii.eqb d c then removeAll c s' else String d (removeAll c s')
  end.

(** [s.split(sep)] for a one-character separator. *)
Fixpoint split (sep : ascii) (s : string) : list string :=
  match s with
  | EmptyString => [EmptyString]
  | String c s' =>
      if Ascii.eqb c sep then EmptyString :: split sep s'
      else match split sep s' with
           | x :: xs => String c x :: xs
           | [] => [String c EmptyString]
           end
  end.

(** Lower-casing of one code unit: A-Z, and the latin1 capitals
    U+00C0..U+00DE without the multiplication sign U+00D7. *)
Definition lowerChar (c : ascii) : ascii :=
  let n := N_of_ascii c in
  if ((65 <=? n) && (n <=? 90))%N then ascii_of_N (n + 32)
  else if ((192 <=? n) && (n <=? 222) && negb (n =? 215))%N then ascii_of_N (n + 32)
  else c.

Fixpoint toLowerCase (s : string) : string :=
  match s with
  | EmptyString => EmptyString
  | String c s' => String (lowerChar c) (toLowerCase s')
  end.

(** The double quote, code unit 34. *)
Definition dquote : ascii := "034"%char.

(** Truthiness of a string: every string but the empty one. *)
Definition truthy (s : string) : bool :=
  match s with EmptyString => false | _ => true end.

(** [a || b] on strings. *)
Definition or (a b : string) : string := if truthy a then a else b.

(** *** Numbers

    A number is NaN, an infinity or a finite value.  Finite values are
    kept as exact rationals: the rounding of a decimal literal to
    binary64 is left out, which changes nothing for literals of at most
    fifteen significant digits. *)
Inductive number :=
| NaN
| Infinity (negative : bool)
| Fin (q : Q).

Definition isDigit (c : ascii) : bool :=
  let n := N_of_ascii c in ((48 <=? n) && (n <=? 57))%N.

(** Value of a digit in radix up to 16, when the character is one. *)
Definition digitValue (c : ascii) : option Z :=
  let n := Z.of_N (N_of_ascii c) in
  if (48 <=? n) && (n <=? 57) then Some (n - 48)
  else if (97 <=? n) && (n <=? 102) then Some (n - 87)
  else if (65 <=? n) && (n <=? 70) then Some (n - 55)
  else None.

(** Reads a non-empty run of digits of the given radix covering the whole
    string. *)
Fixpoint digitsAcc (radix : Z) (acc : Z) (s : string) : option Z :=
  match s with
  | EmptyString => Some acc
  | String c s' =>
      match digitValue c with
      | Some d => if d <? radix then digitsAcc radix (radix * acc + d) s' else None
      | None => None
      end
  end.

Definition digits (radix : Z) (s : string) : option Z :=
  match s with
  | EmptyString => None
  | _ => digitsAcc radix 0 s
  end.

(** Splits off the longest prefix of decimal digits. *)
Fixpoint spanDigits (s : string) : string * string :=
  match s with
  | String c s' =>
      if isDigit c then let '(d, r) := spanDigits s' in (String c d, r)
      else (EmptyString, s)
  | EmptyString => (EmptyString, EmptyString)
  end.

Definition decimalValue (s : string) : Z :=
  match digitsAcc 10 0 s with Some v => v | None => 0 end.

(** ExponentPart, when present: [e] or [E], an optional sign, digits. *)
Definition exponent (s : string) : option Z :=
  match s with
  | EmptyString => Some 0
  | String c s' =>
      if Ascii.eqb c "e" || Ascii.eqb c "E" then
        match s' with
        | String d t =>
            if Ascii.eqb d "+" then digits 10 t
            else if Ascii.eqb d "-" then option_map Z.opp (digits 10 t)
            else digits 10 s'
        | EmptyString => None
        end
      else None
  end.

(** StrUnsignedDecimalLiteral without [Infinity]. *)
Definition unsignedDecimal (s : string) : option Q :=
  let '(int, r) := spanDigits s in
  let '(frac, r') :=
    match r with
    | String c t => if Ascii.eqb c "." then spanDigits t else (EmptyString, r)
    | EmptyString => (EmptyString, r)
    end in
  match int, frac with
  | EmptyString, EmptyString => None
  | _, _ =>
      match exponent r' with
      | Some e =>
          let m := decimalValue (int +:+ frac) in
          Some (inject_Z m * Qpower (10 # 1) (e - Z.of_nat (String.length frac)))%Q
      | None => None
      end
  end.

Definition strDecimalLiteral (negative : bool) (s : string) : number :=
  if String.eqb s "Infinity" then Infinity negative
  else match unsignedDecimal s with
       | Some q => Fin (if negative then Qopp q else q)
       | None => NaN
       end.

(** A literal with the prefix [0x], [0o] or [0b], in either case *)
Definition nonDecimal (radix : Z) (t : string) : number :=
  match digits radix t with
  | Some v => Fin (inject_Z v)
  | None => NaN
  end.

(** [Number(s)] on a string (StringToNumber). *)
Definition Number (s : string) : number :=
  match trim s with
  | EmptyString => Fin 0
  | String c t as u =>
      if Ascii.eqb c "+" then strDecimalLiteral false t
      else if Ascii.eqb c "-" then strDecimalLiteral true t
      else
        match t with
        | String d t' =>
            if Ascii.eqb c "0" && (Ascii.eqb d "x" || Ascii.eqb d "X") then nonDecimal 16 t'
            else if Ascii.eqb c "0" && (Ascii.eqb d "o" || Ascii.eqb d "O") then nonDecimal 8 t'
            else if Ascii.eqb c "0" && (Ascii.eqb d "b" || Ascii.eqb d "B") then nonDecimal 2 t'
            else strDecimalLiteral false u
        | EmptyString => strDecimalLiteral false u
        end
  end.

(** [x === n], [x >= n] and [x <= n] against an integer literal. *)
Definition strictEq (x : number) (n : Z) : bool :=
  match x with Fin q => Qeq_bool q (inject_Z n) | _ => false end.

Definition ge (x : number) (n : Z) : bool :=
  match x with
  | Fin q => Qle_bool (inject_Z n) q
  | Infinity negative => negb negative
  | NaN => false
  end.

Definition le (x : number) (n : Z) : bool :=
  match x with
  | Fin q => Qle_bool q (inject_Z n)
  | Infinity negative => negative
  | NaN => false
  end.

End Js.

(** ** Regular expressions

    The fragment of regular expressions that Node's address patterns are
    written in, matched against a whole string ([^...$]) by Brzozowski
    derivatives. *)

Module RegExp.

Inductive re :=
| Void
| Eps
| Class (p : ascii -> bool)
| Cat (a b : re)
| Alt (a b : re)
| Star (a : re).

Fixpoint nullable (r : re) : bool :=
  match r with
  | Void => false
  | Eps => true
  | Class _ => false
  | Cat a b => nullable a && nullable b
  | Alt a b => nullable a || nullable b
  | Star _ => true
  end.

Definition cat (a b : re) : re :=
  match a, b with
  | Void, _ => Void
  | _, Void => Void
  | Eps, _ => b
  | _, Eps => a
  | _, _ => Cat a b
  end.

Definition alt (a b : re) : re :=
  match a, b with
  | Void, _ => b
  | _, Void => a
  | _, _ => Alt a b
  end.

Fixpoint deriv (c : ascii) (r : re) : re :=
  match r with
  | Void => Void
  | Eps => Void
  | Class p => if p c then Eps else Void
  | Cat a b =>
      if nullable a then alt (cat (deriv c a) b) (deriv c b)
      else cat (deriv c a) b
  | Alt a b => alt (deriv c a) (deriv c b)
  | Star a => cat (deriv c a) (Star a)
  end.

(** The strings a regular expression denotes *)
Inductive matches : re -> string -> Prop :=
| matches_eps : matches Eps EmptyString
| matches_class p c : p c = true -> matches (Class p) (String c EmptyString)
| matches_cat a b s t : matches a s -> matches b t -> matches (Cat a b) (s +:+ t)
| matches_alt_l a b s : matches a s -> matches (Alt a b) s
| matches_alt_r a b s : matches b s -> matches (Alt a b) s
| matches_star_nil a : matches (Star a) EmptyString
| matches_star_cons a s t :
    matches a s -> matches (Star a) t -> matches (Star a) (s +:+ t).

(** [new RegExp('^' + r + '$').test(s)] *)
Fixpoint test (r : re) (s : string) : bool :=
  match s with
  | EmptyString => nullable r
  | String c s' => test (deriv c r) s'
  end.

Definition chr (c : ascii) : re := Class (Ascii.eqb c).

Definition range (lo hi : ascii) : re :=
  Class (fun c => (N_of_ascii lo <=? N_of_ascii c)%N && (N_of_ascii c <=? N_of_ascii hi)%N).

(** No character class of [r] lets [c] pass. *)
Fixpoint avoids (c : ascii) (r : re) : bool :=
  match r with
  | Void | Eps => true
  | Class p => negb (p c)
  | Cat a b | Alt a b => avoids c a && avoids c b
  | Star a => avoids c a
  end.

(** [r{n}] *)
Fixpoint times (n : nat) (r : re) : re :=
  match n with
  | O => Eps
  | S n' => Cat r (times n' r)
  end.

(** [r{0,n}] *)
Fixpoint upto (n : nat) (r : re) : re :=
  match n with
  | O => Eps
  | S n' => Alt Eps (Cat r (upto n' r))
  end.

(** [r{n,m}] *)
Definition between (n m : nat) (r : re) : re := Cat (times n r) (upto (m - n) r).

(** [r{1,}] *)
Definition plus (r : re) : re := Cat r (Star r).

Fixpoint alts (l : list re) : re :=
  match l with
  | [] => Void
  | [r] => r
  | r :: l' => Alt r (alts l')
  end.

Fixpoint cats (l : list re) : re :=
  match l with
  | [] => Eps
  | [r] => r
  | r :: l' => Cat r (cats l')
  end.

End RegExp.

(** ** Node's [net.isIP]

    The patterns of Node's [lib/internal/net.js], which [net.isIPv4],
    [net.isIPv6] and [net.isIP] test their argument against. *)

Module net.
Import RegExp.

Definition digit : re := range "0" "9".

(** [(?:25[0-5]|2[0-4]\d|1\d\d|[1-9]\d|\d)] *)
Definition v4Seg : re :=
  alts [ cats [chr "2"; chr "5"; range "0" "5"];
         cats [chr "2"; range "0" "4"; digit];
         cats [chr "1"; digit; digit];
         cats [range "1" "9"; digit];
         digit ].

(** [(?:v4Seg\.){3}v4Seg] *)
Definition v4Str : re := Cat (times 3 (Cat v4Seg (chr "."))) v4Seg.

Definition IPv4Reg : re := v4Str.

(** [(?:[0-9a-fA-F]{1,4})] *)
Definition v6Seg : re :=
  between 1 4 (alts [range "0" "9"; range "a" "f"; range "A" "F"]).

Definition colon : re := chr ":".
Definition seg_colon : re := Cat v6Seg colon.   (* (?:v6Seg:) *)
Definition colon_seg : re := Cat colon v6Seg.   (* (?::v6Seg) *)
Definition colon_v4 : re := Cat colon v4Str.    (* :v4Str *)

(** The zone id [(?:%[0-9a-zA-Z-.:]{1,})?] *)
Definition zone : re :=
  upto 1 (Cat (chr "%")
              (plus (alts [range "0" "9"; range "a" "z"; range "A" "Z";
                           chr "-"; chr "."; chr ":"]))).

Definition IPv6Reg : re :=
  Cat
    (alts
       [ Cat (times 7 seg_colon) (alts [v6Seg; colon]);
         Cat (times 6 seg_colon) (alts [v4Str; colon_seg; colon]);
         Cat (times 5 seg_colon) (alts [colon_v4; between 1 2 colon_seg; colon]);
         Cat (times 4 seg_colon)
             (alts [Cat (between 0 1 colon_seg) colon_v4; between 1 3 colon_seg; colon]);
         Cat (times 3 seg_colon)
             (alts [Cat (between 0 2 colon_seg) colon_v4; between 1 4 colon_seg; colon]);
         Cat (times 2 seg_colon)
             (alts [Cat (between 0 3 colon_seg) colon_v4; between 1 5 colon_seg; colon]);
         Cat (times 1 seg_colon)
             (alts [Cat (between 0 4 colon_seg) colon_v4; between 1 6 colon_seg; colon]);
         Cat colon
             (alts [Cat (between 0 5 colon_seg) colon_v4; between 1 7 colon_seg; colon]) ])
    zone.

Definition isIPv4 (s : string) : bool := test IPv4Reg s.
Definition isIPv6 (s : string) : bool := test IPv6Reg s.

(** [net.isIP(s)]: 4, 6, or 0 when [s] is no address. *)
Definition isIP (s : string) : Z :=
  if isIPv4 s then 4 else if isIPv6 s then 6 else 0.

End net.

(** ** Requests

    The fields of an Express request that the two source files read. *)

Module express.

(** A header value: a string, or an array of strings for the headers that
    Node reports as a list. *)
Inductive hvalue :=
| HStr (s : string)
| HArr (l : list string).

(** [req.socket] and [req.connection.socket] *)
Record Socket := mkSocket {
  remoteAddress : option string
}.

(** [req.connection] *)
Record Connection := mkConnection {
  connRemoteAddress : option string;
  connSocket : option Socket
}.

(** [req.body] of the login form *)
Record Body := mkBody {
  username : option string;
  password : option string
}.

Record Request := mkRequest {
  headers : option (gmap string hvalue);
  cookies : option (gmap string string);
  ip : option string;
  connection : option Connection;
  socket : option Socket;
  body : Body
}.

(** [headers[name]] *)
Definition header (hs : gmap string hvalue) (name : string) : option hvalue :=
  hs !! name.

(** [typeof v === 'string'] on a looked-up header, giving the string *)
Definition asString (v : option hvalue) : option string :=
  match v with
  | Some (HStr s) => Some s
  | _ => None
  end.

(** [v && typeof v === 'string'] *)
Definition asTruthyString (v : option hvalue) : option string :=
  match v with
  | Some (HStr s) => if Js.truthy s then Some s else None
  | _ => None
  end.

(** [[x].filter(Boolean)] on an optional string *)
Definition filterBoolean (o : option string) : list string :=
  match o with
  | Some s => if Js.truthy s then [s] else []
  | None => []
  end.

End express.

(** ** [src/utils/keyUtils.js]: client-origin resolution *)

Module keyUtils.
Import express.

(** [p.match(/for=([^;]+)/i)], giving the capture [m[1]]: at the leftmost
    position where [for=], in either case, is followed by a character
    other than [;], the longest run of such characters. *)
Fixpoint untilSemicolon (s : string) : string :=
  match s with
  | EmptyString => EmptyString
  | String c s' => if Ascii.eqb c ";" then EmptyString else String c (untilSemicolon s')
  end.

Definition forPrefix (s : string) : option string :=
  match s with
  | String f (String o (String r (String e rest))) =>
      if (Ascii.eqb f "f" || Ascii.eqb f "F") && (Ascii.eqb o "o" || Ascii.eqb o "O")
         && (Ascii.eqb r "r" || Ascii.eqb r "R") && Ascii.eqb e "="
         && Js.truthy (untilSemicolon rest)
      then Some (untilSemicolon rest) else None
  | _ => None
  end.

Fixpoint matchFor (p : string) : option string :=
  match forPrefix p with
  | Some m1 => Some m1
  | None => match p with
            | EmptyString => None
            | String _ p' => matchFor p'
            end
  end.

(** The candidates of the [Forwarded] header: for every comma-separated
    part with a [for=] token, the token without its double quotes. *)
Definition forwardedCandidates (fwd : option hvalue) : list string :=
  match asTruthyString fwd with
  | Some fwd =>
      omap (fun p => match matchFor p with
                     | Some m1 => Some (Js.removeAll Js.dquote (Js.removeAll Js.dquote m1))
                     | None => None
                     end)
           (Js.split "," fwd)
  | None => []
  end.

Definition directHeaders : list string :=
  [ "cf-connecting-ip"; "true-client-ip"; "x-real-ip"; "x-client-ip";
    "fastly-client-ip"; "x-cluster-client-ip"; "fly-client-ip" ].

Definition directCandidates (hs : gmap string hvalue) : list string :=
  omap (fun h => asString (header hs h)) directHeaders.

(** [xff.split(',').map(s => s.trim()).filter(Boolean)] *)
Definition xffCandidates (xff : option hvalue) : list string :=
  match asTruthyString xff with
  | Some xff => List.filter Js.truthy (List.map Js.trim (Js.split "," xff))
  | None => []
  end.

(** [req.ip], [req.connection.remoteAddress], [req.socket.remoteAddress]
    and [req.connection.socket.remoteAddress], without the falsy ones. *)
Definition fallbacks (req : Request) : list string :=
  filterBoolean (ip req)
  ++ filterBoolean (c ← connection req; connRemoteAddress c)
  ++ filterBoolean (s ← socket req; remoteAddress s)
  ++ filterBoolean (c ← connection req; s ← connSocket c; remoteAddress s).

(** [net.isIP(ip)] used as a condition *)
Definition valid (ip : string) : bool := negb (net.isIP ip =? 0).

(** *** [getClientIp] *)
Module ClientIp.

Definition normalize (ip : string) : string :=
  if negb (Js.truthy ip) then ""
  else
    let ip := Js.trim ip in
    let ip :=
      if Js.startsWith ip "[" then
        let end_ := Js.indexOf ip "]" 0 in
        if negb (end_ =? -1) then Js.slice ip 1 end_ else ip
      else
        let colonIdx := Js.indexOf ip ":" 0 in
        if negb (colonIdx =? -1) && (Js.indexOf ip ":" (colonIdx + 1) =? -1)
        then Js.slice ip 0 colonIdx
        else ip in
    if Js.startsWith ip "::ffff:" then Js.replace ip "::ffff:" "" else ip.

(** [octets[i]]; an index past the end gives [undefined], which compares
    like NaN. *)
Definition at_ (octets : list Js.number) (i : nat) : Js.number :=
  default Js.NaN (octets !! i).

Definition isPrivate (ip : string) : bool :=
  if negb (Js.truthy ip) then true
  else if String.eqb ip "127.0.0.1" || String.eqb ip "::1" then true
  else if Js.startsWith ip "10." then true
  else if Js.startsWith ip "192.168." then true
  else
    let octets := List.map Js.Number (Js.split "." ip) in
    if (List.length octets =? 4)%nat
       && (Js.strictEq (at_ octets 0) 172 && Js.ge (at_ octets 1) 16
           && Js.le (at_ octets 1) 31)
    then true
    else if (List.length octets =? 4)%nat
            && (Js.strictEq (at_ octets 0) 169 && Js.strictEq (at_ octets 1) 254)
    then true
    else
      let lower := Js.toLowerCase ip in
      if Js.startsWith lower "fc" || Js.startsWith lower "fd" then true
      else if Js.startsWith lower "fe80:" then true
      else false.

(** The first loop of [pickFirstPublic]. *)
Definition firstPublic (list : list string) : option string :=
  List.find (fun ip => valid ip && negb (isPrivate ip)) (List.map normalize list).

(** The second loop of [pickFirstPublic], and the body of [firstValid]. *)
Definition firstValidOf (list : list string) : option string :=
  List.find valid (List.map normalize list).

Definition pickFirstPublic (list : list string) : string :=
  match firstPublic list with
  | Some ip => ip
  | None => default "" (firstValidOf list)
  end.

Definition candidates (req : Request) : list string :=
  let headers := default ∅ (headers req) in
  forwardedCandidates (header headers "forwarded")
  ++ directCandidates headers
  ++ xffCandidates (header headers "x-forwarded-for")
  ++ fallbacks req.

(** [ipPreference] is the value of [require('../config').ipPreference]. *)
Definition getClientIp (ipPreference : option string) (req : Request) : string :=
  let candidates := candidates req in
  let bestPublic := pickFirstPublic candidates in
  let firstValid := default "" (firstValidOf candidates) in
  let chosen :=
    if bool_decide (ipPreference = Some "private")
    then Js.or firstValid bestPublic
    else Js.or bestPublic firstValid in
  Js.or chosen "unknown".

End ClientIp.

(** *** [getIpVariants] *)
Module IpVariants.

Definition normalize (ip : string) : string :=
  if negb (Js.truthy ip) then ""
  else
    let ip := Js.trim ip in
    let ip :=
      if Js.startsWith ip "[" then
        let end_ := Js.indexOf ip "]" 0 in
        if negb (end_ =? -1) then Js.slice ip 1 end_ else ip
      else
        let colonIdx := Js.indexOf ip ":" 0 in
        if negb (colonIdx =? -1) && (Js.indexOf ip ":" (colonIdx + 1) =? -1)
        then Js.slice ip 0 colonIdx
        else ip in
    if Js.startsWith ip "::ffff:" then Js.replace ip "::ffff:" "" else ip.

Definition at_ (o : list Js.number) (i : nat) : Js.number :=
  default Js.NaN (o !! i).

Definition isPrivate (ip : string) : bool :=
  if negb (Js.truthy ip) then true
  else if String.eqb ip "127.0.0.1" || String.eqb ip "::1" then true
  else if Js.startsWith ip "10." || Js.startsWith ip "192.168." then true
  else
    let o := List.map Js.Number (Js.split "." ip) in
    if (List.length o =? 4)%nat
       && (Js.strictEq (at_ o 0) 172 && Js.ge (at_ o 1) 16 && Js.le (at_ o 1) 31)
    then true
    else if (List.length o =? 4)%nat
            && (Js.strictEq (at_ o 0) 169 && Js.strictEq (at_ o 1) 254)
    then true
    else
      let low := Js.toLowerCase ip in
      if Js.startsWith low "fc" || Js.startsWith low "fd" || Js.startsWith low "fe80:"
      then true
      else false.

Definition pickFirstPublic (list : list string) : string :=
  match List.find (fun ip => valid ip && negb (isPrivate ip)) (List.map normalize list) with
  | Some ip => ip
  | None => default "" (List.find valid (List.map normalize list))
  end.

Definition candidates (req : Request) : list string :=
  let headers := default ∅ (headers req) in
  forwardedCandidates (header headers "forwarded")
  ++ directCandidates headers
  ++ xffCandidates (header headers "x-forwarded-for")
  ++ fallbacks req.

Record variants := mkVariants {
  publicIp : option string;
  privateIp : option string
}.

(** [s || null] *)
Definition orNull (s : string) : option string :=
  if Js.truthy s then Some s else None.

Definition getIpVariants (req : Request) : variants :=
  let candidates := candidates req in
  {| publicIp := orNull (pickFirstPublic candidates);
     privateIp := List.find valid (List.map normalize candidates) |}.

End IpVariants.

End keyUtils.

(** ** [src/middleware/adminAuth.js]: the admin session store

    The module-level [sessions] map is threaded through every operation;
    the clock ([Date.now()], [new Date()]) and the random bytes of
    [crypto.randomBytes] are inputs.  Times are milliseconds since the
    epoch. *)

Module adminAuth.
Import express.

Record Session := mkSession {
  id : string;
  createdAt : Z;
  sessionIp : option string;
  userAgent : option string
}.

(** [adminUser], read from the process environment when the module loads *)
Record AdminUser := mkAdminUser {
  adminUsername : string;
  adminPassword : string
}.

(** What a handler does to the [admin_session] cookie. *)
Inductive CookieEffect :=
| CookieUntouched
| CookieSet (value : string) (maxAge : Z)
| CookieCleared.

(** How a handler ends: a JSON reply, a call of [next()] after attaching
    [req.adminSession], or a TypeError from reading a property of
    [undefined]. *)
Inductive Outcome :=
| Json (status : Z) (success : bool) (message : string)
       (sessionToken : option string) (cookie : CookieEffect)
| Next (adminSession : Session)
| SessionList (sessions : list Session) (count : nat)
| SessionInfo (adminSession : Session)
| TypeError.

Definition hexDigit (n : N) : ascii :=
  ascii_of_N (if (n <? 10)%N then 48 + n else 87 + n).

Definition hexByte (b : Byte.byte) : string :=
  let n := Byte.to_N b in
  String (hexDigit (n / 16)) (String (hexDigit (n mod 16)) EmptyString).

(** [buf.toString('hex')] *)
Fixpoint toHex (buf : list Byte.byte) : string :=
  match buf with
  | [] => EmptyString
  | b :: buf' => hexByte b +:+ toHex buf'
  end.

(** [generateSession()], on the 32 bytes [crypto.randomBytes(32)] drew *)
Definition generateSession (randomBytes : list Byte.byte) : string :=
  toHex randomBytes.

(** [!x] on an optional string *)
Definition falsy (o : option string) : bool :=
  match o with
  | Some s => negb (Js.truthy s)
  | None => true
  end.

Definition msPerSessionTtl : Z := 24 * 60 * 60 * 1000.

Definition authenticate (adminUser : AdminUser) (randomBytes : list Byte.byte) (now : Z)
    (req : Request) (sessions : gmap string Session) : Outcome * gmap string Session :=
  let username := username (body req) in
  let password := password (body req) in
  if falsy username || falsy password then
    (Json 400 false "Username and password are required" None CookieUntouched, sessions)
  else
    let isValid :=
      bool_decide (username = Some (adminUsername adminUser))
      && bool_decide (password = Some (adminPassword adminUser)) in
    if negb isValid then
      (Json 401 false "Invalid credentials" None CookieUntouched, sessions)
    else
      let sessionToken := generateSession randomBytes in
      match headers req with
      | None => (TypeError, sessions)
      | Some hs =>
          let sessionData :=
            {| id := sessionToken;
               createdAt := now;
               sessionIp := ip req;
               userAgent := asString (header hs "user-agent") |} in
          (Json 200 true "Authentication successful" (Some sessionToken)
                (CookieSet sessionToken (24 * 60 * 60 * 1000)),
           <[sessionToken := sessionData]> sessions)
      end.

(** [req.cookies?.admin_session] *)
Definition cookieToken (req : Request) : option string :=
  c ← cookies req; c !! "admin_session".

(** The value of [req.cookies?.admin_session || req.headers['x-admin-session']];
    [None] stands for the TypeError of reading a header of an undefined
    [req.headers]. *)
Definition sessionTokenOf (req : Request) : option (option hvalue) :=
  if negb (falsy (cookieToken req)) then Some (HStr <$> cookieToken req)
  else hs ← headers req; Some (header hs "x-admin-session").

Definition requireAuth (now : Z) (req : Request) (sessions : gmap string Session)
    : Outcome * gmap string Session :=
  match sessionTokenOf req with
  | None => (TypeError, sessions)
  | Some None | Some (Some (HStr EmptyString)) =>
      (Json 401 false "Authentication required" None CookieUntouched, sessions)
  | Some (Some (HArr _)) =>
      (Json 401 false "Invalid or expired session" None CookieUntouched, sessions)
  | Some (Some (HStr sessionToken)) =>
      match sessions !! sessionToken with
      | None =>
          (Json 401 false "Invalid or expired session" None CookieUntouched, sessions)
      | Some session =>
          let sessionAge := now - createdAt session in
          if sessionAge >? 24 * 60 * 60 * 1000 then
            (Json 401 false "Session expired" None CookieUntouched,
             delete sessionToken sessions)
          else (Next session, sessions)
      end
  end.

Definition logout (req : Request) (sessions : gmap string Session)
    : Outcome * gmap string Session :=
  match cookieToken req with
  | Some (String _ _ as sessionToken) =>
      (Json 200 true "Logged out successfully" None CookieCleared,
       delete sessionToken sessions)
  | _ => (Json 200 true "Logged out successfully" None CookieUntouched, sessions)
  end.

(** [getSessionInfo], after [requireAuth] attached [adminSession] *)
Definition getSessionInfo (adminSession : Session) : Outcome :=
  SessionInfo adminSession.

(** [Array.from(sessions.values())]; the model lists the values in the
    order of the finite map, not in the order of insertion. *)
Definition getActiveSessions (sessions : gmap string Session) : Outcome :=
  let activeSessions := (map_to_list sessions).*2 in
  SessionList activeSessions (List.length activeSessions).

Definition clearAllSessions (sessions : gmap string Session)
    : Outcome * gmap string Session :=
  let count := size sessions in
  (Json 200 true ("Cleared " +:+ pretty count +:+ " sessions") None CookieUntouched, ∅).

End adminAuth.

(** ** Dates

    The time values and the abstract operations of ECMAScript's Date
    objects.  A time value is a number of milliseconds since the epoch, or
    NaN ([None]).  The local time zone adjustment is taken as a constant
    [LocalTZA] of the host (it has no daylight saving changes). *)

Module Date.

Definition msPerDay : Z := 86400000.
Definition msPerHour : Z := 3600000.
Definition msPerMinute : Z := 60000.
Definition msPerSecond : Z := 1000.

Definition Day (t : Z) : Z := t / msPerDay.
Definition TimeWithinDay (t : Z) : Z := t mod msPerDay.

Definition DaysInYear (y : Z) : Z :=
  if negb (y mod 4 =? 0) then 365
  else if negb (y mod 100 =? 0) then 366
  else if negb (y mod 400 =? 0) then 365
  else 366.

Definition DayFromYear (y : Z) : Z :=
  365 * (y - 1970) + (y - 1969) / 4 - (y - 1901) / 100 + (y - 1601) / 400.

Definition TimeFromYear (y : Z) : Z := msPerDay * DayFromYear y.

(** The year of a day number: the largest [y] with [DayFromYear y <= d],
    found among the three years around the mean-year estimate. *)
Definition YearFromDay (d : Z) : Z :=
  let y := 1970 + 400 * d / 146097 in
  if DayFromYear (y + 1) <=? d then y + 1
  else if DayFromYear y <=? d then y
  else y - 1.

Definition YearFromTime (t : Z) : Z := YearFromDay (Day t).

(** 1 in a leap year, else 0 *)
Definition InLeapYear (t : Z) : Z :=
  if DaysInYear (YearFromTime t) =? 366 then 1 else 0.

Definition DayWithinYear (t : Z) : Z := Day t - DayFromYear (YearFromTime t).

(** The month, 0 to 11, of a day within a year *)
Definition monthOf (leap day : Z) : Z :=
  if day <? 31 then 0
  else if day <? 59 + leap then 1
  else if day <? 90 + leap then 2
  else if day <? 120 + leap then 3
  else if day <? 151 + leap then 4
  else if day <? 181 + leap then 5
  else if day <? 212 + leap then 6
  else if day <? 243 + leap then 7
  else if day <? 273 + leap then 8
  else if day <? 304 + leap then 9
  else if day <? 334 + leap then 10
  else 11.

(** The day of the month, 1 to 31, of a day within a year *)
Definition dateOf (leap day : Z) : Z :=
  match monthOf leap day with
  | 0 => day + 1
  | 1 => day - 30
  | 2 => day - 58 - leap
  | 3 => day - 89 - leap
  | 4 => day - 119 - leap
  | 5 => day - 150 - leap
  | 6 => day - 180 - leap
  | 7 => day - 211 - leap
  | 8 => day - 242 - leap
  | 9 => day - 272 - leap
  | 10 => day - 303 - leap
  | _ => day - 333 - leap
  end.

Definition MonthFromTime (t : Z) : Z := monthOf (InLeapYear t) (DayWithinYear t).
Definition DateFromTime (t : Z) : Z := dateOf (InLeapYear t) (DayWithinYear t).

Definition HourFromTime (t : Z) : Z := (t / msPerHour) mod 24.
Definition MinFromTime (t : Z) : Z := (t / msPerMinute) mod 60.
Definition SecFromTime (t : Z) : Z := (t / msPerSecond) mod 60.
Definition msFromTime (t : Z) : Z := t mod msPerSecond.

(** ToIntegerOrInfinity of a finite number: truncation towards zero *)
Definition truncate (q : Q) : Z :=
  if Qle_bool 0 q then Qfloor q else Qceiling q.

(** [MakeTime(hour, min, sec, ms)] for integral [min], [sec] and [ms] *)
Definition MakeTime (hour : Js.number) (min sec ms : Z) : option Z :=
  match hour with
  | Js.Fin h => Some (truncate h * msPerHour + min * msPerMinute + sec * msPerSecond + ms)
  | _ => None
  end.

Definition MakeDate (day : Z) (time : option Z) : option Z :=
  match time with
  | Some time => Some (day * msPerDay + time)
  | None => None
  end.

Definition TimeClip (time : option Z) : option Z :=
  match time with
  | Some time => if 8640000000000000 <? Z.abs time then None else Some time
  | None => None
  end.

Section Local.
Variable LocalTZA : Z.

Definition LocalTime (t : Z) : Z := t + LocalTZA.
Definition UTC (t : Z) : Z := t - LocalTZA.

(** [date.getHours()] *)
Definition getHours (tv : option Z) : Js.number :=
  match tv with
  | Some t => Js.Fin (inject_Z (HourFromTime (LocalTime t)))
  | None => Js.NaN
  end.

(** [date.setHours(hour)], giving the new time value of [date] *)
Definition setHours (tv : option Z) (hour : Js.number) : option Z :=
  match tv with
  | Some t =>
      let t := LocalTime t in
      let date :=
        MakeDate (Day t) (MakeTime hour (MinFromTime t) (SecFromTime t) (msFromTime t)) in
      TimeClip (UTC <$> date)
  | None => None
  end.
End Local.

Definition digitChar (d : Z) : ascii := ascii_of_N (48 + Z.to_N (d mod 10)).

(** The decimal digits of [n], padded with zeros to [width] places *)
Fixpoint pad (width : nat) (n : Z) : string :=
  match width with
  | O => EmptyString
  | S w => String (digitChar (n / 10 ^ Z.of_nat w)) (pad w (n mod 10 ^ Z.of_nat w))
  end.

(** The year of the ISO format: four digits from 0 to 9999, otherwise a
    sign and six digits *)
Definition isoYear (y : Z) : string :=
  if (0 <=? y) && (y <=? 9999) then pad 4 y
  else if y <? 0 then String "-" (pad 6 (- y))
  else String "+" (pad 6 y).

(** The ISO format [YYYY-MM-DDTHH:mm:ss.sssZ] of a time value *)
Definition isoOf (t : Z) : string :=
  isoYear (YearFromTime t)
  +:+ String "-" (pad 2 (MonthFromTime t + 1)
  +:+ String "-" (pad 2 (DateFromTime t)
  +:+ String "T" (pad 2 (HourFromTime t)
  +:+ String ":" (pad 2 (MinFromTime t)
  +:+ String ":" (pad 2 (SecFromTime t)
  +:+ String "." (pad 3 (msFromTime t)
  +:+ "Z")))))).

(** [a + b] on numbers *)
Definition add (a b : Js.number) : Js.number :=
  match a, b with
  | Js.Fin x, Js.Fin y => Js.Fin (x + y)
  | Js.NaN, _ | _, Js.NaN => Js.NaN
  | Js.Infinity s, Js.Infinity s' => if Bool.eqb s s' then Js.Infinity s else Js.NaN
  | Js.Infinity s, _ | _, Js.Infinity s => Js.Infinity s
  end.

End Date.

(** ** [src/utils/keyUtils.js]: key helpers *)

Module keyHelpers.

(** The values a caller may pass for [hours] *)
Inductive value :=
| VUndefined
| VNull
| VBoolean (b : bool)
| VNumber (n : Js.number)
| VString (s : string)
| VObject.

Inductive exception :=
| Error (message : string)
| RangeError.

Inductive completion (A : Type) :=
| Return (a : A)
| Throw (e : exception).
Arguments Return {A} a.
Arguments Throw {A} e.

(** [date.toISOString()] *)
Definition toISOString (tv : option Z) : completion string :=
  match tv with
  | Some t => Return (Date.isoOf t)
  | None => Throw RangeError
  end.

(** [getExpirationDate(hours)] at the clock reading [now] *)
Definition getExpirationDate (LocalTZA now : Z) (hours : value) : completion string :=
  let hours := match hours with VUndefined => VNumber (Js.Fin 24) | v => v end in
  match hours with
  | VNumber hours =>
      if Js.le hours 0 then Throw (Error "Hours must be a positive number")
      else
        let expiry := Some now in
        let expiry :=
          Date.setHours LocalTZA expiry (Date.add (Date.getHours LocalTZA expiry) hours) in
        toISOString expiry
  | _ => Throw (Error "Hours must be a positive number")
  end.

(** A row of the key table *)
Record Key := mkKey {
  key_id : string;
  user_id : string;
  status : string;
  created_at : string;
  expires_at : string
}.

(** [isKeyValid(key)] at the clock reading [now]; the comparison of the
    two timestamps is the comparison of strings. *)
Definition isKeyValid (now : Z) (key : option Key) : bool :=
  match key with
  | None => false
  | Some key =>
      let now := Date.isoOf now in
      String.eqb (status key) "active" && String.ltb now (expires_at key)
  end.

End keyHelpers.

(** ** The access key store

    [src/services/keyService.js], which holds the operations on the key
    table, is not among the sources; its operations are modelled from
    section 4.1 of the specification.  [maxKeyHours] is the configured
    MAX_KEY_HOURS and [freshId] the identifier drawn for a new key;
    timestamps are the ISO strings the key helpers exchange. *)

Module keyService.
Import keyHelpers.

Inductive Failure :=
| InvalidParameter
| NotFound
| StorageError.

Inductive Validity :=
| Valid
| Expired
| Revoked
| Unknown.

(** Modelled from the spec: the test of [create] (absent
    [keyService.js]) that [ttlHours] is a positive number and does not
    exceed the configured maximum. *)
Definition acceptable (maxKeyHours : Z) (ttlHours : value) : bool :=
  match ttlHours with
  | VNumber (Js.Fin q) => negb (Qle_bool q 0) && Qle_bool q (inject_Z maxKeyHours)
  | _ => false
  end.

(** Modelled from the spec: [create] of the absent [keyService.js].  It
    fails with InvalidParameter unless [ttlHours] is acceptable; otherwise
    it stores, under a fresh id, an active record created now whose expiry
    is the one [getExpirationDate] computes. *)
Definition create (maxKeyHours LocalTZA now : Z) (freshId ownerId : string)
    (ttlHours : value) (store : gmap string Key) : (Failure + Key) * gmap string Key :=
  if negb (acceptable maxKeyHours ttlHours) then (inl InvalidParameter, store)
  else
    match getExpirationDate LocalTZA now ttlHours with
    | Return expiresAt =>
        let key :=
          {| key_id := freshId;
             user_id := ownerId;
             status := "active";
             created_at := Date.isoOf now;
             expires_at := expiresAt |} in
        (inr key, <[freshId := key]> store)
    | Throw _ => (inl InvalidParameter, store)
    end.

(** Modelled from the spec: [validate] of the absent [keyService.js]: a
    read that answers Unknown (the specification's NotFound) for an absent
    record, Revoked for a revoked one, else Expired when the expiry is at
    or before the clock reading, else Valid. *)
Definition validate (now : Z) (id : string) (store : gmap string Key) : Validity :=
  match store !! id with
  | None => Unknown
  | Some key =>
      if String.eqb (status key) "revoked" then Revoked
      else if String.leb (expires_at key) (Date.isoOf now) then Expired
      else Valid
  end.

(** Modelled from the spec: [revoke] of the absent [keyService.js], which
    sets the status of a stored record to revoked. *)
Definition revoke (id : string) (store : gmap string Key)
    : (Failure + unit) * gmap string Key :=
  match store !! id with
  | None => (inl NotFound, store)
  | Some key =>
      (inr tt,
       <[id := {| key_id := key_id key;
                  user_id := user_id key;
                  status := "revoked";
                  created_at := created_at key;
                  expires_at := expires_at key |}]> store)
  end.

(** Modelled from the spec: [delete] of the absent [keyService.js], which
    removes a stored record and answers NotFound when there is none. *)
Definition delete (id : string) (store : gmap string Key)
    : (Failure + unit) * gmap string Key :=
  match store !! id with
  | None => (inl NotFound, store)
  | Some _ => (inr tt, base.delete id store)
  end.

End keyService.

(** ** Vocabulary of the statements *)

Module Vocabulary.
Import keyUtils.

(** A candidate counts once normalized: syntactically valid, and valid and
    classified public. *)
Definition validPublic (ip : string) : bool :=
  valid ip && negb (ClientIp.isPrivate ip).

(** The character [c] occurs in [s]. *)
Fixpoint occurs (c : ascii) (s : string) : bool :=
  match s with
  | EmptyString => false
  | String d s' => Ascii.eqb d c || occurs c s'
  end.

(** The address without a leading [::ffff:]. *)
Definition unwrapMapped (ip : string) : string :=
  if String.prefix "::ffff:" ip then Js.drop 7 ip else ip.

(** Every code unit, and the texts of the numbers 0 to 255 *)
Definition codeUnits : list ascii := List.map ascii_of_nat (List.seq 0 256).

Definition octetTexts : list string := List.map (fun n : nat => pretty n) (List.seq 0 256).

(** The four numbers of a dotted address *)
Definition octetsOf (ip : string) : list Z :=
  List.map Js.decimalValue (Js.split "." ip).

(** The first 16-bit group of an IPv6 address: the hexadecimal number
    before the first colon, and 0 when the text starts with the colons of
    a compressed run of zero groups. *)
Fixpoint untilColon (s : string) : string :=
  match s with
  | EmptyString => EmptyString
  | String c s' => if Ascii.eqb c ":" then EmptyString else String c (untilColon s')
  end.

Definition firstGroup (ip : string) : Z :=
  default 0 (Js.digits 16 (untilColon ip)).

(** The private and reserved addresses as the specification lists them:
    the loopback addresses 127.0.0.1 and ::1; 10.0.0.0/8, 172.16.0.0/12,
    192.168.0.0/16 and 169.254.0.0/16; fc00::/7 and fe80::/10. *)
Definition listedPrivate (ip : string) : bool :=
  String.eqb ip "127.0.0.1" || String.eqb ip "::1"
  || (if net.isIPv4 ip then
        match octetsOf ip with
        | [a; b; _; _] =>
            (a =? 10) || ((a =? 172) && (16 <=? b) && (b <=? 31))
            || ((a =? 192) && (b =? 168)) || ((a =? 169) && (b =? 254))
        | _ => false
        end
      else if net.isIPv6 ip then
        let g := firstGroup ip in
        (Z.land g 65024 =? 64512) || (Z.land g 65472 =? 65152)
      else false).

(** The instants whose year has four digits: from the start of year 0 to
    the end of year 9999. *)
Definition fourDigitYear (t : Z) : Prop :=
  -62167219200000 <= t < 253402300800000.

(** Lexicographic comparison of two rows of numbers *)
Fixpoint lex (l1 l2 : list Z) : comparison :=
  match l1, l2 with
  | a :: l1', b :: l2' =>
      match a ?= b with
      | Eq => lex l1' l2'
      | c => c
      end
  | _, _ => Eq
  end.

(** The fields of the ISO format *)
Definition fields (t : Z) : list Z :=
  [ Date.YearFromTime t; Date.MonthFromTime t + 1; Date.DateFromTime t;
    Date.HourFromTime t; Date.MinFromTime t; Date.SecFromTime t; Date.msFromTime t ].

(** The outcomes of [requireAuth] as the specification names them: the
    session record, [Unauthenticated] for the replies to a missing or an
    unknown token, [Expired] for the reply to an overaged one. *)
Inductive AuthResult :=
| Authenticated (session : adminAuth.Session)
| Unauthenticated
| Expired
| Faulted.

Definition authResult (o : adminAuth.Outcome) : AuthResult :=
  match o with
  | adminAuth.Next session => Authenticated session
  | adminAuth.Json status _ message _ _ =>
      if negb (status =? 401) then Faulted
      else if String.eqb message "Session expired" then Expired
      else Unauthenticated
  | _ => Faulted
  end.

(** A reply that reports success. *)
Definition reportsSuccess (o : adminAuth.Outcome) : Prop :=
  match o with
  | adminAuth.Json 200 true _ _ _ => True
  | _ => False
  end.

(** The sessions a call of [getActiveSessions] lists. *)
Definition listed (o : adminAuth.Outcome) : list adminAuth.Session :=
  match o with
  | adminAuth.SessionList sessions _ => sessions
  | _ => []
  end.

(** Every record is stored under its own, non-empty, token. *)
Definition wellFormed (sessions : gmap string adminAuth.Session) : Prop :=
  forall token session,
    sessions !! token = Some session ->
    adminAuth.id session = token /\ token <> EmptyString.

(** The stores the handlers can produce, starting from the empty one. *)
Inductive reachable (adminUser : adminAuth.AdminUser)
    : gmap string adminAuth.Session -> Prop :=
| reach_empty : reachable adminUser ∅
| reach_authenticate randomBytes now req sessions :
    reachable adminUser sessions ->
    List.length randomBytes = 32%nat ->
    reachable adminUser (adminAuth.authenticate adminUser randomBytes now req sessions).2
| reach_requireAuth now req sessions :
    reachable adminUser sessions ->
    reachable adminUser (adminAuth.requireAuth now req sessions).2
| reach_logout req sessions :
    reachable adminUser sessions ->
    reachable adminUser (adminAuth.logout req sessions).2
| reach_clearAllSessions sessions :
    reachable adminUser sessions ->
    reachable adminUser (adminAuth.clearAllSessions sessions).2.

(** The text is empty or starts with a character that is no whitespace. *)
Definition headNotSpace (s : string) : Prop :=
  match s with
  | EmptyString => True
  | String c _ => Js.isWhiteSpace c = false
  end.

(** What the classification reads off a segment: its text has no dot and no
    leading letter, and the number tests on it are those on its value. *)
Definition segmentFacts (a : string) : Prop :=
  let n := Js.decimalValue a in
  occurs "." a = false
  /\ Js.strictEq (Js.Number a) 172 = (n =? 172)
  /\ Js.ge (Js.Number a) 16 = (16 <=? n)
  /\ Js.le (Js.Number a) 31 = (n <=? 31)
  /\ Js.strictEq (Js.Number a) 169 = (n =? 169)
  /\ Js.strictEq (Js.Number a) 254 = (n =? 254)
  /\ String.eqb a "10" = (n =? 10)
  /\ String.eqb a "192" = (n =? 192)
  /\ String.eqb a "168" = (n =? 168)
  /\ (forall r, Js.truthy (a +:+ r) = true)
  /\ (forall r, Js.startsWith (Js.toLowerCase (a +:+ r)) "fc" = false)
  /\ (forall r, Js.startsWith (Js.toLowerCase (a +:+ r)) "fd" = false)
  /\ (forall r, Js.startsWith (Js.toLowerCase (a +:+ r)) "fe80:" = false).

(** The text starts with characters other than dots, then a colon. *)
Definition headed (s : string) : Prop :=
  exists h rest, s = h +:+ String ":" rest /\ occurs "." h = false.

End Vocabulary.

(** ** Sample requests *)

Module Samples.
Import express.

Definition noBody : Body := mkBody None None.

(** A request with the given headers and no transport addresses. *)
Definition withHeaders (hs : gmap string hvalue) : Request :=
  mkRequest (Some hs) None None None None noBody.

(** A request without headers whose peer is [peer]. *)
Definition fromPeer (peer : string) : Request :=
  mkRequest None None (Some peer) (Some (mkConnection (Some peer) None))
    (Some (mkSocket (Some peer))) noBody.

(** [for="198.51.100.2:1234"] *)
Definition forwardedQuoted : string :=
  "for=" +:+ String Js.dquote ("198.51.100.2:1234" +:+ String Js.dquote EmptyString).

(** A key that was revoked and whose expiry, the start of 2024, has
    passed at the start of 2025. *)
Definition revokedKey : keyHelpers.Key :=
  keyHelpers.mkKey "k-1" "owner" "revoked" (Date.isoOf 1700000000000)
    (Date.isoOf 1704067200000).

Definition operator : adminAuth.AdminUser := adminAuth.mkAdminUser "admin" "admin123".

(** The 32 bytes of one call of [crypto.randomBytes(32)] *)
Definition drawn : list Byte.byte :=
  List.map (fun n => default Byte.x00 (Byte.of_N (N.of_nat (7 * n + 3)))) (List.seq 0 32).

Definition loginRequest : Request :=
  mkRequest (Some {[ "user-agent" := HStr "curl/8.5.0" ]}) None (Some "203.0.113.5")
    None None (mkBody (Some "admin") (Some "admin123")).

(** The store after one successful login at time 1000. *)
Definition oneSession : gmap string adminAuth.Session :=
  (adminAuth.authenticate operator drawn 1000 loginRequest ∅).2.

Definition drawnToken : string := adminAuth.generateSession drawn.

(** A request that presents [token] as the [admin_session] cookie. *)
Definition withCookie (token : string) : Request :=
  mkRequest (Some ∅) (Some {[ "admin_session" := token ]}) None None None noBody.

(** A request that presents [token] in the [x-admin-session] header only. *)
Definition withSessionHeader (token : string) : Request :=
  mkRequest (Some {[ "x-admin-session" := HStr token ]}) None None None None noBody.

(** A request whose two candidates are a private and a public address. *)
Definition privateThenPublic : Request :=
  withHeaders {[ "x-forwarded-for" := HStr "10.0.0.5, 8.8.8.8" ]}.

End Samples.

(** ** Further string methods *)

Module JsText.

(** [s.substring(start, end)] on integers: both indices are clamped to
    the string and swapped when the first is the larger one. *)
Definition substring (s : string) (start end_ : Z) : string :=
  let len := Z.of_nat (String.length s) in
  let finalStart := Js.clamp len start in
  let finalEnd := Js.clamp len end_ in
  let from := Z.min finalStart finalEnd in
  let to := Z.max finalStart finalEnd in
  Js.take (Z.to_nat (to - from)) (Js.drop (Z.to_nat from) s).

(** [s.replace(/[...]/g, '')] for the character class [p] *)
Fixpoint removeClass (p : ascii -> bool) (s : string) : string :=
  match s with
  | EmptyString => EmptyString
  | String c s' => if p c then removeClass p s' else String c (removeClass p s')
  end.

(** [s.includes(pat)] *)
Definition includes (s pat : string) : bool :=
  match Js.find_from pat s 0 with Some _ => true | None => false end.

(** Every character of [s] passes [p]. *)
Fixpoint all (p : ascii -> bool) (s : string) : bool :=
  match s with
  | EmptyString => true
  | String c s' => p c && all p s'
  end.

(** [s.repeat(n)] *)
Fixpoint repeat (s : string) (n : nat) : string :=
  match n with
  | O => EmptyString
  | S n' => s +:+ repeat s n'
  end.

(** The characters from [lo] to [hi] *)
Definition within (lo hi c : ascii) : bool :=
  (N_of_ascii lo <=? N_of_ascii c)%N && (N_of_ascii c <=? N_of_ascii hi)%N.

(** The text of a non-negative integer below 10^21, as [String(n)] and a
    template literal give it *)
Definition ofInteger (n : Z) : string := pretty n.

End JsText.

(** ** [src/utils/keyUtils.js]: key ids and input texts

    Texts are strings of code units below 256, as everywhere in this
    development. *)

Module keyFormat.
Import RegExp keyHelpers.

(** The class of [/[<>...]/g]: the two angle brackets, the double and
    the single quote *)
Definition dangerous (c : ascii) : bool :=
  Ascii.eqb c "<" || Ascii.eqb c ">" || Ascii.eqb c Js.dquote || Ascii.eqb c "'".

Definition sanitizeInput (input : value) : string :=
  match input with
  | VString input => JsText.substring (Js.trim (JsText.removeClass dangerous input)) 0 255
  | _ => ""
  end.

(** The class [[0-9a-f]] under the flag [i], which adds the capitals. *)
Definition hexClass (c : ascii) : bool :=
  JsText.within "0" "9" c || JsText.within "a" "f" c || JsText.within "A" "F" c.

(** The class [[89ab]] under the flag [i] *)
Definition variantClass (c : ascii) : bool :=
  Ascii.eqb c "8" || Ascii.eqb c "9" || Ascii.eqb c "a" || Ascii.eqb c "b"
  || Ascii.eqb c "A" || Ascii.eqb c "B".

(** [/^[0-9a-f]{8}-[0-9a-f]{4}-[1-5][0-9a-f]{3}-[89ab][0-9a-f]{3}-[0-9a-f]{12}$/i] *)
Definition uuidRegex : re :=
  cats [ times 8 (Class hexClass); chr "-";
         times 4 (Class hexClass); chr "-";
         Class (JsText.within "1" "5"); times 3 (Class hexClass); chr "-";
         Class variantClass; times 3 (Class hexClass); chr "-";
         times 12 (Class hexClass) ].

(** [isValidUUID(uuid)] on a string *)
Definition isValidUUID (uuid : string) : bool := test uuidRegex uuid.

(** [byteToHex[n]] of the uuid package: two lower-case hex digits *)
Definition byteToHex (b : Byte.byte) : string := adminAuth.hexByte b.

(** [(b & and) | or] on a byte *)
Definition masked (and_ or_ : N) (b : Byte.byte) : Byte.byte :=
  default Byte.x00 (Byte.of_N (N.lor (N.land (Byte.to_N b) and_) or_)).

(** [rnds[i]]; the random source draws 16 bytes, so that the indices 0
    to 15 are in range. *)
Definition byteAt (rnds : list Byte.byte) (i : nat) : Byte.byte :=
  default Byte.x00 (rnds !! i).

(** [v4()] of the uuid package (RFC 4122, section 4.4) on the 16 bytes
    [rnds] the random source drew: the version and the variant bits are
    set, and the bytes are written in hex in five groups. *)
Definition v4 (rnds : list Byte.byte) : string :=
  let rnds := <[6%nat := masked 15 64 (byteAt rnds 6)]> rnds in
  let rnds := <[8%nat := masked 63 128 (byteAt rnds 8)]> rnds in
  let hex (i : nat) := byteToHex (byteAt rnds i) in
  Js.toLowerCase
    (hex 0%nat +:+ hex 1%nat +:+ hex 2%nat +:+ hex 3%nat +:+ "-"
     +:+ hex 4%nat +:+ hex 5%nat +:+ "-"
     +:+ hex 6%nat +:+ hex 7%nat +:+ "-"
     +:+ hex 8%nat +:+ hex 9%nat +:+ "-"
     +:+ hex 10%nat +:+ hex 11%nat +:+ hex 12%nat +:+ hex 13%nat
     +:+ hex 14%nat +:+ hex 15%nat).

(** [generateKey()] *)
Definition generateKey (rnds : list Byte.byte) : string := v4 rnds.

End keyFormat.

(** ** Reading a timestamp

    [new Date(text)] on a string.  ECMAScript fixes the result for texts
    in its date-time format; this development interprets the form
    [YYYY-MM-DDTHH:mm:ss.sssZ] with legal field values, which is the form
    [toISOString] writes for the years 0 to 9999.  What the host answers
    for every other text is the parameter [host]. *)

Module DateParse.
Import Date.

(** The number of days of month [m], 1 to 12, in year [y] *)
Definition DaysInMonth (y m : Z) : Z :=
  match m with
  | 2 => if DaysInYear y =? 366 then 29 else 28
  | 4 | 6 | 9 | 11 => 30
  | _ => 31
  end.

(** The day within the year on which month [m], 0 to 11, starts *)
Definition monthStart (leap m : Z) : Z :=
  match m with
  | 0 => 0
  | 1 => 31
  | 2 => 59 + leap
  | 3 => 90 + leap
  | 4 => 120 + leap
  | 5 => 151 + leap
  | 6 => 181 + leap
  | 7 => 212 + leap
  | 8 => 243 + leap
  | 9 => 273 + leap
  | 10 => 304 + leap
  | _ => 334 + leap
  end.

(** [MakeDay(year, month, date)] for a month from 0 to 11 *)
Definition MakeDay (year month date : Z) : Z :=
  DayFromYear year
  + monthStart (if DaysInYear year =? 366 then 1 else 0) month
  + date - 1.

(** The number written in the [len] characters from position [from] *)
Definition field (s : string) (from len : nat) : option Z :=
  Js.digits 10 (Js.take len (Js.drop from s)).

(** The character at position [i] is [c]. *)
Definition sepAt (s : string) (i : nat) (c : ascii) : bool :=
  match String.get i s with
  | Some d => Ascii.eqb d c
  | None => false
  end.

Definition parseISO (s : string) : option Z :=
  if (String.length s =? 24)%nat
     && sepAt s 4 "-" && sepAt s 7 "-" && sepAt s 10 "T"
     && sepAt s 13 ":" && sepAt s 16 ":" && sepAt s 19 "." && sepAt s 23 "Z"
  then
    year ← field s 0 4;
    month ← field s 5 2;
    date ← field s 8 2;
    hour ← field s 11 2;
    minute ← field s 14 2;
    second ← field s 17 2;
    ms ← field s 20 3;
    if (1 <=? month) && (month <=? 12) && (1 <=? date) && (date <=? DaysInMonth year month)
       && (hour <=? 23) && (minute <=? 59) && (second <=? 59)
    then
      MakeDate (MakeDay year (month - 1) date)
               (MakeTime (Js.Fin (inject_Z hour)) minute second ms)
    else None
  else None.

(** [Date.parse(s)] *)
Definition parse (host : string -> option Z) (s : string) : option Z :=
  match parseISO s with
  | Some t => Some t
  | None => host s
  end.

(** The time value of [new Date(s)] *)
Definition ofString (host : string -> option Z) (s : string) : option Z :=
  TimeClip (parse host s).

End DateParse.

(** ** [src/utils/keyUtils.js]: the time a key has left

    The clock reading [now] is an input.  The differences and quotients
    of the function are whole numbers below 2^53 for every clock reading
    from 1970 on, where floating-point arithmetic is exact; they are kept
    as integers, with [None] for NaN. *)

Module keyClock.

Record TimeInfo := mkTimeInfo {
  expired : bool;
  remaining : option Z;
  hours : option Z;
  minutes : option Z;
  formatted : string
}.

(** A number inside a template literal *)
Definition text (x : option Z) : string :=
  match x with
  | Some n => JsText.ofInteger n
  | None => "NaN"
  end.

(** [x <= 0], which is false for NaN *)
Definition notPositive (x : option Z) : bool :=
  match x with
  | Some n => n <=? 0
  | None => false
  end.

(** [Math.floor(x / k)] and [x % k] for a positive constant [k] *)
Definition floorDiv (x : option Z) (k : Z) : option Z := (fun n => n / k) <$> x.

Definition remainder (x : option Z) (k : Z) : option Z := (fun n => Z.rem n k) <$> x.

Definition getRemainingTime (host : string -> option Z) (now : Z) (expiryDate : string)
    : TimeInfo :=
  let expiry := DateParse.ofString host expiryDate in
  let diff := (fun expiry => expiry - now) <$> expiry in
  if notPositive diff then
    {| expired := true;
       remaining := Some 0;
       hours := Some 0;
       minutes := Some 0;
       formatted := "Expired" |}
  else
    let hours := floorDiv diff (1000 * 60 * 60) in
    let minutes := floorDiv (remainder diff (1000 * 60 * 60)) (1000 * 60) in
    {| expired := false;
       remaining := diff;
       hours := hours;
       minutes := minutes;
       formatted := text hours +:+ "h " +:+ text minutes +:+ "m" |}.

End keyClock.

(** ** [src/routes/adminRoutes.js]: the guard of the protected routes *)

Module adminRoutes.
Import express adminAuth.

(** How the guard ends: with what [adminAuth.requireAuth] did, with a
    reply of its own, with a redirect, or with a TypeError. *)
Inductive Reply :=
| Handled (o : Outcome)
| Redirect (status : Z) (location : string)
| Thrown.

(** [req.get(name)] of Express for the names used here: the header under
    the lower-cased name; [None] stands for the TypeError of an undefined
    [req.headers]. *)
Definition get (req : Request) (name : string) : option (option hvalue) :=
  hs ← headers req; Some (header hs (Js.toLowerCase name)).

(** [req.xhr] of Express:
    [(this.get('X-Requested-With') || '').toLowerCase() === 'xmlhttprequest'] *)
Definition xhr (req : Request) : option bool :=
  match get req "X-Requested-With" with
  | None => None
  | Some None => Some false
  | Some (Some (HStr val)) => Some (String.eqb (Js.toLowerCase val) "xmlhttprequest")
  | Some (Some (HArr _)) => None
  end.

(** [(req.get('Accept') || '').includes('application/json')] *)
Definition acceptsJson (req : Request) : option bool :=
  match get req "Accept" with
  | None => None
  | Some None => Some false
  | Some (Some (HStr accept)) => Some (JsText.includes accept "application/json")
  | Some (Some (HArr accept)) => Some (bool_decide ("application/json" ∈ accept))
  end.

Definition wantsJson (path : string) (req : Request) : option bool :=
  if Js.startsWith path "/api" then Some true
  else
    match xhr req with
    | None => None
    | Some true => Some true
    | Some false => acceptsJson req
    end.

(** [requireAuthOrRedirect(req, res, next)]; [path] is [req.path]. *)
Definition requireAuthOrRedirect (now : Z) (path : string) (req : Request)
    (sessions : gmap string Session) : Reply * gmap string Session :=
  if falsy (cookieToken req) then
    match wantsJson path req with
    | None => (Thrown, sessions)
    | Some true =>
        (Handled (Json 401 false "Authentication required" None CookieUntouched), sessions)
    | Some false => (Redirect 302 "/admin/login", sessions)
    end
  else
    let '(o, sessions) := requireAuth now req sessions in
    (Handled o, sessions).

End adminRoutes.

(** ** [src/controllers/appController.js]: the test page *)

Module appController.

(** The double quote as a text, and the lines of a template joined by
    line feeds *)
Definition q : string := String Js.dquote EmptyString.

Definition lf : ascii := "010"%char.

Fixpoint lines (l : list string) : string :=
  match l with
  | [] => EmptyString
  | [x] => x
  | x :: l' => x +:+ String lf (lines l')
  end.

(** The page sent with status 400 *)
Definition errorPage : string :=
  lines
    [ "";
      "<!DOCTYPE html>";
      "<html lang=" +:+ q +:+ "en" +:+ q +:+ ">";
      "<head>";
      "    <meta charset=" +:+ q +:+ "UTF-8" +:+ q +:+ ">";
      "    <meta name=" +:+ q +:+ "viewport" +:+ q +:+ " content=" +:+ q +:+ "width=device-width, initial-scale=1.0" +:+ q +:+ ">";
      "    <title>Kuroukai Key Validation - Error</title>";
      "</head>";
      "<body style=" +:+ q +:+ "background-color: #000000; color: #ff0000; font-family: monospace; padding: 20px;" +:+ q +:+ ">";
      "    <pre>Error: Invalid key ID format</pre>";
      "</body>";
      "</html>";
      "      " ].

(** The page for [keyId]: the template up to the script element, the
    script element, and the rest *)
Definition pageHead : string :=
  lines
    [ "";
      "<!DOCTYPE html>";
      "<html lang=" +:+ q +:+ "en" +:+ q +:+ ">";
      "<head>";
      "    <meta charset=" +:+ q +:+ "UTF-8" +:+ q +:+ ">";
      "    <meta name=" +:+ q +:+ "viewport" +:+ q +:+ " content=" +:+ q +:+ "width=device-width, initial-scale=1.0" +:+ q +:+ ">";
      "    <title>Kuroukai Key Validation</title>";
      "  <meta http-equiv=" +:+ q +:+ "Content-Security-Policy" +:+ q +:+ " content=" +:+ q +:+ "default-src 'self'; script-src 'self'; style-src 'self' 'unsafe-inline';" +:+ q +:+ ">";
      "</head>";
      "<body>";
      "  <script src=" +:+ q +:+ "/bind/" ].

Definition pageTail : string :=
  lines
    [ ".js" +:+ q +:+ " defer></script>";
      "</body>";
      "</html>" ].

(** [getTestPage(req, res)] for the route parameter [keyId]: the status
    and the body of the reply *)
Definition getTestPage (keyId : string) : Z * string :=
  if negb (RegExp.test keyFormat.uuidRegex keyId) then (400, errorPage)
  else
    let html := pageHead +:+ keyId +:+ pageTail in
    (200, html).

End appController.

(** ** Vocabulary of the further statements *)

Module Terms.
Import RegExp.

(** The pattern that asks for the classes [l], one character each, and
    then for [r] *)
Definition wordThen (l : list (ascii -> bool)) (r : re) : re :=
  List.fold_right (fun p r' => Cat (Class p) r') r l.

Definition word (l : list (ascii -> bool)) : re := wordThen l Eps.

(** [s] has exactly the characters [classes] allow, position by position. *)
Fixpoint conforms (classes : list (ascii -> bool)) (s : string) : bool :=
  match classes, s with
  | [], EmptyString => true
  | p :: classes', String c s' => p c && conforms classes' s'
  | _, _ => false
  end.

(** What a key id has at position [i]: a hyphen at 8, 13, 18 and 23, a
    digit from 1 to 5 at 14, one of 8, 9, a, b (in either case) at 19,
    and a hex digit elsewhere. *)
Definition uuidClassAt (i : nat) : ascii -> bool :=
  match i with
  | 8 | 13 | 18 | 23 => Ascii.eqb "-"
  | 14 => JsText.within "1" "5"
  | 19 => keyFormat.variantClass
  | _ => keyFormat.hexClass
  end%nat.

Definition uuidShape (s : string) : bool :=
  conforms (List.map uuidClassAt (List.seq 0 36)) s.

Definition hexOrHyphen (c : ascii) : bool :=
  keyFormat.hexClass c || Ascii.eqb c "-".

(** [Buffer.from(s, 'hex')] on a text of hex digit pairs: the bytes the
    pairs write, when every character is a hex digit and their number is
    even *)
Fixpoint fromHex (s : string) : option (list Byte.byte) :=
  match s with
  | EmptyString => Some []
  | String hi (String lo s') =>
      match Js.digitValue hi, Js.digitValue lo, fromHex s' with
      | Some h, Some l, Some bytes =>
          (fun b => b :: bytes) <$> Byte.of_N (Z.to_N (16 * h + l))
      | _, _, _ => None
      end
  | String _ EmptyString => None
  end.

(** A digit or a letter from a to f *)
Definition lowerHex (c : ascii) : bool :=
  JsText.within "0" "9" c || JsText.within "a" "f" c.

(** The characters of a dotted address with a port or with the prefix of
    a mapped address *)
Definition plain (c : ascii) : bool :=
  Js.isDigit c || Ascii.eqb c "." || Ascii.eqb c ":" || Ascii.eqb c "f".

End Terms.

(** ** Further samples *)

Module MoreSamples.

(** A text of 256 characters whose 255th is a space *)
Definition longText : string := JsText.repeat "a" 254 +:+ " b".

(** The 16 bytes of one draw of the random source *)
Definition keyBytes : list Byte.byte := List.firstn 16 Samples.drawn.

(** An active key that expires at the start of 2024 *)
Definition activeKey : keyHelpers.Key :=
  keyHelpers.mkKey "k-2" "owner" "active" (Date.isoOf 1700000000000)
    (Date.isoOf 1704067200000).

(** A host that reads no text of its own *)
Definition strictHost : string -> option Z := fun _ => None.

(** A login attempt with a wrong password *)
Definition wrongPassword : express.Request :=
  express.mkRequest (Some ∅) None (Some "203.0.113.5") None None
    (express.mkBody (Some "admin") (Some "letmein")).

(** The same forwarded header, seen from two different peers *)
Definition spoofedFrom (peer : string) : express.Request :=
  express.mkRequest (Some {[ "x-real-ip" := express.HStr "8.8.4.4" ]}) None (Some peer)
    None None Samples.noBody.

End MoreSamples.

(** * Properties *)

Import express.

(** ** The matcher of regular expressions *)

Section Matcher.
Import RegExp.

Lemma append_nil_inv (s t : string) :
  s +:+ t = EmptyString -> s = EmptyString /\ t = EmptyString.
Proof. destruct s; [intros H; split; [reflexivity | exact H] | discriminate]. Qed.

Lemma append_cons_inv (s t : string) (c : ascii) (u : string) :
  s +:+ t = String c u ->
  (s = EmptyString /\ t = String c u) \/ (exists s', s = String c s' /\ u = s' +:+ t).
Proof.
  destruct s as [|d s]; intros H.
  - left. split; [reflexivity | exact H].
  - right. injection H as -> <-. exists s. split; reflexivity.
Qed.

Lemma nullable_matches (r : re) : nullable r = true <-> matches r EmptyString.
Proof.
  split.
  - induction r as [| |p|a IHa b IHb|a IHa b IHb|a IHa]; cbn [nullable]; intros H;
      try discriminate.
    + constructor.
    + apply andb_true_iff in H as [Ha Hb].
      apply (matches_cat a b EmptyString EmptyString); auto.
    + apply orb_true_iff in H as [H|H]; [apply matches_alt_l | apply matches_alt_r]; auto.
    + constructor.
  - intros H. remember EmptyString as s eqn:Es.
    induction H as [|p c Hp|a b s t Ha IHa Hb IHb|a b s Ha IHa|a b s Hb IHb| |a s t Ha IHa Ht IHt];
      cbn [nullable]; try reflexivity; try discriminate.
    + apply append_nil_inv in Es as [-> ->]. rewrite IHa, IHb; reflexivity.
    + rewrite IHa by exact Es. reflexivity.
    + rewrite IHb by exact Es. apply orb_true_r.
Qed.

Lemma matches_void (s : string) : ~ matches Void s.
Proof. intros H. inversion H. Qed.

Lemma matches_eps_inv (s : string) : matches Eps s -> s = EmptyString.
Proof. intros H. inversion H. reflexivity. Qed.

Lemma append_empty_r (s : string) : s +:+ EmptyString = s.
Proof.
  induction s as [|c s IH]; [reflexivity|].
  change (String c (s +:+ EmptyString) = String c s). f_equal. exact IH.
Qed.

(** The simplifying constructors denote what the plain ones do. *)
Lemma cat_matches (a b : re) (s : string) : matches (cat a b) s <-> matches (Cat a b) s.
Proof.
  assert (Hvl : forall b s, matches (Cat Void b) s -> False).
  { intros b' s' H. inversion H; subst. eapply matches_void; eauto. }
  assert (Hvr : forall a s, matches (Cat a Void) s -> False).
  { intros a' s' H. inversion H; subst. eapply matches_void; eauto. }
  assert (Hel : forall b s, matches b s <-> matches (Cat Eps b) s).
  { intros b' s'. split; intros H.
    - apply (matches_cat Eps b' EmptyString s'); [constructor | exact H].
    - inversion H as [| |a0 b0 s0 t0 Ha Hb| | | |]; subst.
      apply matches_eps_inv in Ha. subst. exact Hb. }
  assert (Her : forall a s, matches a s <-> matches (Cat a Eps) s).
  { intros a' s'. split; intros H.
    - rewrite <- (append_empty_r s').
      apply (matches_cat a' Eps s' EmptyString); [exact H | constructor].
    - inversion H as [| |a0 b0 s0 t0 Ha Hb| | | |]; subst.
      apply matches_eps_inv in Hb. subst. rewrite append_empty_r. exact Ha. }
  destruct a, b; cbn [cat];
    first [ reflexivity
          | split; intros H; exfalso;
            first [ eapply matches_void; exact H | eapply Hvl; exact H | eapply Hvr; exact H ]
          | apply Hel | apply Her ].
Qed.

Lemma alt_matches (a b : re) (s : string) : matches (alt a b) s <-> matches (Alt a b) s.
Proof.
  assert (Hl : forall b s, matches b s <-> matches (Alt Void b) s).
  { intros b' s'. split; intros H; [apply matches_alt_r, H|].
    inversion H; subst; [exfalso; eapply matches_void; eauto | assumption]. }
  assert (Hr : forall a s, matches a s <-> matches (Alt a Void) s).
  { intros a' s'. split; intros H; [apply matches_alt_l, H|].
    inversion H; subst; [assumption | exfalso; eapply matches_void; eauto]. }
  destruct a, b; cbn [alt]; first [ reflexivity | apply Hl | apply Hr ].
Qed.

(** The derivative by [c] denotes the strings that follow a leading [c]. *)
Lemma deriv_sound (c : ascii) (r : re) (s : string) :
  matches (deriv c r) s -> matches r (String c s).
Proof.
  revert s. induction r as [| |p|a IHa b IHb|a IHa b IHb|a IHa]; intros s; cbn [deriv].
  - intros H. inversion H.
  - intros H. inversion H.
  - destruct (p c) eqn:Hp; intros H; [|inversion H].
    apply matches_eps_inv in H. subst. constructor. exact Hp.
  - assert (Hleft : matches (cat (deriv c a) b) s -> matches (Cat a b) (String c s)).
    { intros H. apply cat_matches in H.
      inversion H as [| |a0 b0 s0 t0 Ha Hb| | | |]; subst.
      apply (matches_cat a b (String c s0) t0); [apply IHa, Ha | exact Hb]. }
    destruct (nullable a) eqn:Hn; [|exact Hleft].
    intros H. apply alt_matches in H.
    inversion H as [| | |a0 b0 s0 Hl|a0 b0 s0 Hr| |]; subst; [apply Hleft, Hl|].
    apply (matches_cat a b EmptyString (String c s));
      [apply nullable_matches, Hn | apply IHb, Hr].
  - intros H. apply alt_matches in H.
    inversion H; subst; [apply matches_alt_l, IHa | apply matches_alt_r, IHb]; assumption.
  - intros H. apply cat_matches in H.
    inversion H as [| |a0 b0 s0 t0 Ha Hb| | | |]; subst.
    apply (matches_star_cons a (String c s0) t0); [apply IHa, Ha | exact Hb].
Qed.

Lemma deriv_complete (c : ascii) (r : re) (s : string) :
  matches r (String c s) -> matches (deriv c r) s.
Proof.
  intros H. remember (String c s) as u eqn:Eu. revert s Eu.
  induction H as [|p d Hp|a b s1 t Ha IHa Hb IHb|a b s1 Ha IHa|a b s1 Hb IHb|
                  |a s1 t Ha IHa Ht IHt]; intros s Eu; cbn [deriv]; try discriminate.
  - injection Eu as -> <-. rewrite Hp. constructor.
  - assert (Hleft : forall s', s1 = String c s' -> s = s' +:+ t ->
                               matches (cat (deriv c a) b) s).
    { intros s' -> ->. apply cat_matches. constructor; [apply IHa; reflexivity | exact Hb]. }
    apply append_cons_inv in Eu as [[-> ->]|(s' & E1 & E2)].
    + apply nullable_matches in Ha. rewrite Ha.
      apply alt_matches, matches_alt_r, IHb. reflexivity.
    + destruct (nullable a); [apply alt_matches, matches_alt_l|]; eapply Hleft; eauto.
  - apply alt_matches, matches_alt_l, IHa, Eu.
  - apply alt_matches, matches_alt_r, IHb, Eu.
  - apply append_cons_inv in Eu as [[-> ->]|(s' & -> & ->)].
    + apply IHt. reflexivity.
    + apply cat_matches. constructor; [apply IHa; reflexivity | exact Ht].
Qed.

(** [test] decides membership in the language of the expression. *)
Lemma test_matches (r : re) (s : string) : test r s = true <-> matches r s.
Proof.
  revert r. induction s as [|c s IH]; intros r; cbn [test].
  - apply nullable_matches.
  - rewrite IH. split; [apply deriv_sound | apply deriv_complete].
Qed.

End Matcher.

(** ** Client-origin resolution *)

Section Resolver.
Import keyUtils.

(** The empty string is no address. *)
Lemma valid_truthy (ip : string) : valid ip = true -> Js.truthy ip = true.
Proof. destruct ip; [vm_compute; discriminate | reflexivity]. Qed.

Lemma find_valid_truthy (f : string -> bool) (l : list string) (ip : string) :
  (forall x, f x = true -> valid x = true) ->
  List.find f l = Some ip -> Js.truthy ip = true.
Proof.
  intros Hf Hfind. apply List.find_some in Hfind as [_ Hip].
  apply valid_truthy, Hf, Hip.
Qed.

Lemma or_truthy (a b : string) : Js.truthy a = true -> Js.or a b = a.
Proof. unfold Js.or. intros ->. reflexivity. Qed.

Lemma find_app_none {A} (f : A -> bool) (l1 l2 : list A) :
  (forall x, In x l1 -> f x = false) ->
  List.find f (l1 ++ l2) = List.find f l2.
Proof.
  induction l1 as [|a l1 IH]; intros H; simpl; [reflexivity|].
  rewrite (H a) by (left; reflexivity). apply IH.
  intros x Hx. apply H. right. exact Hx.
Qed.

Lemma find_none_iff {A} (f : A -> bool) (l : list A) :
  (forall x, In x l -> f x = false) -> List.find f l = None.
Proof.
  induction l as [|a l IH]; intros H; simpl; [reflexivity|].
  rewrite (H a) by (left; reflexivity). apply IH.
  intros x Hx. apply H. right. exact Hx.
Qed.

Lemma find_cons_true {A} (f : A -> bool) (a : A) (l : list A) :
  f a = true -> List.find f (a :: l) = Some a.
Proof. intros H. simpl. rewrite H. reflexivity. Qed.

(** Both copies of the helpers compute the same functions. *)
Lemma normalize_agree (s : string) : IpVariants.normalize s = ClientIp.normalize s.
Proof. reflexivity. Qed.

Lemma isPrivate_agree (s : string) : IpVariants.isPrivate s = ClientIp.isPrivate s.
Proof.
  unfold IpVariants.isPrivate, ClientIp.isPrivate, IpVariants.at_, ClientIp.at_.
  destruct (negb (Js.truthy s)); [reflexivity|].
  destruct (String.eqb s "127.0.0.1" || String.eqb s "::1"); [reflexivity|].
  destruct (Js.startsWith s "10."), (Js.startsWith s "192.168."); try reflexivity.
  cbv zeta. cbn [orb].
  match goal with |- (if ?c then _ else _) = _ => destruct c end; [reflexivity|].
  match goal with |- (if ?c then _ else _) = _ => destruct c end; [reflexivity|].
  destruct (Js.startsWith (Js.toLowerCase s) "fc"),
    (Js.startsWith (Js.toLowerCase s) "fd"),
    (Js.startsWith (Js.toLowerCase s) "fe80:"); reflexivity.
Qed.

Lemma candidates_agree (req : Request) :
  IpVariants.candidates req = ClientIp.candidates req.
Proof. reflexivity. Qed.

Lemma pickFirstPublic_agree (l : list string) :
  IpVariants.pickFirstPublic l = ClientIp.pickFirstPublic l.
Proof.
  unfold IpVariants.pickFirstPublic, ClientIp.pickFirstPublic,
    ClientIp.firstPublic, ClientIp.firstValidOf.
  assert (E : List.find (fun ip => valid ip && negb (IpVariants.isPrivate ip))
                (List.map IpVariants.normalize l)
              = List.find (fun ip => valid ip && negb (ClientIp.isPrivate ip))
                  (List.map ClientIp.normalize l)).
  { induction l as [|a l IH]; [reflexivity|]. cbn [List.map List.find].
    rewrite isPrivate_agree, IH. reflexivity. }
  rewrite E. reflexivity.
Qed.

(** What [pickFirstPublic] returns, in terms of its two loops. *)
Lemma pickFirstPublic_truthy_iff (l : list string) :
  Js.truthy (ClientIp.pickFirstPublic l) = true <->
  ClientIp.firstValidOf l <> None.
Proof.
  unfold ClientIp.pickFirstPublic.
  destruct (ClientIp.firstPublic l) as [ip|] eqn:Hpub.
  - split; intros _.
    + unfold ClientIp.firstPublic, ClientIp.firstValidOf in *.
      apply List.find_some in Hpub as [Hin Hip].
      apply andb_true_iff in Hip as [Hv _].
      intros Hnone. eapply List.find_none in Hnone; [|exact Hin]. congruence.
    + eapply find_valid_truthy; [|exact Hpub]. cbv beta.
      intros x Hx. apply andb_true_iff in Hx. tauto.
  - destruct (ClientIp.firstValidOf l) as [ip|] eqn:Hval; cbn [default].
    + split; [congruence|]. intros _. eapply find_valid_truthy; [|exact Hval]. auto.
    + split; [discriminate|congruence].
Qed.

(** Outside the ['private'] preference the result is the outcome of
    [pickFirstPublic], or ["unknown"] when that is empty. *)
Lemma getClientIp_default (pref : option string) (req : Request) :
  pref <> Some "private" ->
  ClientIp.getClientIp pref req =
    Js.or (ClientIp.pickFirstPublic (ClientIp.candidates req)) "unknown".
Proof.
  intros Hpref. unfold ClientIp.getClientIp. cbv zeta.
  rewrite bool_decide_eq_false_2 by exact Hpref.
  set (l := ClientIp.candidates req).
  destruct (Js.truthy (ClientIp.pickFirstPublic l)) eqn:Ht.
  - rewrite (or_truthy (ClientIp.pickFirstPublic l)) by exact Ht. reflexivity.
  - assert (Hnone : ClientIp.firstValidOf l = None).
    { destruct (ClientIp.firstValidOf l) eqn:E; [|reflexivity].
      assert (Js.truthy (ClientIp.pickFirstPublic l) = true)
        by (apply pickFirstPublic_truthy_iff; congruence).
      congruence. }
    rewrite Hnone. cbn [default]. unfold Js.or. rewrite Ht. reflexivity.
Qed.

(** Under the ['private'] preference the result is the first valid
    candidate, or ["unknown"] when there is none. *)
Lemma getClientIp_private (req : Request) :
  ClientIp.getClientIp (Some "private") req =
    default "unknown" (ClientIp.firstValidOf (ClientIp.candidates req)).
Proof.
  unfold ClientIp.getClientIp. cbv zeta.
  rewrite bool_decide_eq_true_2 by reflexivity.
  set (l := ClientIp.candidates req).
  destruct (ClientIp.firstValidOf l) as [ip|] eqn:Hval; cbn [default].
  - assert (Ht : Js.truthy ip = true) by (eapply find_valid_truthy; [|exact Hval]; auto).
    rewrite (or_truthy ip) by exact Ht. apply or_truthy, Ht.
  - assert (Hf : Js.truthy (ClientIp.pickFirstPublic l) = false).
    { destruct (Js.truthy (ClientIp.pickFirstPublic l)) eqn:E; [|reflexivity].
      apply pickFirstPublic_truthy_iff in E. congruence. }
    unfold Js.or. cbn [Js.truthy]. rewrite Hf. reflexivity.
Qed.

End Resolver.

Section ResolverClaims.
Import keyUtils Vocabulary.

Lemma firstPublic_app_skip (l1 l2 : list string) :
  (forall c, In c l1 -> validPublic (ClientIp.normalize c) = false) ->
  ClientIp.firstPublic (l1 ++ l2) = ClientIp.firstPublic l2.
Proof.
  intros H. unfold ClientIp.firstPublic. rewrite List.map_app.
  apply find_app_none. intros x Hx.
  apply List.in_map_iff in Hx as (c & <- & Hc). apply H, Hc.
Qed.

Lemma firstPublic_cons_hit (e : string) (l : list string) :
  validPublic (ClientIp.normalize e) = true ->
  ClientIp.firstPublic (e :: l) = Some (ClientIp.normalize e).
Proof.
  intros H. unfold ClientIp.firstPublic. cbn [List.map].
  apply find_cons_true, H.
Qed.

Lemma firstPublic_none (l : list string) :
  (forall c, In c l -> validPublic (ClientIp.normalize c) = false) ->
  ClientIp.firstPublic l = None.
Proof.
  intros H. unfold ClientIp.firstPublic. apply find_none_iff. intros x Hx.
  apply List.in_map_iff in Hx as (c & <- & Hc). apply H, Hc.
Qed.

Lemma firstValidOf_app_skip (l1 l2 : list string) :
  (forall c, In c l1 -> valid (ClientIp.normalize c) = false) ->
  ClientIp.firstValidOf (l1 ++ l2) = ClientIp.firstValidOf l2.
Proof.
  intros H. unfold ClientIp.firstValidOf. rewrite List.map_app.
  apply find_app_none. intros x Hx.
  apply List.in_map_iff in Hx as (c & <- & Hc). apply H, Hc.
Qed.

Lemma firstValidOf_cons_hit (e : string) (l : list string) :
  valid (ClientIp.normalize e) = true ->
  ClientIp.firstValidOf (e :: l) = Some (ClientIp.normalize e).
Proof.
  intros H. unfold ClientIp.firstValidOf. cbn [List.map].
  apply find_cons_true, H.
Qed.

Lemma firstValidOf_none (l : list string) :
  (forall c, In c l -> valid (ClientIp.normalize c) = false) ->
  ClientIp.firstValidOf l = None.
Proof.
  intros H. unfold ClientIp.firstValidOf. apply find_none_iff. intros x Hx.
  apply List.in_map_iff in Hx as (c & <- & Hc). apply H, Hc.
Qed.

Lemma validPublic_valid (ip : string) : validPublic ip = true -> valid ip = true.
Proof. unfold validPublic. intros H. apply andb_true_iff in H. tauto. Qed.

(** A candidate that is valid and public, with none such before it, is the
    answer under the default preference. *)
Lemma getClientIp_first_public (pref : option string) (req : Request)
    (pre post : list string) (e : string) :
  pref <> Some "private" ->
  ClientIp.candidates req = (pre ++ e :: post)%list ->
  (forall c, In c pre -> validPublic (ClientIp.normalize c) = false) ->
  validPublic (ClientIp.normalize e) = true ->
  ClientIp.getClientIp pref req = ClientIp.normalize e.
Proof.
  intros Hpref Hc Hpre He. rewrite getClientIp_default by exact Hpref.
  unfold ClientIp.pickFirstPublic.
  rewrite Hc, (firstPublic_app_skip pre) by exact Hpre.
  rewrite firstPublic_cons_hit by exact He.
  apply or_truthy, valid_truthy, validPublic_valid, He.
Qed.

(** A valid candidate with no valid one before it is the answer when no
    candidate is valid and public, and under the ['private'] preference. *)
Lemma getClientIp_first_valid (pref : option string) (req : Request)
    (pre post : list string) (e : string) :
  pref = Some "private" \/
    (forall c, In c (ClientIp.candidates req) ->
               validPublic (ClientIp.normalize c) = false) ->
  ClientIp.candidates req = (pre ++ e :: post)%list ->
  (forall c, In c pre -> valid (ClientIp.normalize c) = false) ->
  valid (ClientIp.normalize e) = true ->
  ClientIp.getClientIp pref req = ClientIp.normalize e.
Proof.
  intros Hcase Hc Hpre He.
  assert (Hfv : ClientIp.firstValidOf (ClientIp.candidates req)
                = Some (ClientIp.normalize e)).
  { rewrite Hc, (firstValidOf_app_skip pre) by exact Hpre.
    apply firstValidOf_cons_hit, He. }
  destruct (decide (pref = Some "private")) as [->|Hpref].
  - rewrite getClientIp_private, Hfv. reflexivity.
  - destruct Hcase as [?|Hnone]; [congruence|].
    rewrite getClientIp_default by exact Hpref.
    unfold ClientIp.pickFirstPublic.
    rewrite (firstPublic_none _ Hnone), Hfv. cbn [default].
    apply or_truthy, valid_truthy, He.
Qed.

Lemma getClientIp_no_valid (pref : option string) (req : Request) :
  (forall c, In c (ClientIp.candidates req) -> valid (ClientIp.normalize c) = false) ->
  ClientIp.getClientIp pref req = "unknown".
Proof.
  intros Hnone.
  assert (Hfv : ClientIp.firstValidOf (ClientIp.candidates req) = None)
    by (apply firstValidOf_none, Hnone).
  destruct (decide (pref = Some "private")) as [->|Hpref].
  - rewrite getClientIp_private, Hfv. reflexivity.
  - rewrite getClientIp_default by exact Hpref.
    unfold ClientIp.pickFirstPublic.
    rewrite firstPublic_none, Hfv; [reflexivity|].
    intros c Hc. unfold validPublic. rewrite (Hnone c Hc). reflexivity.
Qed.

End ResolverClaims.

(** ** Strings *)

Section StringFacts.
Import Vocabulary.

Lemma trimEnd_idem (s : string) : Js.trimEnd (Js.trimEnd s) = Js.trimEnd s.
Proof.
  induction s as [|c s IH]; [reflexivity|]. cbn [Js.trimEnd].
  destruct (Js.trimEnd s) as [|d t] eqn:E.
  - destruct (Js.isWhiteSpace c) eqn:Hc; [reflexivity|].
    cbn [Js.trimEnd]. rewrite Hc. reflexivity.
  - change (Js.trimEnd (String c (String d t)))
      with (match Js.trimEnd (String d t) with
            | EmptyString =>
                if Js.isWhiteSpace c then EmptyString else String c EmptyString
            | u => String c u
            end).
    rewrite IH. reflexivity.
Qed.

Lemma trimStart_head (s : string) : headNotSpace (Js.trimStart s).
Proof.
  induction s as [|c s IH]; [exact I|]. cbn [Js.trimStart].
  destruct (Js.isWhiteSpace c) eqn:Hc; [exact IH | exact Hc].
Qed.

Lemma trimStart_fixed (s : string) : headNotSpace s -> Js.trimStart s = s.
Proof. destruct s as [|c s]; [reflexivity|]. cbn. intros ->. reflexivity. Qed.

Lemma trimEnd_head (s : string) : headNotSpace s -> headNotSpace (Js.trimEnd s).
Proof.
  destruct s as [|c s]; [intros _; exact I|]. cbn [headNotSpace Js.trimEnd].
  intros Hc. destruct (Js.trimEnd s); [rewrite Hc|]; exact Hc.
Qed.

Lemma trim_idem (s : string) : Js.trim (Js.trim s) = Js.trim s.
Proof.
  unfold Js.trim.
  rewrite (trimStart_fixed (Js.trimEnd (Js.trimStart s)))
    by apply trimEnd_head, trimStart_head.
  apply trimEnd_idem.
Qed.

Lemma trim_truthy (s : string) : Js.truthy (Js.trim s) = true -> Js.truthy s = true.
Proof. destruct s; [discriminate | reflexivity]. Qed.

Lemma append_cons (d : ascii) (a b : string) :
  String d a +:+ b = String d (a +:+ b).
Proof. reflexivity. Qed.

Lemma append_char_assoc (c : ascii) (a b : string) :
  (a +:+ String c EmptyString) +:+ b = a +:+ String c b.
Proof.
  induction a as [|d a IH]; [reflexivity|].
  rewrite !append_cons, IH. reflexivity.
Qed.

Lemma append_assoc_string (a b c : string) : a +:+ (b +:+ c) = (a +:+ b) +:+ c.
Proof.
  induction a as [|d a IH]; [reflexivity|].
  rewrite !append_cons, IH. reflexivity.
Qed.

Lemma length_append (a b : string) :
  String.length (a +:+ b) = (String.length a + String.length b)%nat.
Proof. induction a as [|c a IH]; simpl; [reflexivity | rewrite IH; reflexivity]. Qed.

Lemma drop_append (a b : string) : Js.drop (String.length a) (a +:+ b) = b.
Proof. induction a as [|c a IH]; simpl; [reflexivity | exact IH]. Qed.

Lemma take_append (a b : string) : Js.take (String.length a) (a +:+ b) = a.
Proof.
  induction a as [|c a IH]; simpl; [destruct b; reflexivity | rewrite IH; reflexivity].
Qed.

Lemma take_zero (s : string) : Js.take 0 s = EmptyString.
Proof. destruct s; reflexivity. Qed.

Lemma prefix_char (c d : ascii) (s : string) :
  String.prefix (String c EmptyString) (String d s) = Ascii.eqb d c.
Proof.
  cbn. destruct (ascii_dec c d) as [->|Hne].
  - rewrite Ascii.eqb_refl. destruct s; reflexivity.
  - symmetry. apply Ascii.eqb_neq. congruence.
Qed.

Lemma find_from_cons (pat : string) (d : ascii) (s : string) (i : nat) :
  Js.find_from pat (String d s) i
  = if String.prefix pat (String d s) then Some i else Js.find_from pat s (S i).
Proof. reflexivity. Qed.

Lemma find_char_here (c : ascii) (a b : string) (i : nat) :
  occurs c a = false ->
  Js.find_from (String c EmptyString) (a +:+ String c b) i = Some (i + String.length a)%nat.
Proof.
  revert i. induction a as [|d a IH]; intros i Ha.
  - change (EmptyString +:+ String c b) with (String c b).
    rewrite find_from_cons, prefix_char, Ascii.eqb_refl.
    cbn [String.length]. f_equal. lia.
  - cbn [occurs] in Ha. apply orb_false_iff in Ha as [Hd Ha].
    change (String d a +:+ String c b) with (String d (a +:+ String c b)).
    rewrite find_from_cons, prefix_char, Hd, IH by exact Ha.
    cbn [String.length]. f_equal. lia.
Qed.

Lemma find_char_none (c : ascii) (s : string) (i : nat) :
  occurs c s = false -> Js.find_from (String c EmptyString) s i = None.
Proof.
  revert i. induction s as [|d s IH]; intros i Hs; [reflexivity|].
  cbn [occurs] in Hs. apply orb_false_iff in Hs as [Hd Hs].
  rewrite find_from_cons, prefix_char, Hd. apply IH, Hs.
Qed.

Lemma indexOf_char_first (c : ascii) (a b : string) :
  occurs c a = false ->
  Js.indexOf (a +:+ String c b) (String c EmptyString) 0 = Z.of_nat (String.length a).
Proof.
  intros Ha. unfold Js.indexOf, Js.clamp. cbv zeta.
  replace (Z.to_nat (Z.min (Z.max 0 0) _)) with 0%nat by lia.
  cbn [Js.drop]. rewrite find_char_here by exact Ha. reflexivity.
Qed.

Lemma indexOf_char_absent (c : ascii) (s : string) :
  occurs c s = false -> Js.indexOf s (String c EmptyString) 0 = -1.
Proof.
  intros Hs. unfold Js.indexOf, Js.clamp. cbv zeta.
  replace (Z.to_nat (Z.min (Z.max 0 0) _)) with 0%nat by lia.
  cbn [Js.drop]. rewrite find_char_none by exact Hs. reflexivity.
Qed.

(** Searching again behind the first occurrence looks at the rest only. *)
Lemma indexOf_char_next (c : ascii) (a b : string) :
  Js.indexOf (a +:+ String c b) (String c EmptyString) (Z.of_nat (String.length a) + 1)
  = match Js.find_from (String c EmptyString) b (S (String.length a)) with
    | Some k => Z.of_nat k
    | None => -1
    end.
Proof.
  unfold Js.indexOf, Js.clamp. cbv zeta. rewrite length_append. cbn [String.length].
  replace (Z.to_nat _) with (String.length (a +:+ String c EmptyString)).
  - rewrite <- (append_char_assoc c a b), drop_append, length_append.
    cbn [String.length].
    replace (String.length a + 1)%nat with (S (String.length a)) by lia.
    reflexivity.
  - rewrite length_append. cbn [String.length]. lia.
Qed.

Lemma slice_prefix (a b : string) : Js.slice (a +:+ b) 0 (Z.of_nat (String.length a)) = a.
Proof.
  unfold Js.slice. cbv zeta. rewrite length_append.
  replace (0 <? 0) with false by reflexivity.
  replace (Z.of_nat (String.length a) <? 0) with false by (symmetry; apply Z.ltb_ge; lia).
  replace (Z.to_nat (Z.min 0 _)) with 0%nat by lia.
  replace (Z.to_nat _) with (String.length a) by lia.
  cbn [Js.drop]. apply take_append.
Qed.

Lemma slice_bracket (d : ascii) (a b : string) :
  Js.slice (String d (a +:+ b)) 1 (Z.of_nat (String.length a) + 1) = a.
Proof.
  unfold Js.slice. cbv zeta. cbn [String.length]. rewrite length_append.
  replace (1 <? 0) with false by reflexivity.
  replace (Z.of_nat (String.length a) + 1 <? 0) with false
    by (symmetry; apply Z.ltb_ge; lia).
  replace (Z.to_nat (Z.min 1 _)) with 1%nat by lia.
  replace (Z.to_nat _) with (String.length a) by lia.
  cbn [Js.drop]. apply take_append.
Qed.

Lemma replace_prefix (p s : string) :
  String.prefix p s = true -> Js.replace s p EmptyString = Js.drop (String.length p) s.
Proof.
  intros H. unfold Js.replace.
  assert (E : Js.find_from p s 0 = Some 0%nat).
  { destruct s; cbn [Js.find_from]; rewrite H; reflexivity. }
  rewrite E, take_zero. reflexivity.
Qed.

End StringFacts.

(** ** Normalization of a candidate *)

Section Normalize.
Import keyUtils Vocabulary.

(** The last step of [normalize]. *)
Lemma unwrap_step (ip : string) :
  (if Js.startsWith ip "::ffff:" then Js.replace ip "::ffff:" EmptyString else ip)
  = unwrapMapped ip.
Proof.
  unfold Js.startsWith, unwrapMapped.
  destruct (String.prefix "::ffff:" ip) eqn:E; [|reflexivity].
  apply (replace_prefix "::ffff:" ip E).
Qed.

Lemma occurs_prefix_false (c : ascii) (p s : string) :
  occurs c s = false -> occurs c p = true -> String.prefix p s = false.
Proof.
  revert s. induction p as [|d p IH]; intros s Hs Hp; [discriminate|].
  destruct s as [|e s]; [reflexivity|].
  cbn [occurs] in Hs, Hp. apply orb_false_iff in Hs as [He Hs].
  cbn [String.prefix]. destruct (ascii_dec d e) as [->|]; [|reflexivity].
  rewrite He in Hp. cbn [orb] in Hp. apply IH; assumption.
Qed.

(** Without a colon there is no mapped prefix to unwrap. *)
Lemma unwrapMapped_no_colon (ip : string) :
  occurs ":" ip = false -> unwrapMapped ip = ip.
Proof.
  intros H. unfold unwrapMapped.
  rewrite (occurs_prefix_false ":" "::ffff:" ip H); reflexivity.
Qed.

Lemma startsWith_bracket_append (host rest : string) (c : ascii) :
  c <> "["%char ->
  Js.startsWith host "[" = false ->
  Js.startsWith (host +:+ String c rest) "[" = false.
Proof.
  intros Hc Hh. destruct host as [|d h].
  - change (EmptyString +:+ String c rest) with (String c rest).
    unfold Js.startsWith. rewrite prefix_char. apply Ascii.eqb_neq, Hc.
  - rewrite append_cons. unfold Js.startsWith in *.
    rewrite prefix_char in *. exact Hh.
Qed.

Lemma normalize_truthy (s : string) :
  Js.truthy s = true ->
  ClientIp.normalize s =
    unwrapMapped
      (let ip := Js.trim s in
       if Js.startsWith ip "[" then
         let end_ := Js.indexOf ip "]" 0 in
         if negb (end_ =? -1) then Js.slice ip 1 end_ else ip
       else
         let colonIdx := Js.indexOf ip ":" 0 in
         if negb (colonIdx =? -1) && (Js.indexOf ip ":" (colonIdx + 1) =? -1)
         then Js.slice ip 0 colonIdx
         else ip).
Proof.
  intros Ht. unfold ClientIp.normalize. rewrite Ht. cbn [negb]. cbv zeta.
  apply unwrap_step.
Qed.

(** Surrounding whitespace does not matter. *)
Lemma normalize_trim (s : string) :
  ClientIp.normalize (Js.trim s) = ClientIp.normalize s.
Proof.
  destruct (Js.truthy s) eqn:Hs.
  - destruct (Js.truthy (Js.trim s)) eqn:Ht.
    + rewrite (normalize_truthy s Hs), (normalize_truthy _ Ht), trim_idem. reflexivity.
    + rewrite (normalize_truthy s Hs).
      destruct (Js.trim s); [reflexivity | discriminate].
  - destruct s; [reflexivity | discriminate].
Qed.

(** [[addr]] and [[addr]:port]: the text between the brackets. *)
Lemma normalize_bracketed (s addr rest : string) :
  Js.trim s = String "[" (addr +:+ String "]" rest) ->
  occurs "]" addr = false ->
  ClientIp.normalize s = unwrapMapped addr.
Proof.
  intros Htrim Haddr.
  assert (Hs : Js.truthy s = true) by (apply trim_truthy; rewrite Htrim; reflexivity).
  rewrite (normalize_truthy s Hs), Htrim. cbv zeta. f_equal.
  unfold Js.startsWith at 1. rewrite prefix_char. cbn [Ascii.eqb Bool.eqb andb].
  rewrite <- append_cons, indexOf_char_first by (cbn [occurs]; rewrite Haddr; reflexivity).
  cbn [String.length]. rewrite Nat2Z.inj_succ.
  replace (Z.succ (Z.of_nat (String.length addr)) =? -1) with false
    by (symmetry; apply Z.eqb_neq; lia).
  cbn [negb]. rewrite append_cons. unfold Z.succ. apply slice_bracket.
Qed.

(** [host:port] with a single colon: the text before the colon. *)
Lemma normalize_host_port (s host port : string) :
  Js.trim s = host +:+ String ":" port ->
  Js.startsWith host "[" = false ->
  occurs ":" host = false ->
  occurs ":" port = false ->
  ClientIp.normalize s = host.
Proof.
  intros Htrim Hbr Hhost Hport.
  assert (Hs : Js.truthy s = true).
  { apply trim_truthy. rewrite Htrim. destruct host; reflexivity. }
  rewrite (normalize_truthy s Hs), Htrim. cbv zeta.
  rewrite startsWith_bracket_append by (discriminate || exact Hbr).
  rewrite indexOf_char_first by exact Hhost.
  rewrite indexOf_char_next, find_char_none by exact Hport.
  replace (Z.of_nat (String.length host) =? -1) with false
    by (symmetry; apply Z.eqb_neq; lia).
  cbn [negb andb Z.eqb]. rewrite slice_prefix.
  apply unwrapMapped_no_colon, Hhost.
Qed.

(** Two colons or more outside brackets: the text is kept. *)
Lemma normalize_many_colons (s a b c : string) :
  Js.trim s = a +:+ String ":" (b +:+ String ":" c) ->
  Js.startsWith a "[" = false ->
  occurs ":" a = false ->
  occurs ":" b = false ->
  ClientIp.normalize s = unwrapMapped (Js.trim s).
Proof.
  intros Htrim Hbr Ha Hb.
  assert (Hs : Js.truthy s = true).
  { apply trim_truthy. rewrite Htrim. destruct a; reflexivity. }
  rewrite (normalize_truthy s Hs), Htrim. cbv zeta. f_equal.
  rewrite startsWith_bracket_append by (discriminate || exact Hbr).
  rewrite indexOf_char_first by exact Ha.
  rewrite indexOf_char_next, find_char_here by exact Hb.
  replace (Z.of_nat (String.length a) =? -1) with false
    by (symmetry; apply Z.eqb_neq; lia).
  replace (Z.of_nat _ =? -1) with false by (symmetry; apply Z.eqb_neq; lia).
  reflexivity.
Qed.

(** A leading [::ffff:] is taken off. *)
Lemma normalize_mapped (s v4 : string) :
  Js.trim s = "::ffff:" +:+ v4 ->
  ClientIp.normalize s = v4.
Proof.
  intros Htrim.
  rewrite (normalize_many_colons s EmptyString EmptyString ("ffff:" +:+ v4))
    by (exact Htrim || reflexivity).
  rewrite Htrim. unfold unwrapMapped.
  change (String.prefix "::ffff:" ("::ffff:" +:+ v4)) with (String.prefix EmptyString v4).
  destruct v4; reflexivity.
Qed.

End Normalize.

(** ** The resolver's selection policy *)

Section Selection.
Import keyUtils Vocabulary Samples.

Lemma candidates_headers (req : Request) (hs : gmap string hvalue) :
  headers req = Some hs ->
  ClientIp.candidates req
  = (forwardedCandidates (hs !! "forwarded")
     ++ directCandidates hs
     ++ xffCandidates (hs !! "x-forwarded-for")
     ++ fallbacks req)%list.
Proof. intros H. unfold ClientIp.candidates. rewrite H. reflexivity. Qed.

Lemma xffCandidates_string (xff : string) :
  xffCandidates (Some (HStr xff))
  = List.filter Js.truthy (List.map Js.trim (Js.split "," xff)).
Proof. destruct xff; reflexivity. Qed.

(** C6: when neither the Forwarded header nor a vendor header gives a
    candidate that is valid and public, the entries of X-Forwarded-For,
    split on commas, trimmed and taken from the left, decide: the first
    one that is valid and public is returned (in normalized form).  With
    X-Forwarded-For [203.0.113.5, 10.0.0.1] and none of those headers the
    result is [203.0.113.5]. *)
Theorem C6_xff_leftmost_public :
  (forall (pref : option string) (req : Request) (hs : gmap string hvalue)
          (xff : string) (pre post : list string) (e : string),
      pref <> Some "private" ->
      headers req = Some hs ->
      hs !! "x-forwarded-for" = Some (HStr xff) ->
      (forall c, In c (forwardedCandidates (hs !! "forwarded") ++ directCandidates hs) ->
                 validPublic (ClientIp.normalize c) = false) ->
      List.filter Js.truthy (List.map Js.trim (Js.split "," xff)) = (pre ++ e :: post)%list ->
      (forall c, In c pre -> validPublic (ClientIp.normalize c) = false) ->
      validPublic (ClientIp.normalize e) = true ->
      ClientIp.getClientIp pref req = ClientIp.normalize e)
  /\ (forall (pref : option string) (req : Request) (hs : gmap string hvalue),
      headers req = Some hs ->
      hs !! "x-forwarded-for" = Some (HStr "203.0.113.5, 10.0.0.1") ->
      hs !! "forwarded" = None ->
      (forall h, In h directHeaders -> hs !! h = None) ->
      ClientIp.getClientIp pref req = "203.0.113.5").
Proof.
  assert (General : forall (pref : option string) (req : Request)
            (hs : gmap string hvalue) (xff : string) (pre post : list string)
            (e : string) (valid' : string -> bool),
            (valid' = validPublic /\ pref <> Some "private") \/
              (valid' = valid /\ pref = Some "private") ->
            headers req = Some hs ->
            hs !! "x-forwarded-for" = Some (HStr xff) ->
            (forall c, In c (forwardedCandidates (hs !! "forwarded")
                             ++ directCandidates hs) ->
                       valid' (ClientIp.normalize c) = false) ->
            List.filter Js.truthy (List.map Js.trim (Js.split "," xff))
              = (pre ++ e :: post)%list ->
            (forall c, In c pre -> valid' (ClientIp.normalize c) = false) ->
            valid' (ClientIp.normalize e) = true ->
            ClientIp.getClientIp pref req = ClientIp.normalize e).
  { intros pref req hs xff pre post e valid' Hcase Hhs Hxff Hhigh Hsplit Hpre He.
    assert (Hc : ClientIp.candidates req
                 = (((forwardedCandidates (hs !! "forwarded") ++ directCandidates hs)
                     ++ pre) ++ e :: (post ++ fallbacks req))%list).
    { rewrite (candidates_headers req hs Hhs), Hxff, xffCandidates_string, Hsplit.
      rewrite <- !List.app_assoc. reflexivity. }
    assert (Hskip : forall c,
               In c ((forwardedCandidates (hs !! "forwarded") ++ directCandidates hs)
                     ++ pre)%list ->
               valid' (ClientIp.normalize c) = false).
    { intros c Hin. apply List.in_app_or in Hin as [Hin|Hin]; auto. }
    destruct Hcase as [[-> Hpref]|[-> ->]].
    - apply (getClientIp_first_public pref req _ _ e Hpref Hc Hskip He).
    - apply (getClientIp_first_valid (Some "private") req _ _ e
               (or_introl eq_refl) Hc Hskip He). }
  split.
  - intros pref req hs xff pre post e Hpref. apply General. left.
    split; [reflexivity | exact Hpref].
  - intros pref req hs Hhs Hxff Hfwd Hdirect.
    assert (Hnil : (forwardedCandidates (hs !! "forwarded") ++ directCandidates hs)%list
                   = []).
    { rewrite Hfwd. cbn [forwardedCandidates asTruthyString app].
      unfold directCandidates, header.
      assert (E : forall l, (forall h, In h l -> hs !! h = None) ->
                            omap (fun h => asString (hs !! h)) l = []).
      { induction l as [|h l IH]; intros Hl; [reflexivity|].
        cbn [omap list_omap]. rewrite (Hl h) by (left; reflexivity).
        cbn [asString]. apply IH. intros h' Hh'. apply Hl. right. exact Hh'. }
      apply E, Hdirect. }
    change "203.0.113.5" with (ClientIp.normalize "203.0.113.5").
    destruct (decide (pref = Some "private")) as [Hp|Hp].
    + apply (General pref req hs "203.0.113.5, 10.0.0.1" [] ["10.0.0.1"]
               "203.0.113.5" valid).
      * right. split; [reflexivity | exact Hp].
      * exact Hhs.
      * exact Hxff.
      * rewrite Hnil. intros c [].
      * vm_compute. reflexivity.
      * intros c [].
      * vm_compute. reflexivity.
    + apply (General pref req hs "203.0.113.5, 10.0.0.1" [] ["10.0.0.1"]
               "203.0.113.5" validPublic).
      * left. split; [reflexivity | exact Hp].
      * exact Hhs.
      * exact Hxff.
      * rewrite Hnil. intros c [].
      * vm_compute. reflexivity.
      * intros c [].
      * vm_compute. reflexivity.
Qed.

(** An instance of C6: the general statement at the sample request. *)
Lemma C6_xff_leftmost_public_witness :
  ClientIp.getClientIp None
    (withHeaders {[ "x-forwarded-for" := HStr "10.0.0.1 ,203.0.113.5:443, 8.8.8.8" ]})
  = "203.0.113.5".
Proof.
  apply (proj1 C6_xff_leftmost_public None _
           {[ "x-forwarded-for" := HStr "10.0.0.1 ,203.0.113.5:443, 8.8.8.8" ]}
           "10.0.0.1 ,203.0.113.5:443, 8.8.8.8"
           ["10.0.0.1"] ["8.8.8.8"] "203.0.113.5:443").
  - discriminate.
  - reflexivity.
  - vm_compute. reflexivity.
  - intros c Hc. vm_compute in Hc. destruct Hc.
  - vm_compute. reflexivity.
  - intros c [<-|[]]. vm_compute. reflexivity.
  - vm_compute. reflexivity.
Defined.

Lemma candidates_forwarded_head (req : Request) (hs : gmap string hvalue) :
  headers req = Some hs ->
  hs !! "forwarded" = Some (HStr forwardedQuoted) ->
  exists rest, ClientIp.candidates req = "198.51.100.2:1234" :: rest.
Proof.
  intros Hhs Hfwd. rewrite (candidates_headers req hs Hhs), Hfwd.
  change (forwardedCandidates (Some (HStr forwardedQuoted)))
    with ["198.51.100.2:1234"].
  eexists. reflexivity.
Qed.

(** C7: normalization trims whitespace; takes the text between the
    brackets of a bracketed form, dropping whatever follows the closing
    bracket; cuts a single-colon form at the colon; keeps a form with
    several colons; and takes off a leading [::ffff:].  With the header
    Forwarded: for="198.51.100.2:1234" the resolver returns
    [198.51.100.2]. *)
Theorem C7_normalize_candidate :
  (forall s, ClientIp.normalize (Js.trim s) = ClientIp.normalize s)
  /\ (forall s addr rest,
      Js.trim s = String "[" (addr +:+ String "]" rest) ->
      occurs "]" addr = false ->
      ClientIp.normalize s = unwrapMapped addr)
  /\ (forall s host port,
      Js.trim s = host +:+ String ":" port ->
      Js.startsWith host "[" = false ->
      occurs ":" host = false ->
      occurs ":" port = false ->
      ClientIp.normalize s = host)
  /\ (forall s a b c,
      Js.trim s = a +:+ String ":" (b +:+ String ":" c) ->
      Js.startsWith a "[" = false ->
      occurs ":" a = false ->
      occurs ":" b = false ->
      ClientIp.normalize s = unwrapMapped (Js.trim s))
  /\ (forall s v4, Js.trim s = "::ffff:" +:+ v4 -> ClientIp.normalize s = v4)
  /\ (forall (pref : option string) (req : Request) (hs : gmap string hvalue),
      headers req = Some hs ->
      hs !! "forwarded" = Some (HStr forwardedQuoted) ->
      ClientIp.getClientIp pref req = "198.51.100.2").
Proof.
  split; [exact normalize_trim|].
  split; [exact normalize_bracketed|].
  split; [exact normalize_host_port|].
  split; [exact normalize_many_colons|].
  split; [exact normalize_mapped|].
  intros pref req hs Hhs Hfwd.
  destruct (candidates_forwarded_head req hs Hhs Hfwd) as [rest Hc].
  change "198.51.100.2" with (ClientIp.normalize "198.51.100.2:1234").
  destruct (decide (pref = Some "private")) as [Hp|Hp].
  - apply (getClientIp_first_valid pref req [] rest "198.51.100.2:1234").
    + left. exact Hp.
    + exact Hc.
    + intros c [].
    + vm_compute. reflexivity.
  - apply (getClientIp_first_public pref req [] rest "198.51.100.2:1234").
    + exact Hp.
    + exact Hc.
    + intros c [].
    + vm_compute. reflexivity.
Qed.

(** An instance of C7: each form of candidate, and the sample header. *)
Lemma C7_normalize_candidate_witness :
  ClientIp.normalize "  203.0.113.9  " = "203.0.113.9"
  /\ ClientIp.normalize " [2001:db8::1]:8080" = "2001:db8::1"
  /\ ClientIp.normalize "198.51.100.2:1234 " = "198.51.100.2"
  /\ ClientIp.normalize "2001:db8::7" = "2001:db8::7"
  /\ ClientIp.normalize "::ffff:192.0.2.1" = "192.0.2.1"
  /\ ClientIp.getClientIp None (withHeaders {[ "forwarded" := HStr forwardedQuoted ]})
     = "198.51.100.2".
Proof.
  destruct C7_normalize_candidate as (Htrim & Hbr & Hport & Hmany & Hmapped & Hfwd).
  split; [rewrite <- Htrim; reflexivity|].
  split; [apply (Hbr _ "2001:db8::1" ":8080"); reflexivity|].
  split; [apply (Hport _ "198.51.100.2" "1234"); reflexivity|].
  split; [rewrite (Hmany "2001:db8::7" "2001" "db8" ":7") by reflexivity; reflexivity|].
  split; [apply (Hmapped _ "192.0.2.1"); reflexivity|].
  apply (Hfwd None _ {[ "forwarded" := HStr forwardedQuoted ]}); reflexivity.
Defined.

(** C8: when no candidate is valid and public the first valid candidate
    is returned, whatever its classification; when no candidate is valid
    the result is ["unknown"].  A request with no headers whose only
    address is the loopback peer [::1] resolves to [::1]. *)
Theorem C8_fallback_first_valid_or_unknown :
  (forall (pref : option string) (req : Request) (pre post : list string) (e : string),
      (forall c, In c (ClientIp.candidates req) ->
                 validPublic (ClientIp.normalize c) = false) ->
      ClientIp.candidates req = (pre ++ e :: post)%list ->
      (forall c, In c pre -> valid (ClientIp.normalize c) = false) ->
      valid (ClientIp.normalize e) = true ->
      ClientIp.getClientIp pref req = ClientIp.normalize e)
  /\ (forall (pref : option string) (req : Request),
      (forall c, In c (ClientIp.candidates req) ->
                 valid (ClientIp.normalize c) = false) ->
      ClientIp.getClientIp pref req = "unknown")
  /\ (forall (pref : option string) (req : Request),
      (headers req = None \/ headers req = Some ∅) ->
      ip req = Some "::1" ->
      (forall c, In c (fallbacks req) -> c = "::1") ->
      ClientIp.getClientIp pref req = "::1").
Proof.
  split; [|split].
  - intros pref req pre post e Hnone. apply getClientIp_first_valid. right. exact Hnone.
  - exact getClientIp_no_valid.
  - intros pref req Hhs Hip Hall.
    assert (Hc : ClientIp.candidates req = fallbacks req).
    { unfold ClientIp.candidates. destruct Hhs as [->| ->]; reflexivity. }
    assert (Hf : exists rest, fallbacks req = "::1" :: rest).
    { unfold fallbacks. rewrite Hip. eexists. reflexivity. }
    destruct Hf as [rest Hf].
    change "::1" with (ClientIp.normalize "::1").
    apply (getClientIp_first_valid pref req [] rest "::1").
    + right. intros c Hin. rewrite Hc in Hin. rewrite (Hall c Hin).
      vm_compute. reflexivity.
    + rewrite Hc. exact Hf.
    + intros c [].
    + vm_compute. reflexivity.
Qed.

(** An instance of C8: a private peer behind an unusable header, then only
    unusable candidates, then the loopback peer. *)
Lemma C8_fallback_first_valid_or_unknown_witness :
  ClientIp.getClientIp None
    (mkRequest (Some {[ "x-real-ip" := HStr "not-an-address" ]}) None
               (Some "192.168.1.20") None None noBody)
  = "192.168.1.20"
  /\ ClientIp.getClientIp None (withHeaders {[ "x-real-ip" := HStr "not-an-address" ]})
     = "unknown"
  /\ ClientIp.getClientIp None (fromPeer "::1") = "::1".
Proof.
  destruct C8_fallback_first_valid_or_unknown as (Hvalid & Hunknown & Hloop).
  split; [|split].
  - apply (Hvalid None _ ["not-an-address"] [] "192.168.1.20").
    + intros c Hc. vm_compute in Hc. destruct Hc as [<-|[<-|[]]]; vm_compute; reflexivity.
    + vm_compute. reflexivity.
    + intros c [<-|[]]. vm_compute. reflexivity.
    + vm_compute. reflexivity.
  - apply Hunknown. intros c Hc. vm_compute in Hc.
    destruct Hc as [<-|[]]. vm_compute. reflexivity.
  - apply Hloop.
    + left. reflexivity.
    + reflexivity.
    + intros c Hc. vm_compute in Hc. destruct Hc as [<-|[<-|[<-|[]]]]; reflexivity.
Defined.

(** C10: outside the ['private'] preference, [getClientIp] returns the
    [publicIp] of [getIpVariants] when that is not null, else its
    [privateIp] when that is not null, else ["unknown"]. *)
Theorem C10_getClientIp_agrees_with_getIpVariants
    (pref : option string) (req : Request) :
  pref <> Some "private" ->
  ClientIp.getClientIp pref req =
    match IpVariants.publicIp (IpVariants.getIpVariants req) with
    | Some publicIp => publicIp
    | None =>
        match IpVariants.privateIp (IpVariants.getIpVariants req) with
        | Some privateIp => privateIp
        | None => "unknown"
        end
    end.
Proof.
  intros Hpref. rewrite getClientIp_default by exact Hpref.
  unfold IpVariants.getIpVariants. cbv zeta.
  cbn [IpVariants.publicIp IpVariants.privateIp].
  rewrite pickFirstPublic_agree.
  change (IpVariants.candidates req) with (ClientIp.candidates req).
  set (l := ClientIp.candidates req).
  unfold IpVariants.orNull, Js.or.
  destruct (Js.truthy (ClientIp.pickFirstPublic l)) eqn:Ht; [reflexivity|].
  change (List.find valid (List.map IpVariants.normalize l))
    with (ClientIp.firstValidOf l).
  destruct (ClientIp.firstValidOf l) eqn:E; [|reflexivity].
  assert (Js.truthy (ClientIp.pickFirstPublic l) = true)
    by (apply pickFirstPublic_truthy_iff; congruence).
  congruence.
Qed.

(** An instance of C10 at a request that carries a private and a public
    address. *)
Lemma C10_getClientIp_agrees_with_getIpVariants_witness :
  ClientIp.getClientIp None
    (withHeaders {[ "x-forwarded-for" := HStr "10.0.0.1, 203.0.113.5" ]})
  = "203.0.113.5".
Proof.
  rewrite (C10_getClientIp_agrees_with_getIpVariants None) by discriminate.
  vm_compute. reflexivity.
Defined.

End Selection.

(** ** The admin session store *)

Section Sessions.
Import adminAuth Vocabulary Samples.

Lemma toHex_nonempty (buf : list Byte.byte) :
  buf <> [] -> generateSession buf <> EmptyString.
Proof. destruct buf as [|b buf]; [congruence|]. intros _. discriminate. Qed.

Lemma wellFormed_empty : wellFormed ∅.
Proof. intros token session H. rewrite lookup_empty in H. discriminate. Qed.

Lemma wellFormed_delete (token : string) (sessions : gmap string Session) :
  wellFormed sessions -> wellFormed (delete token sessions).
Proof.
  intros Hwf k s Hk. apply lookup_delete_Some in Hk as [_ Hk]. apply Hwf, Hk.
Qed.

Lemma wellFormed_insert (token : string) (session : Session)
    (sessions : gmap string Session) :
  id session = token -> token <> EmptyString ->
  wellFormed sessions -> wellFormed (<[token := session]> sessions).
Proof.
  intros Hid Hne Hwf k s Hk. apply lookup_insert_Some in Hk as [[<- <-]|[_ Hk]].
  - split; assumption.
  - apply Hwf, Hk.
Qed.

Lemma authenticate_wellFormed adminUser randomBytes now req sessions :
  randomBytes <> [] ->
  wellFormed sessions ->
  wellFormed (authenticate adminUser randomBytes now req sessions).2.
Proof.
  intros Hrnd Hwf. unfold authenticate. cbv zeta.
  destruct (falsy _ || falsy _); [exact Hwf|].
  destruct (negb _); [exact Hwf|].
  destruct (headers req) as [hs|]; [|exact Hwf].
  cbn [snd]. apply wellFormed_insert; [reflexivity | apply toHex_nonempty, Hrnd | exact Hwf].
Qed.

Lemma requireAuth_wellFormed now req sessions :
  wellFormed sessions -> wellFormed (requireAuth now req sessions).2.
Proof.
  intros Hwf. unfold requireAuth.
  destruct (sessionTokenOf req) as [[[[|c t]|l]|]|]; try exact Hwf.
  destruct (sessions !! String c t) as [session|]; [|exact Hwf].
  cbv zeta. destruct (_ >? _); [|exact Hwf].
  cbn [snd]. apply wellFormed_delete, Hwf.
Qed.

Lemma logout_wellFormed req sessions :
  wellFormed sessions -> wellFormed (logout req sessions).2.
Proof.
  intros Hwf. unfold logout.
  destruct (cookieToken req) as [[|c t]|]; try exact Hwf.
  cbn [snd]. apply wellFormed_delete, Hwf.
Qed.

(** Every store the handlers produce is well formed. *)
Lemma reachable_wellFormed adminUser sessions :
  reachable adminUser sessions -> wellFormed sessions.
Proof.
  induction 1 as [|randomBytes now req sessions _ IH Hlen|now req sessions _ IH
                 |req sessions _ IH|sessions _ IH].
  - exact wellFormed_empty.
  - apply authenticate_wellFormed; [|exact IH].
    intros ->. discriminate Hlen.
  - apply requireAuth_wellFormed, IH.
  - apply logout_wellFormed, IH.
  - exact wellFormed_empty.
Qed.

(** What [getActiveSessions] lists is what the store holds. *)
Lemma listed_lookup (sessions : gmap string Session) (session : Session) :
  In session (listed (getActiveSessions sessions)) <->
  exists token, sessions !! token = Some session.
Proof.
  unfold getActiveSessions. cbv zeta. cbn [listed].
  rewrite <- list_elem_of_In, list_elem_of_fmap. split.
  - intros ([token s] & -> & Hin). exists token.
    apply elem_of_map_to_list in Hin. exact Hin.
  - intros [token Hl]. exists (token, session). split; [reflexivity|].
    apply elem_of_map_to_list. exact Hl.
Qed.

Lemma requireAuth_token now req sessions token :
  sessionTokenOf req = Some (Some (HStr token)) ->
  requireAuth now req sessions =
    match token with
    | EmptyString =>
        (Json 401 false "Authentication required" None CookieUntouched, sessions)
    | _ =>
        match sessions !! token with
        | None => (Json 401 false "Invalid or expired session" None CookieUntouched,
                   sessions)
        | Some session =>
            if now - createdAt session >? 24 * 60 * 60 * 1000 then
              (Json 401 false "Session expired" None CookieUntouched,
               delete token sessions)
            else (Next session, sessions)
        end
    end.
Proof. intros H. unfold requireAuth. rewrite H. destruct token; reflexivity. Qed.

(** C3: for a stored session older than the 24 hours, [requireAuth] with
    its token replies that the session expired and removes the record;
    the store then has no record under the token and [getActiveSessions]
    lists no session with that token. *)
Theorem C3_expired_session_evicted
    (now : Z) (req : Request) (sessions : gmap string Session)
    (token : string) (session : Session) :
  wellFormed sessions ->
  sessionTokenOf req = Some (Some (HStr token)) ->
  sessions !! token = Some session ->
  now - createdAt session > 24 * 60 * 60 * 1000 ->
  requireAuth now req sessions
    = (Json 401 false "Session expired" None CookieUntouched, delete token sessions)
  /\ authResult (requireAuth now req sessions).1 = Expired
  /\ (requireAuth now req sessions).2 !! token = None
  /\ forall s, In s (listed (getActiveSessions (requireAuth now req sessions).2)) ->
               id s <> token.
Proof.
  intros Hwf Htok Hget Hage.
  assert (Hne : token <> EmptyString) by (apply (Hwf token session Hget)).
  assert (E : requireAuth now req sessions
              = (Json 401 false "Session expired" None CookieUntouched,
                 delete token sessions)).
  { rewrite (requireAuth_token now req sessions token Htok), Hget.
    destruct token; [congruence|].
    replace (now - createdAt session >? 24 * 60 * 60 * 1000) with true
      by (symmetry; apply Z.gtb_lt; lia).
    reflexivity. }
  rewrite E. cbn [fst snd]. split; [reflexivity|]. split; [reflexivity|].
  split; [apply lookup_delete_eq|].
  intros s Hin. apply listed_lookup in Hin as [k Hk].
  apply lookup_delete_Some in Hk as [Hk Hs].
  destruct (Hwf k s Hs) as [-> _]. congruence.
Qed.

Lemma oneSession_reachable : reachable operator oneSession.
Proof. apply reach_authenticate; [apply reach_empty | reflexivity]. Qed.

Lemma oneSession_lookup :
  oneSession !! drawnToken
  = Some (mkSession drawnToken 1000 (Some "203.0.113.5") (Some "curl/8.5.0")).
Proof. vm_compute. reflexivity. Qed.

(** An instance of C3: the session of a login at time 1000, presented in
    the header one millisecond after its 24 hours. *)
Lemma C3_expired_session_evicted_witness :
  requireAuth (1000 + 24 * 60 * 60 * 1000 + 1) (withSessionHeader drawnToken) oneSession
  = (Json 401 false "Session expired" None CookieUntouched, delete drawnToken oneSession).
Proof.
  apply (C3_expired_session_evicted _ (withSessionHeader drawnToken) oneSession drawnToken
           (mkSession drawnToken 1000 (Some "203.0.113.5") (Some "curl/8.5.0"))).
  - exact (reachable_wellFormed operator oneSession oneSession_reachable).
  - vm_compute. reflexivity.
  - exact oneSession_lookup.
  - vm_compute. reflexivity.
Defined.

(** [logout] reads the token from the [admin_session] cookie and from
    nowhere else: a request without that cookie leaves the store as it
    is, whatever its headers. *)
Lemma logout_without_cookie (req : Request) (sessions : gmap string Session) :
  cookieToken req = None ->
  logout req sessions
  = (Json 200 true "Logged out successfully" None CookieUntouched, sessions).
Proof. intros H. unfold logout. rewrite H. reflexivity. Qed.

Lemma logout_store (req : Request) (sessions : gmap string Session) (token : string) :
  cookieToken req = Some token ->
  token <> EmptyString ->
  (logout req sessions).2 = delete token sessions.
Proof.
  intros H Hne. unfold logout. rewrite H. destruct token; [congruence | reflexivity].
Qed.

(** C9: [logout] reports success for every request, whether its token is
    stored, unknown or already removed; and after [logout] ran with a token
    (its [sessionToken], the [admin_session] cookie), [requireAuth] with
    that token (its [sessionToken], the cookie or the [x-admin-session]
    header) answers as to an unauthenticated caller and leaves the store as
    it is. *)
Theorem C9_logout_then_unauthenticated :
  (forall (req : Request) (sessions : gmap string Session),
      reportsSuccess (logout req sessions).1)
  /\ (forall (now : Z) (reqOut reqIn : Request) (sessions : gmap string Session)
             (token : string),
      cookieToken reqOut = Some token ->
      sessionTokenOf reqIn = Some (Some (HStr token)) ->
      authResult (requireAuth now reqIn (logout reqOut sessions).2).1 = Unauthenticated
      /\ (requireAuth now reqIn (logout reqOut sessions).2).2 = (logout reqOut sessions).2).
Proof.
  split.
  - intros req sessions. unfold logout.
    destruct (cookieToken req) as [[|c t]|]; exact I.
  - intros now reqOut reqIn sessions token Hout Hin.
    rewrite (requireAuth_token now reqIn _ token Hin).
    destruct token as [|c t]; [split; reflexivity|].
    rewrite (logout_store reqOut sessions (String c t) Hout) by discriminate.
    rewrite lookup_delete_eq. split; reflexivity.
Qed.

(** An instance of C9: logging out the session of [oneSession] by its
    cookie, then presenting the token in the header. *)
Lemma C9_logout_then_unauthenticated_witness :
  reportsSuccess (logout (withCookie drawnToken) oneSession).1
  /\ authResult
       (requireAuth 2000 (withSessionHeader drawnToken)
          (logout (withCookie drawnToken) oneSession).2).1
     = Unauthenticated.
Proof.
  destruct C9_logout_then_unauthenticated as [Hsuccess Hafter].
  split; [apply Hsuccess|].
  apply (Hafter 2000 (withCookie drawnToken) (withSessionHeader drawnToken) oneSession
           drawnToken); vm_compute; reflexivity.
Defined.

End Sessions.

(** ** Dates and their ISO format *)

Section Dates.
Import Date Vocabulary.

Lemma DayFromYear_succ (y : Z) : DayFromYear (y + 1) = DayFromYear y + DaysInYear y.
Proof.
  unfold DayFromYear, DaysInYear.
  destruct (Z.eqb_spec (y mod 4) 0), (Z.eqb_spec (y mod 100) 0),
    (Z.eqb_spec (y mod 400) 0); cbn [negb]; Z.div_mod_to_equations; lia.
Qed.

Lemma DayFromYear_mono (y1 y2 : Z) : y1 <= y2 -> DayFromYear y1 <= DayFromYear y2.
Proof. unfold DayFromYear. intros H. Z.div_mod_to_equations. lia. Qed.

(** [YearFromDay d] is the year that contains day [d]. *)
Lemma YearFromDay_spec (d : Z) :
  DayFromYear (YearFromDay d) <= d < DayFromYear (YearFromDay d + 1).
Proof.
  unfold YearFromDay. cbv zeta.
  set (y := 1970 + 400 * d / 146097).
  assert (Hy : 146097 * (y - 1970) <= 400 * d < 146097 * (y - 1970) + 146097).
  { subst y. Z.div_mod_to_equations. lia. }
  clearbody y.
  destruct (Z.leb_spec (DayFromYear (y + 1)) d) as [H1|H1].
  - split; [exact H1|]. revert H1 Hy. unfold DayFromYear.
    Z.div_mod_to_equations. lia.
  - destruct (Z.leb_spec (DayFromYear y) d) as [H2|H2].
    + split; [exact H2 | exact H1].
    + replace (y - 1 + 1) with y by lia. split; [|exact H2].
      revert H2 Hy. unfold DayFromYear. Z.div_mod_to_equations. lia.
Qed.

(** It is the largest year that starts on or before [d], as the language
    specification defines the year of a time value. *)
Lemma YearFromDay_largest (d y : Z) : DayFromYear y <= d -> y <= YearFromDay d.
Proof.
  intros Hy. destruct (YearFromDay_spec d) as [_ Hd].
  destruct (Z.le_gt_cases y (YearFromDay d)) as [H|H]; [exact H|].
  assert (DayFromYear (YearFromDay d + 1) <= DayFromYear y)
    by (apply DayFromYear_mono; lia).
  lia.
Qed.

Lemma YearFromDay_mono (d1 d2 : Z) : d1 <= d2 -> YearFromDay d1 <= YearFromDay d2.
Proof.
  intros H. apply YearFromDay_largest. destruct (YearFromDay_spec d1). lia.
Qed.

Lemma fourDigitYear_year (t : Z) : fourDigitYear t -> 0 <= YearFromTime t <= 9999.
Proof.
  unfold fourDigitYear, YearFromTime, Day, msPerDay. intros Ht.
  assert (Hd : -719528 <= t / 86400000 < 2932897) by (Z.div_mod_to_equations; lia).
  destruct (YearFromDay_spec (t / 86400000)) as [Hlo Hhi].
  split.
  - apply (YearFromDay_largest _ 0). change (DayFromYear 0) with (-719528). lia.
  - destruct (Z.le_gt_cases (YearFromDay (t / 86400000)) 9999) as [H|H]; [exact H|].
    assert (DayFromYear 10000 <= DayFromYear (YearFromDay (t / 86400000)))
      by (apply DayFromYear_mono; lia).
    change (DayFromYear 10000) with 2932897 in *. lia.
Qed.

Lemma DayWithinYear_range (t : Z) :
  0 <= DayWithinYear t < 365 + InLeapYear t.
Proof.
  unfold DayWithinYear, InLeapYear, YearFromTime.
  destruct (YearFromDay_spec (Day t)) as [Hlo Hhi].
  rewrite DayFromYear_succ in Hhi.
  assert (Hdays : DaysInYear (YearFromDay (Day t)) = 365
                  \/ DaysInYear (YearFromDay (Day t)) = 366).
  { unfold DaysInYear. repeat destruct (negb _); auto. }
  destruct Hdays as [E|E]; rewrite E in *; cbn [Z.eqb Pos.eqb]; lia.
Qed.

Lemma InLeapYear_range (t : Z) : InLeapYear t = 0 \/ InLeapYear t = 1.
Proof. unfold InLeapYear. destruct (_ =? _); auto. Qed.

Ltac month_cases :=
  unfold monthOf, dateOf, monthOf;
  repeat match goal with
         | |- context [?a <? ?b] => destruct (Z.ltb_spec a b)
         end.

Lemma month_date_range (leap day : Z) :
  (leap = 0 \/ leap = 1) -> 0 <= day < 365 + leap ->
  0 <= monthOf leap day <= 11 /\ 1 <= dateOf leap day <= 31.
Proof. intros Hl Hd. month_cases; lia. Qed.

(** Within one year, later days have a later (month, date). *)
Lemma month_date_lt (leap d1 d2 : Z) :
  (leap = 0 \/ leap = 1) -> 0 <= d1 -> d1 < d2 -> d2 < 365 + leap ->
  lex [monthOf leap d1 + 1; dateOf leap d1] [monthOf leap d2 + 1; dateOf leap d2] = Lt.
Proof.
  intros Hl H0 H12 H2. cbn [lex].
  assert (Hm : monthOf leap d1 < monthOf leap d2
               \/ (monthOf leap d1 = monthOf leap d2 /\ dateOf leap d1 < dateOf leap d2)).
  { month_cases; lia. }
  destruct Hm as [Hm|[Hm Hd]].
  - replace (monthOf leap d1 + 1 ?= monthOf leap d2 + 1) with Lt
      by (symmetry; apply Z.compare_lt_iff; lia).
    reflexivity.
  - rewrite Hm, Z.compare_refl.
    replace (dateOf leap d1 ?= dateOf leap d2) with Lt
      by (symmetry; apply Z.compare_lt_iff; lia).
    reflexivity.
Qed.

Lemma lex_app_lt (l1 l2 r1 r2 : list Z) :
  List.length l1 = List.length l2 ->
  lex l1 l2 = Lt -> lex (l1 ++ r1) (l2 ++ r2) = Lt.
Proof.
  revert l2. induction l1 as [|a l1 IH]; intros [|b l2] Hlen Hlex;
    try discriminate.
  cbn [lex app] in *. destruct (a ?= b); try congruence.
  apply IH; [simpl in Hlen; lia | exact Hlex].
Qed.

(** Within one day, later instants have a later time of day. *)
Lemma time_lt (t1 t2 : Z) :
  t1 < t2 -> Day t1 = Day t2 ->
  lex [HourFromTime t1; MinFromTime t1; SecFromTime t1; msFromTime t1]
      [HourFromTime t2; MinFromTime t2; SecFromTime t2; msFromTime t2] = Lt.
Proof.
  unfold Day, HourFromTime, MinFromTime, SecFromTime, msFromTime,
    msPerDay, msPerHour, msPerMinute, msPerSecond.
  intros Hlt Hday. cbn [lex].
  repeat match goal with
         | |- context [?a ?= ?b] => destruct (Z.compare_spec a b)
         end; try reflexivity; exfalso; Z.div_mod_to_equations; lia.
Qed.

(** Later instants have later fields. *)
Lemma fields_lt (t1 t2 : Z) : t1 < t2 -> lex (fields t1) (fields t2) = Lt.
Proof.
  intros Hlt. unfold fields.
  assert (Hday : Day t1 <= Day t2).
  { unfold Day, msPerDay. Z.div_mod_to_equations. lia. }
  destruct (Z.eq_dec (Day t1) (Day t2)) as [E|NE].
  - assert (EY : YearFromTime t1 = YearFromTime t2)
      by (unfold YearFromTime; rewrite E; reflexivity).
    assert (EL : InLeapYear t1 = InLeapYear t2)
      by (unfold InLeapYear; rewrite EY; reflexivity).
    assert (EW : DayWithinYear t1 = DayWithinYear t2)
      by (unfold DayWithinYear; rewrite EY, E; reflexivity).
    unfold MonthFromTime, DateFromTime. rewrite EY, EL, EW.
    cbn [lex]. rewrite !Z.compare_refl.
    apply (time_lt t1 t2 Hlt E).
  - assert (HY : YearFromTime t1 <= YearFromTime t2)
      by (apply YearFromDay_mono, Hday).
    destruct (Z.compare_spec (YearFromTime t1) (YearFromTime t2)) as [EY|LY|GY];
      [| |lia].
    + assert (EL : InLeapYear t1 = InLeapYear t2)
        by (unfold InLeapYear; rewrite EY; reflexivity).
      assert (HW : DayWithinYear t1 < DayWithinYear t2)
        by (unfold DayWithinYear; rewrite EY; lia).
      pose proof (DayWithinYear_range t1) as R1.
      pose proof (DayWithinYear_range t2) as R2.
      cbn [lex]. rewrite EY, Z.compare_refl.
      unfold MonthFromTime, DateFromTime. rewrite EL.
      change (lex ([monthOf (InLeapYear t2) (DayWithinYear t1) + 1;
                    dateOf (InLeapYear t2) (DayWithinYear t1)]
                   ++ [HourFromTime t1; MinFromTime t1; SecFromTime t1; msFromTime t1])
                  ([monthOf (InLeapYear t2) (DayWithinYear t2) + 1;
                    dateOf (InLeapYear t2) (DayWithinYear t2)]
                   ++ [HourFromTime t2; MinFromTime t2; SecFromTime t2; msFromTime t2])
              = Lt).
      apply lex_app_lt; [reflexivity|].
      apply month_date_lt; [apply InLeapYear_range | lia | exact HW | lia].
    + cbn [lex]. apply Z.compare_lt_iff in LY. rewrite LY. reflexivity.
Qed.

Lemma fields_range (t : Z) :
  fourDigitYear t ->
  0 <= YearFromTime t < 10000 /\ 0 <= MonthFromTime t + 1 < 100
  /\ 0 <= DateFromTime t < 100 /\ 0 <= HourFromTime t < 100
  /\ 0 <= MinFromTime t < 100 /\ 0 <= SecFromTime t < 100
  /\ 0 <= msFromTime t < 1000.
Proof.
  intros Ht. pose proof (fourDigitYear_year t Ht).
  pose proof (month_date_range (InLeapYear t) (DayWithinYear t)
                (InLeapYear_range t) (DayWithinYear_range t)) as [Hm Hd].
  fold (MonthFromTime t) in Hm. fold (DateFromTime t) in Hd.
  unfold HourFromTime, MinFromTime, SecFromTime, msFromTime,
    msPerHour, msPerMinute, msPerSecond.
  repeat split; try lia; Z.div_mod_to_equations; lia.
Qed.

(** *** Comparison of padded numbers *)

Lemma compare_digitChar (a b : Z) :
  0 <= a <= 9 -> 0 <= b <= 9 ->
  Ascii.compare (digitChar a) (digitChar b) = (a ?= b).
Proof.
  intros Ha Hb. unfold Ascii.compare, digitChar.
  rewrite (Z.mod_small a 10), (Z.mod_small b 10) by lia.
  rewrite !N_ascii_embedding by lia.
  destruct (Z.compare_spec a b); [apply N.compare_eq_iff|apply N.compare_lt_iff
                                 |apply N.compare_gt_iff]; lia.
Qed.

Lemma compare_div_mod (P a b : Z) :
  0 < P ->
  (a ?= b) = match a / P ?= b / P with
             | Eq => a mod P ?= b mod P
             | c => c
             end.
Proof.
  intros HP.
  pose proof (Z.div_mod a P ltac:(lia)) as Ea.
  pose proof (Z.div_mod b P ltac:(lia)) as Eb.
  pose proof (Z.mod_pos_bound a P HP) as Ra.
  pose proof (Z.mod_pos_bound b P HP) as Rb.
  destruct (Z.compare_spec (a / P) (b / P)) as [E|L|G].
  - rewrite E in Ea.
    destruct (Z.compare_spec (a mod P) (b mod P));
      [apply Z.compare_eq_iff|apply Z.compare_lt_iff|apply Z.compare_gt_iff]; lia.
  - apply Z.compare_lt_iff.
    assert (P * (a / P + 1) <= P * (b / P)) by (apply Z.mul_le_mono_nonneg_l; lia).
    lia.
  - apply Z.compare_gt_iff.
    assert (P * (b / P + 1) <= P * (a / P)) by (apply Z.mul_le_mono_nonneg_l; lia).
    lia.
Qed.

Lemma compare_cons (c : ascii) (x y : string) :
  String.compare (String c x) (String c y) = String.compare x y.
Proof.
  cbn [String.compare].
  replace (Ascii.compare c c) with Eq; [reflexivity|].
  symmetry. unfold Ascii.compare. apply N.compare_refl.
Qed.

(** Two strings that start with numbers padded to the same width compare
    as the numbers do, and as their remainders when the numbers agree. *)
Lemma compare_pad (w : nat) (a b : Z) (x y : string) :
  0 <= a < 10 ^ Z.of_nat w -> 0 <= b < 10 ^ Z.of_nat w ->
  String.compare (pad w a +:+ x) (pad w b +:+ y)
  = match a ?= b with
    | Eq => String.compare x y
    | c => c
    end.
Proof.
  revert a b. induction w as [|w IH]; intros a b Ha Hb.
  - change (10 ^ Z.of_nat 0) with 1 in *.
    replace a with 0 by lia. replace b with 0 by lia. reflexivity.
  - assert (HP : 0 < 10 ^ Z.of_nat w) by (apply Z.pow_pos_nonneg; lia).
    assert (E : 10 ^ Z.of_nat (S w) = 10 * 10 ^ Z.of_nat w)
      by (rewrite Nat2Z.inj_succ, Z.pow_succ_r by lia; reflexivity).
    rewrite E in Ha, Hb. cbn [pad]. rewrite !append_cons.
    set (P := 10 ^ Z.of_nat w) in *.
    assert (Da : 0 <= a / P <= 9).
    { split; [apply Z.div_pos; lia|].
      assert (a / P < 10) by (apply Z.div_lt_upper_bound; lia). lia. }
    assert (Db : 0 <= b / P <= 9).
    { split; [apply Z.div_pos; lia|].
      assert (b / P < 10) by (apply Z.div_lt_upper_bound; lia). lia. }
    cbn [String.compare]. rewrite (compare_digitChar _ _ Da Db).
    rewrite (compare_div_mod P a b HP).
    destruct (a / P ?= b / P); try reflexivity.
    apply IH; apply Z.mod_pos_bound; exact HP.
Qed.

Lemma isoOf_compare (t1 t2 : Z) :
  fourDigitYear t1 -> fourDigitYear t2 ->
  String.compare (isoOf t1) (isoOf t2) = lex (fields t1) (fields t2).
Proof.
  intros H1 H2.
  destruct (fields_range t1 H1) as (Y1 & M1 & D1 & h1 & m1 & s1 & ms1).
  destruct (fields_range t2 H2) as (Y2 & M2 & D2 & h2 & m2 & s2 & ms2).
  unfold isoOf, isoYear, fields.
  replace ((0 <=? YearFromTime t1) && (YearFromTime t1 <=? 9999)) with true
    by (symmetry; apply andb_true_iff; split; apply Z.leb_le; lia).
  replace ((0 <=? YearFromTime t2) && (YearFromTime t2 <=? 9999)) with true
    by (symmetry; apply andb_true_iff; split; apply Z.leb_le; lia).
  cbn [lex].
  rewrite (compare_pad 4) by (change (10 ^ Z.of_nat 4) with 10000; lia).
  destruct (YearFromTime t1 ?= YearFromTime t2); try reflexivity.
  rewrite compare_cons, (compare_pad 2) by (change (10 ^ Z.of_nat 2) with 100; lia).
  destruct (MonthFromTime t1 + 1 ?= MonthFromTime t2 + 1); try reflexivity.
  rewrite compare_cons, (compare_pad 2) by (change (10 ^ Z.of_nat 2) with 100; lia).
  destruct (DateFromTime t1 ?= DateFromTime t2); try reflexivity.
  rewrite compare_cons, (compare_pad 2) by (change (10 ^ Z.of_nat 2) with 100; lia).
  destruct (HourFromTime t1 ?= HourFromTime t2); try reflexivity.
  rewrite compare_cons, (compare_pad 2) by (change (10 ^ Z.of_nat 2) with 100; lia).
  destruct (MinFromTime t1 ?= MinFromTime t2); try reflexivity.
  rewrite compare_cons, (compare_pad 2) by (change (10 ^ Z.of_nat 2) with 100; lia).
  destruct (SecFromTime t1 ?= SecFromTime t2); try reflexivity.
  rewrite compare_cons, (compare_pad 3) by (change (10 ^ Z.of_nat 3) with 1000; lia).
  destruct (msFromTime t1 ?= msFromTime t2); reflexivity.
Qed.

(** Between the years 0 and 9999 the ISO strings of two instants compare
    as the instants do. *)
Lemma isoOf_order (t1 t2 : Z) :
  fourDigitYear t1 -> fourDigitYear t2 ->
  String.compare (isoOf t1) (isoOf t2) = (t1 ?= t2).
Proof.
  intros H1 H2. destruct (Z.compare_spec t1 t2) as [->|Hlt|Hgt].
  - assert (E : forall s, String.compare s s = Eq).
    { induction s as [|c s IH]; [reflexivity|]. rewrite compare_cons. exact IH. }
    apply E.
  - rewrite (isoOf_compare t1 t2 H1 H2). apply fields_lt, Hlt.
  - rewrite String.compare_antisym, (isoOf_compare t2 t1 H2 H1).
    rewrite (fields_lt t2 t1 Hgt). reflexivity.
Qed.

Lemma isoOf_ltb (t1 t2 : Z) :
  fourDigitYear t1 -> fourDigitYear t2 ->
  String.ltb (isoOf t1) (isoOf t2) = (t1 <? t2).
Proof.
  intros H1 H2. unfold String.ltb, Z.ltb. rewrite (isoOf_order t1 t2 H1 H2).
  reflexivity.
Qed.

Lemma isoOf_leb (t1 t2 : Z) :
  fourDigitYear t1 -> fourDigitYear t2 ->
  String.leb (isoOf t1) (isoOf t2) = (t1 <=? t2).
Proof.
  intros H1 H2. unfold String.leb, Z.leb. rewrite (isoOf_order t1 t2 H1 H2).
  reflexivity.
Qed.

End Dates.

(** ** Access keys *)

Section Keys.
Import Date keyHelpers keyService Vocabulary Samples.

Lemma Qfloor_add_Z (g : Z) (q : Q) : Qfloor (inject_Z g + q) = g + Qfloor q.
Proof.
  destruct q as [n d]. unfold Qfloor, Qplus, inject_Z. cbn [Qnum Qden].
  rewrite Z.mul_1_r, Pos.mul_1_l. apply Z.div_add_l. discriminate.
Qed.

Lemma Qle_bool_false (x y : Q) : Qle_bool x y = false <-> (y < x)%Q.
Proof.
  split.
  - intros H. apply Qnot_le_lt. intros Hle. apply Qle_bool_iff in Hle. congruence.
  - intros H. destruct (Qle_bool x y) eqn:E; [|reflexivity].
    apply Qle_bool_iff in E. apply Qlt_not_le in H. contradiction.
Qed.

(** On a host without daylight saving changes, adding [q > 0] to the
    hours of a date moves it forward by the whole hours of [q]. *)
Lemma setHours_add (LocalTZA now : Z) (q : Q) :
  (0 < q)%Q ->
  setHours LocalTZA (Some now) (add (getHours LocalTZA (Some now)) (Js.Fin q))
  = TimeClip (Some (now + Qfloor q * msPerHour)).
Proof.
  intros Hq. unfold setHours, getHours, add, MakeTime, MakeDate, LocalTime, UTC.
  cbv zeta. cbn [fmap option_fmap option_map]. f_equal. f_equal.
  set (t := now + LocalTZA).
  assert (Hg : 0 <= HourFromTime t).
  { unfold HourFromTime, msPerHour. Z.div_mod_to_equations. lia. }
  assert (Hsum : (0 <= inject_Z (HourFromTime t) + q)%Q).
  { apply Qle_trans with (inject_Z (HourFromTime t) + 0)%Q.
    - rewrite Qplus_0_r. change 0%Q with (inject_Z 0). rewrite <- Zle_Qle. exact Hg.
    - apply Qplus_le_r. apply Qlt_le_weak, Hq. }
  unfold truncate. apply Qle_bool_iff in Hsum. rewrite Hsum, Qfloor_add_Z.
  subst t. unfold Day, HourFromTime, MinFromTime, SecFromTime, msFromTime,
    msPerDay, msPerHour, msPerMinute, msPerSecond.
  Z.div_mod_to_equations. lia.
Qed.

(** What [getExpirationDate] computes for a positive finite number. *)
Lemma getExpirationDate_positive (LocalTZA now : Z) (q : Q) :
  (0 < q)%Q ->
  getExpirationDate LocalTZA now (VNumber (Js.Fin q))
  = toISOString (TimeClip (Some (now + Qfloor q * msPerHour))).
Proof.
  intros Hq. unfold getExpirationDate. cbv zeta. cbn [Js.le].
  replace (Qle_bool q (inject_Z 0)) with false
    by (symmetry; apply Qle_bool_false; exact Hq).
  rewrite setHours_add by exact Hq. reflexivity.
Qed.

(** [getExpirationDate] refuses whatever is not a number, and every number
    that is zero or negative. *)
Lemma getExpirationDate_rejects (LocalTZA now : Z) (hours : value) :
  hours <> VUndefined ->
  match hours with
  | VNumber (Js.Fin q) => (q <= 0)%Q
  | VNumber (Js.Infinity negative) => negative = true
  | VNumber Js.NaN => False
  | _ => True
  end ->
  getExpirationDate LocalTZA now hours = Throw (Error "Hours must be a positive number").
Proof.
  intros Hdef H. unfold getExpirationDate.
  destruct hours as [| |b|[|negative|q]|s|]; try reflexivity; try contradiction.
  - subst negative. reflexivity.
  - cbv zeta. cbn [Js.le]. apply Qle_bool_iff in H.
    change (inject_Z 0) with 0%Q. rewrite H. reflexivity.
Qed.

Lemma fourDigitYear_clip (t : Z) : fourDigitYear t -> TimeClip (Some t) = Some t.
Proof.
  unfold fourDigitYear, TimeClip. intros H.
  replace (8640000000000000 <? Z.abs t) with false; [reflexivity|].
  symmetry. apply Z.ltb_ge. lia.
Qed.

Lemma create_rejected (maxKeyHours LocalTZA now : Z) (freshId ownerId : string)
    (ttlHours : value) (store : gmap string Key) :
  acceptable maxKeyHours ttlHours = false ->
  create maxKeyHours LocalTZA now freshId ownerId ttlHours store
  = (inl InvalidParameter, store).
Proof. intros H. unfold create. rewrite H. reflexivity. Qed.

(** C1: [create] fails with InvalidParameter, and leaves the store as it
    was, for every [ttlHours] that is not a positive number within the
    maximum: in particular for every number that is zero or negative and
    for every number above MAX_KEY_HOURS.  The helper that computes the
    expiry refuses the non-positive numbers itself. *)
Theorem C1_create_rejects_out_of_range :
  (forall (maxKeyHours LocalTZA now : Z) (freshId ownerId : string)
          (ttlHours : value) (store : gmap string Key),
      ~ (exists q, ttlHours = VNumber (Js.Fin q)
                   /\ (0 < q)%Q /\ (q <= inject_Z maxKeyHours)%Q) ->
      create maxKeyHours LocalTZA now freshId ownerId ttlHours store
      = (inl InvalidParameter, store))
  /\ (forall (maxKeyHours LocalTZA now : Z) (freshId ownerId : string) (q : Q)
             (store : gmap string Key),
      (q <= 0)%Q \/ (inject_Z maxKeyHours < q)%Q ->
      create maxKeyHours LocalTZA now freshId ownerId (VNumber (Js.Fin q)) store
      = (inl InvalidParameter, store))
  /\ (forall (LocalTZA now : Z) (q : Q),
      (q <= 0)%Q ->
      getExpirationDate LocalTZA now (VNumber (Js.Fin q))
      = Throw (Error "Hours must be a positive number")).
Proof.
  assert (General : forall (maxKeyHours : Z) (ttlHours : value),
             ~ (exists q, ttlHours = VNumber (Js.Fin q)
                          /\ (0 < q)%Q /\ (q <= inject_Z maxKeyHours)%Q) ->
             acceptable maxKeyHours ttlHours = false).
  { intros maxKeyHours ttlHours Hnot.
    destruct ttlHours as [| |b|[|negative|q]|s|]; try reflexivity.
    cbn [acceptable].
    destruct (Qle_bool q 0) eqn:E0; [reflexivity|].
    destruct (Qle_bool q (inject_Z maxKeyHours)) eqn:E1; [|reflexivity].
    exfalso. apply Hnot. exists q. split; [reflexivity|]. split.
    - apply Qle_bool_false, E0.
    - apply Qle_bool_iff, E1. }
  split; [|split].
  - intros maxKeyHours LocalTZA now freshId ownerId ttlHours store Hnot.
    apply create_rejected, General, Hnot.
  - intros maxKeyHours LocalTZA now freshId ownerId q store Hq.
    apply create_rejected, General. intros (q' & E & Hpos & Hmax).
    injection E as <-. destruct Hq as [Hq|Hq].
    + apply (Qlt_not_le _ _ Hpos Hq).
    + apply (Qlt_not_le _ _ Hq Hmax).
  - intros LocalTZA now q Hq.
    apply (getExpirationDate_rejects LocalTZA now (VNumber (Js.Fin q)));
      [discriminate | exact Hq].
Qed.

(** An instance of C1: zero hours, and one hour above a maximum of 720. *)
Lemma C1_create_rejects_out_of_range_witness :
  create 720 0 1730505600000 "k-2" "owner" (VNumber (Js.Fin 0)) ∅
  = (inl InvalidParameter, ∅)
  /\ create 720 0 1730505600000 "k-2" "owner" (VNumber (Js.Fin 721)) ∅
     = (inl InvalidParameter, ∅)
  /\ create 720 0 1730505600000 "k-2" "owner" (VString "12") ∅
     = (inl InvalidParameter, ∅).
Proof.
  destruct C1_create_rejects_out_of_range as (Hany & Hnum & _).
  split; [|split].
  - apply Hnum. left. discriminate.
  - apply Hnum. right. reflexivity.
  - apply Hany. intros (q & E & _). discriminate E.
Defined.

(** C2: a stored key whose status is revoked and whose expiry is at or
    before the clock reading validates as Revoked, not as Expired; the
    helper [isKeyValid] does not call it valid either. *)
Theorem C2_revoked_before_expired
    (now : Z) (id : string) (store : gmap string Key) (key : Key) :
  store !! id = Some key ->
  status key = "revoked" ->
  String.leb (expires_at key) (isoOf now) = true ->
  validate now id store = Revoked
  /\ validate now id store <> keyService.Expired
  /\ isKeyValid now (Some key) = false.
Proof.
  intros Hget Hst _. unfold validate, isKeyValid. rewrite Hget, Hst.
  split; [reflexivity|]. split; [discriminate | reflexivity].
Qed.

(** An instance of C2: the revoked sample key, a year after its expiry. *)
Lemma C2_revoked_before_expired_witness :
  validate 1735689600000 "k-1" {[ "k-1" := revokedKey ]} = Revoked.
Proof.
  apply (C2_revoked_before_expired 1735689600000 "k-1" {[ "k-1" := revokedKey ]}
           revokedKey).
  - vm_compute. reflexivity.
  - reflexivity.
  - vm_compute. reflexivity.
Defined.

Lemma isKeyValid_iff (now : Z) (key : Key) (e : Z) :
  fourDigitYear now -> fourDigitYear e -> expires_at key = isoOf e ->
  isKeyValid now (Some key) = true <-> status key = "active" /\ now < e.
Proof.
  intros Hnow He Hexp. unfold isKeyValid. cbv zeta.
  rewrite Hexp, (isoOf_ltb now e Hnow He), andb_true_iff, String.eqb_eq, Z.ltb_lt.
  reflexivity.
Qed.

Lemma validate_iff (now : Z) (id : string) (store : gmap string Key) (key : Key) (e : Z) :
  store !! id = Some key ->
  status key = "active" \/ status key = "revoked" ->
  fourDigitYear now -> fourDigitYear e -> expires_at key = isoOf e ->
  validate now id store = Valid <-> status key = "active" /\ now < e.
Proof.
  intros Hget Hst Hnow He Hexp. unfold validate.
  rewrite Hget, Hexp, (isoOf_leb e now He Hnow).
  destruct Hst as [Hst|Hst]; rewrite Hst; cbn [String.eqb Ascii.eqb Bool.eqb].
  - destruct (Z.leb_spec e now) as [Hle|Hlt]; split.
    + discriminate.
    + intros [_ H']. lia.
    + intros _. split; [reflexivity | exact Hlt].
    + reflexivity.
  - split; [discriminate | intros [H' _]; discriminate H'].
Qed.

Lemma create_accepted (maxKeyHours LocalTZA now : Z) (freshId ownerId : string)
    (q : Q) (store : gmap string Key) :
  (0 < q)%Q -> (q <= inject_Z maxKeyHours)%Q ->
  fourDigitYear (now + Qfloor q * msPerHour) ->
  create maxKeyHours LocalTZA now freshId ownerId (VNumber (Js.Fin q)) store
  = (inr (mkKey freshId ownerId "active" (isoOf now)
            (isoOf (now + Qfloor q * msPerHour))),
     <[freshId := mkKey freshId ownerId "active" (isoOf now)
                    (isoOf (now + Qfloor q * msPerHour))]> store).
Proof.
  intros Hpos Hmax He. unfold create. cbn [acceptable].
  replace (Qle_bool q 0) with false by (symmetry; apply Qle_bool_false; exact Hpos).
  replace (Qle_bool q (inject_Z maxKeyHours)) with true
    by (symmetry; apply Qle_bool_iff; exact Hmax).
  cbn [negb andb].
  rewrite (getExpirationDate_positive LocalTZA now q Hpos), (fourDigitYear_clip _ He).
  reflexivity.
Qed.

(** C4: a key validates as valid exactly when its status is active and
    its expiry is later than the clock reading, for the helper
    [isKeyValid] and for [validate] alike; and for every [ttlHours] from 1
    to MAX_KEY_HOURS the expiry that [getExpirationDate] computes makes an
    active key valid right after its creation, so that [create] followed
    by [validate] gives Valid.  The timestamps are compared as the ISO
    strings they are stored as, which agrees with the order of the instants
    while the years have four digits. *)
Theorem C4_valid_iff_active_and_unexpired :
  (forall (now : Z) (key : Key) (e : Z),
      fourDigitYear now -> fourDigitYear e -> expires_at key = isoOf e ->
      isKeyValid now (Some key) = true <-> status key = "active" /\ now < e)
  /\ (forall (now : Z) (id : string) (store : gmap string Key) (key : Key) (e : Z),
      store !! id = Some key ->
      status key = "active" \/ status key = "revoked" ->
      fourDigitYear now -> fourDigitYear e -> expires_at key = isoOf e ->
      validate now id store = Valid <-> status key = "active" /\ now < e)
  /\ (forall (maxKeyHours LocalTZA now now' : Z) (q : Q) (key : Key),
      (1 <= q)%Q -> (q <= inject_Z maxKeyHours)%Q ->
      fourDigitYear now -> fourDigitYear (now + maxKeyHours * msPerHour) ->
      now <= now' < now + msPerHour ->
      status key = "active" ->
      getExpirationDate LocalTZA now (VNumber (Js.Fin q)) = Return (expires_at key) ->
      isKeyValid now' (Some key) = true)
  /\ (forall (maxKeyHours LocalTZA now now' : Z) (freshId ownerId : string) (q : Q)
             (store : gmap string Key),
      (1 <= q)%Q -> (q <= inject_Z maxKeyHours)%Q ->
      fourDigitYear now -> fourDigitYear (now + maxKeyHours * msPerHour) ->
      now <= now' < now + msPerHour ->
      exists key,
        create maxKeyHours LocalTZA now freshId ownerId (VNumber (Js.Fin q)) store
        = (inr key, <[freshId := key]> store)
        /\ validate now' freshId (<[freshId := key]> store) = Valid
        /\ isKeyValid now' (Some key) = true).
Proof.
  assert (Window : forall (maxKeyHours now now' : Z) (q : Q),
             (1 <= q)%Q -> (q <= inject_Z maxKeyHours)%Q ->
             fourDigitYear now -> fourDigitYear (now + maxKeyHours * msPerHour) ->
             now <= now' < now + msPerHour ->
             (0 < q)%Q /\ fourDigitYear (now + Qfloor q * msPerHour)
             /\ fourDigitYear now' /\ now' < now + Qfloor q * msPerHour).
  { intros maxKeyHours now now' q Hone Hmax Hnow Hlimit Hsoon.
    assert (Hf1 : 1 <= Qfloor q).
    { change 1 with (Qfloor 1). apply Qfloor_resp_le, Hone. }
    assert (Hfm : Qfloor q <= maxKeyHours).
    { rewrite <- (Qfloor_Z maxKeyHours). apply Qfloor_resp_le, Hmax. }
    split; [apply Qlt_le_trans with 1%Q; [reflexivity | exact Hone]|].
    unfold fourDigitYear, msPerHour in *. lia. }
  split; [exact isKeyValid_iff|]. split; [exact validate_iff|]. split.
  - intros maxKeyHours LocalTZA now now' q key Hone Hmax Hnow Hlimit Hsoon Hst Hexp.
    destruct (Window maxKeyHours now now' q Hone Hmax Hnow Hlimit Hsoon)
      as (Hpos & He & Hnow' & Hlt).
    rewrite (getExpirationDate_positive LocalTZA now q Hpos),
      (fourDigitYear_clip _ He) in Hexp.
    injection Hexp as Hexp.
    apply (isKeyValid_iff now' key (now + Qfloor q * msPerHour) Hnow' He);
      [symmetry; exact Hexp | split; [exact Hst | exact Hlt]].
  - intros maxKeyHours LocalTZA now now' freshId ownerId q store
      Hone Hmax Hnow Hlimit Hsoon.
    destruct (Window maxKeyHours now now' q Hone Hmax Hnow Hlimit Hsoon)
      as (Hpos & He & Hnow' & Hlt).
    set (e := now + Qfloor q * msPerHour) in *.
    exists (mkKey freshId ownerId "active" (isoOf now) (isoOf e)).
    split; [apply create_accepted; assumption|]. split.
    + apply (validate_iff now' freshId _
               (mkKey freshId ownerId "active" (isoOf now) (isoOf e)) e);
        try assumption.
      * apply lookup_insert_eq.
      * left. reflexivity.
      * reflexivity.
      * split; [reflexivity | exact Hlt].
    + apply (isKeyValid_iff now' (mkKey freshId ownerId "active" (isoOf now) (isoOf e)) e);
        try assumption; [reflexivity|].
      split; [reflexivity | exact Hlt].
Qed.

(** An instance of C4: a key of one and a half hours, validated half an
    hour after its creation. *)
Lemma C4_valid_iff_active_and_unexpired_witness :
  exists key,
    create 720 (-10800000) 1730505600000 "k-3" "owner" (VNumber (Js.Fin (3 # 2))) ∅
    = (inr key, {[ "k-3" := key ]})
    /\ validate 1730507400000 "k-3" {[ "k-3" := key ]} = Valid
    /\ isKeyValid 1730507400000 (Some key) = true.
Proof.
  destruct C4_valid_iff_active_and_unexpired as (_ & _ & _ & Hcreate).
  apply (Hcreate 720 (-10800000) 1730505600000 1730507400000 "k-3" "owner" (3 # 2) ∅).
  - discriminate.
  - discriminate.
  - unfold fourDigitYear. lia.
  - unfold fourDigitYear, msPerHour. lia.
  - unfold msPerHour. lia.
Defined.

End Keys.

(** ** Classification of addresses *)

Section Classification.
Import keyUtils Vocabulary.

Lemma codeUnits_all (c : ascii) : In c codeUnits.
Proof.
  unfold codeUnits. rewrite <- (ascii_nat_embedding c).
  apply List.in_map, List.in_seq. pose proof (nat_ascii_bounded c). lia.
Qed.

(** A character that passes a test is one of those the test lets pass. *)
Lemma class_enum (p : ascii -> bool) (c : ascii) :
  p c = true -> In c (List.filter p codeUnits).
Proof. intros H. apply List.filter_In. split; [apply codeUnits_all | exact H]. Qed.

Lemma existsb_eqb_In (a : string) (l : list string) :
  List.existsb (String.eqb a) l = true -> In a l.
Proof.
  intros H. apply List.existsb_exists in H as (x & Hin & Heq).
  apply String.eqb_eq in Heq. subst. exact Hin.
Qed.

Lemma matches_class_inv (p : ascii -> bool) (s : string) :
  RegExp.matches (RegExp.Class p) s ->
  exists c, s = String c EmptyString /\ In c (List.filter p codeUnits).
Proof. intros H. inversion H; subst. eexists. split; [reflexivity | apply class_enum; assumption]. Qed.

Lemma matches_cat_inv (a b : RegExp.re) (s : string) :
  RegExp.matches (RegExp.Cat a b) s ->
  exists s1 s2, s = s1 +:+ s2 /\ RegExp.matches a s1 /\ RegExp.matches b s2.
Proof. intros H. inversion H; subst. eauto. Qed.

Lemma matches_alt_inv (a b : RegExp.re) (s : string) :
  RegExp.matches (RegExp.Alt a b) s -> RegExp.matches a s \/ RegExp.matches b s.
Proof. intros H. inversion H; subst; auto. Qed.

Ltac invert_matches :=
  repeat match goal with
         | H : RegExp.matches (RegExp.Alt _ _) _ |- _ =>
             apply matches_alt_inv in H; destruct H as [H|H]
         | H : RegExp.matches (RegExp.Cat _ _) _ |- _ =>
             apply matches_cat_inv in H;
             let s1 := fresh "s" in
             let s2 := fresh "s" in
             let E := fresh "E" in
             let H1 := fresh "H" in
             destruct H as (s1 & s2 & E & H1 & H); subst
         | H : RegExp.matches (RegExp.Class _) _ |- _ =>
             apply matches_class_inv in H;
             let c := fresh "c" in
             let E := fresh "E" in
             destruct H as (c & E & H); subst;
             vm_compute in H;
             repeat (destruct H as [H|H]; [subst|]); try destruct H
         end.

(** The segments of a dotted address are the texts of 0 to 255. *)
Lemma v4Seg_texts (a : string) : RegExp.matches net.v4Seg a -> In a octetTexts.
Proof.
  unfold net.v4Seg, net.digit, RegExp.chr, RegExp.range, RegExp.alts, RegExp.cats.
  intros H. invert_matches; apply existsb_eqb_In; vm_compute; reflexivity.
Qed.

Lemma octetTexts_facts : Forall segmentFacts octetTexts.
Proof.
  let l := eval vm_compute in octetTexts in change octetTexts with l.
  repeat (constructor; [repeat split; try (intros r); vm_compute; reflexivity|]).
  constructor.
Qed.

Lemma v4Seg_facts (a : string) : RegExp.matches net.v4Seg a -> segmentFacts a.
Proof.
  intros H. apply v4Seg_texts in H.
  exact (proj1 (List.Forall_forall _ _) octetTexts_facts a H).
Qed.

(** A valid dotted address is four segments with dots between them. *)
Lemma isIPv4_shape (ip : string) :
  net.isIPv4 ip = true ->
  exists a b c d,
    ip = a +:+ String "." (b +:+ String "." (c +:+ String "." d))
    /\ segmentFacts a /\ segmentFacts b /\ segmentFacts c /\ segmentFacts d.
Proof.
  unfold net.isIPv4. intros H. apply test_matches in H.
  unfold net.IPv4Reg, net.v4Str in H. cbn [RegExp.times] in H.
  apply matches_cat_inv in H as (s1 & d & -> & H & Hd).
  apply matches_cat_inv in H as (sa & s2 & -> & Ha & H).
  apply matches_cat_inv in H as (sb & s3 & -> & Hb & H).
  apply matches_cat_inv in H as (sc & s4 & -> & Hc & H).
  apply matches_eps_inv in H. subst s4.
  apply matches_cat_inv in Ha as (a & da & -> & Ha & Hda).
  apply matches_cat_inv in Hb as (b & db & -> & Hb & Hdb).
  apply matches_cat_inv in Hc as (c & dc & -> & Hc & Hdc).
  unfold RegExp.chr in *.
  apply matches_class_inv in Hda as (ca & -> & Hda).
  apply matches_class_inv in Hdb as (cb & -> & Hdb).
  apply matches_class_inv in Hdc as (cc & -> & Hdc).
  vm_compute in Hda, Hdb, Hdc.
  destruct Hda as [<-|[]], Hdb as [<-|[]], Hdc as [<-|[]].
  exists a, b, c, d. split.
  - rewrite append_empty_r, <- !append_assoc_string. reflexivity.
  - split; [|split; [|split]]; apply v4Seg_facts; assumption.
Qed.

Lemma prefix_nil (s : string) : String.prefix EmptyString s = true.
Proof. destruct s; reflexivity. Qed.

Lemma prefix_cons (c d : ascii) (p s : string) :
  String.prefix (String c p) (String d s) = Ascii.eqb d c && String.prefix p s.
Proof.
  cbn [String.prefix]. destruct (ascii_dec c d) as [->|Hne].
  - rewrite Ascii.eqb_refl. reflexivity.
  - replace (Ascii.eqb d c) with false; [reflexivity|].
    symmetry. apply Ascii.eqb_neq. congruence.
Qed.

(** Comparing up to the first dot compares the first segments. *)
Lemma prefix_segment (p a q r : string) :
  occurs "." p = false -> occurs "." a = false ->
  String.prefix (p +:+ String "." q) (a +:+ String "." r)
  = String.eqb a p && String.prefix q r.
Proof.
  revert a. induction p as [|e p IH]; intros [|c a] Hp Ha;
    cbn [occurs] in Hp, Ha; rewrite ?append_cons;
    change (EmptyString +:+ String "." q) with (String "." q);
    change (EmptyString +:+ String "." r) with (String "." r);
    rewrite prefix_cons.
  - reflexivity.
  - apply orb_false_iff in Ha as [Hc _]. rewrite Hc. reflexivity.
  - apply orb_false_iff in Hp as [He _]. rewrite Ascii.eqb_sym, He. reflexivity.
  - apply orb_false_iff in Hp as [_ Hp]. apply orb_false_iff in Ha as [_ Ha].
    rewrite (IH a Hp Ha). cbn [String.eqb]. apply andb_assoc.
Qed.

Lemma split_segment (a r : string) :
  occurs "." a = false ->
  Js.split "." (a +:+ String "." r) = a :: Js.split "." r.
Proof.
  induction a as [|c a IH]; intros Ha.
  - reflexivity.
  - cbn [occurs] in Ha. apply orb_false_iff in Ha as [Hc Ha].
    rewrite append_cons. cbn [Js.split]. rewrite Hc, (IH Ha). reflexivity.
Qed.

Lemma split_last (d : string) : occurs "." d = false -> Js.split "." d = [d].
Proof.
  induction d as [|c d IH]; intros Hd; [reflexivity|].
  cbn [occurs] in Hd. apply orb_false_iff in Hd as [Hc Hd].
  cbn [Js.split]. rewrite Hc, (IH Hd). reflexivity.
Qed.

(** On the dotted addresses the classification is the listed one: the
    loopback text 127.0.0.1 and the four listed ranges, and nothing else. *)
Theorem isPrivate_exact_on_IPv4 (ip : string) :
  net.isIPv4 ip = true -> ClientIp.isPrivate ip = listedPrivate ip.
Proof.
  intros Hv4.
  destruct (isIPv4_shape ip Hv4) as (a & b & c & d & E & Fa & Fb & Fc & Fd).
  destruct Fa as (Da & A172 & A16 & A31 & A169 & A254 & A10 & A192 & A168
                  & At & Afc & Afd & Afe).
  destruct Fb as (Db & B172 & B16 & B31 & B169 & B254 & B10 & B192 & B168 & _).
  destruct Fc as (Dc & _). destruct Fd as (Dd & _).
  unfold ClientIp.isPrivate, listedPrivate. rewrite Hv4.
  destruct (String.eqb ip "127.0.0.1" || String.eqb ip "::1"); cbn [orb].
  - destruct (negb (Js.truthy ip)); reflexivity.
  - assert (Hsplit : Js.split "." ip = [a; b; c; d]).
    { rewrite E, !split_segment, split_last by assumption. reflexivity. }
    assert (H10 : Js.startsWith ip "10." = (Js.decimalValue a =? 10)).
    { unfold Js.startsWith. rewrite E.
      change "10." with ("10" +:+ String "." EmptyString).
      rewrite prefix_segment, prefix_nil, andb_true_r by (reflexivity || assumption).
      exact A10. }
    assert (H192 : Js.startsWith ip "192.168."
                   = (Js.decimalValue a =? 192) && (Js.decimalValue b =? 168)).
    { unfold Js.startsWith. rewrite E.
      change "192.168." with ("192" +:+ String "." ("168" +:+ String "." EmptyString)).
      rewrite !prefix_segment, prefix_nil, andb_true_r by (reflexivity || assumption).
      rewrite A192, B168. reflexivity. }
    unfold octetsOf. rewrite H10, H192, Hsplit. cbv zeta.
    rewrite E, At, Afc, Afd, Afe.
    cbn [negb List.map List.length Nat.eqb ClientIp.at_ andb orb].
    change (ClientIp.at_ [Js.Number a; Js.Number b; Js.Number c; Js.Number d] 0)
      with (Js.Number a).
    change (ClientIp.at_ [Js.Number a; Js.Number b; Js.Number c; Js.Number d] 1)
      with (Js.Number b).
    rewrite A172, B16, B31, A169, B254.
    destruct (Js.decimalValue a =? 10), (Js.decimalValue a =? 192),
      (Js.decimalValue b =? 168), (Js.decimalValue a =? 172),
      (16 <=? Js.decimalValue b), (Js.decimalValue b <=? 31),
      (Js.decimalValue a =? 169), (Js.decimalValue b =? 254); reflexivity.
Qed.

(** *** Addresses with colons *)

Lemma occurs_append (c : ascii) (s t : string) :
  occurs c (s +:+ t) = occurs c s || occurs c t.
Proof.
  induction s as [|d s IH]; [reflexivity|].
  rewrite append_cons. cbn [occurs]. rewrite IH. apply orb_assoc.
Qed.

Lemma matches_avoids (c : ascii) (r : RegExp.re) (s : string) :
  RegExp.avoids c r = true -> RegExp.matches r s -> occurs c s = false.
Proof.
  intros Hav H. induction H as [|p d Hp|a b s t Ha IHa Hb IHb|a b s Ha IHa|a b s Hb IHb|
                                |a s t Ha IHa Ht IHt]; cbn [RegExp.avoids] in Hav;
    try reflexivity.
  - cbn [occurs]. rewrite orb_false_r. apply negb_true_iff in Hav.
    destruct (Ascii.eqb d c) eqn:E; [|reflexivity].
    apply Ascii.eqb_eq in E. subst. congruence.
  - apply andb_true_iff in Hav as [H1 H2]. rewrite occurs_append, IHa, IHb; auto.
  - apply andb_true_iff in Hav as [H1 H2]. auto.
  - apply andb_true_iff in Hav as [H1 H2]. auto.
  - rewrite occurs_append, IHa, IHt; auto.
Qed.

Lemma occurs_trimStart (c : ascii) (s : string) :
  Js.isWhiteSpace c = false -> occurs c s = true -> occurs c (Js.trimStart s) = true.
Proof.
  intros Hc. induction s as [|d s IH]; intros H; [discriminate|].
  cbn [Js.trimStart]. destruct (Js.isWhiteSpace d) eqn:Hd; [|exact H].
  cbn [occurs] in H. destruct (Ascii.eqb d c) eqn:E.
  - apply Ascii.eqb_eq in E. subst. congruence.
  - apply IH, H.
Qed.

Lemma occurs_trimEnd (c : ascii) (s : string) :
  Js.isWhiteSpace c = false -> occurs c s = true -> occurs c (Js.trimEnd s) = true.
Proof.
  intros Hc. induction s as [|d s IH]; intros H; [discriminate|].
  cbn [Js.trimEnd]. cbn [occurs] in H. destruct (Ascii.eqb d c) eqn:E.
  - apply Ascii.eqb_eq in E. subst d.
    destruct (Js.trimEnd s); [rewrite Hc|]; cbn [occurs]; rewrite Ascii.eqb_refl; reflexivity.
  - cbn [orb] in H. specialize (IH H).
    destruct (Js.trimEnd s) as [|e u]; [discriminate|].
    cbn [occurs] in *. rewrite E. exact IH.
Qed.

Lemma occurs_colon_cons (d : ascii) (s : string) :
  occurs ":" (String d s) = true -> d <> ":"%char -> occurs ":" s = true.
Proof.
  cbn [occurs]. intros H Hd. destruct (Ascii.eqb d ":") eqn:E; [|exact H].
  apply Ascii.eqb_eq in E. contradiction.
Qed.

Lemma digitsAcc_colon (radix acc : Z) (s : string) :
  occurs ":" s = true -> Js.digitsAcc radix acc s = None.
Proof.
  revert acc. induction s as [|d s IH]; intros acc H; [discriminate|].
  cbn [Js.digitsAcc]. destruct (Ascii.eqb d ":") eqn:E.
  - apply Ascii.eqb_eq in E. subst. reflexivity.
  - cbn [occurs] in H. rewrite E in H.
    destruct (Js.digitValue d); [|reflexivity].
    destruct (_ <? _); [apply IH, H | reflexivity].
Qed.

Lemma digits_colon (radix : Z) (s : string) :
  occurs ":" s = true -> Js.digits radix s = None.
Proof.
  intros H. destruct s; [discriminate|]. unfold Js.digits. apply digitsAcc_colon, H.
Qed.

Lemma spanDigits_colon (s : string) :
  occurs ":" s = true -> occurs ":" (Js.spanDigits s).2 = true.
Proof.
  induction s as [|d s IH]; intros H; [discriminate|].
  cbn [Js.spanDigits]. destruct (Js.isDigit d) eqn:Hd; [|exact H].
  destruct (Js.spanDigits s) as [x r]. cbn [snd] in *. apply IH.
  apply (occurs_colon_cons d s H). intros ->. discriminate Hd.
Qed.

Lemma exponent_colon (s : string) : occurs ":" s = true -> Js.exponent s = None.
Proof.
  intros H. destruct s as [|c s]; [discriminate|]. cbn [Js.exponent].
  destruct (Ascii.eqb c "e" || Ascii.eqb c "E") eqn:Ec; [|reflexivity].
  assert (Hs : occurs ":" s = true).
  { apply (occurs_colon_cons c s H). intros ->. discriminate Ec. }
  destruct s as [|d t]; [reflexivity|].
  destruct (Ascii.eqb d "+") eqn:Ep.
  - apply digits_colon, (occurs_colon_cons d t Hs). intros ->. discriminate Ep.
  - destruct (Ascii.eqb d "-") eqn:Em.
    + rewrite digits_colon; [reflexivity|].
      apply (occurs_colon_cons d t Hs). intros ->. discriminate Em.
    + apply digits_colon, Hs.
Qed.

Lemma strDecimalLiteral_colon (negative : bool) (s : string) :
  occurs ":" s = true -> Js.strDecimalLiteral negative s = Js.NaN.
Proof.
  intros H. unfold Js.strDecimalLiteral.
  destruct (String.eqb s "Infinity") eqn:E.
  - apply String.eqb_eq in E. subst. discriminate H.
  - unfold Js.unsignedDecimal.
    pose proof (spanDigits_colon s H) as Hr.
    destruct (Js.spanDigits s) as [int r]. cbn [snd] in Hr.
    assert (Hr' : forall frac r',
               match r with
               | String c t =>
                   if Ascii.eqb c "." then Js.spanDigits t else (EmptyString, r)
               | EmptyString => (EmptyString, r)
               end = (frac, r') -> occurs ":" r' = true).
    { intros frac r' Er. destruct r as [|c t]; [discriminate|].
      destruct (Ascii.eqb c ".") eqn:Ed.
      - apply Ascii.eqb_eq in Ed. subst c.
        pose proof (spanDigits_colon t (occurs_colon_cons _ _ Hr ltac:(discriminate))) as Ht.
        rewrite Er in Ht. exact Ht.
      - injection Er as _ <-. exact Hr. }
    destruct (match r with
              | String c t =>
                  if Ascii.eqb c "." then Js.spanDigits t else (EmptyString, r)
              | EmptyString => (EmptyString, r)
              end) as [frac r'] eqn:Er.
    rewrite (exponent_colon r' (Hr' frac r' eq_refl)).
    destruct int, frac; reflexivity.
Qed.

(** Text with a colon in it is no number. *)
Lemma Number_colon (s : string) : occurs ":" s = true -> Js.Number s = Js.NaN.
Proof.
  intros H. unfold Js.Number.
  assert (Ht : occurs ":" (Js.trim s) = true).
  { unfold Js.trim. apply occurs_trimEnd; [reflexivity|].
    apply occurs_trimStart; [reflexivity | exact H]. }
  destruct (Js.trim s) as [|c t]; [discriminate|].
  destruct (Ascii.eqb c "+") eqn:Ep.
  { apply strDecimalLiteral_colon, (occurs_colon_cons c t Ht). intros ->. discriminate. }
  destruct (Ascii.eqb c "-") eqn:Em.
  { apply strDecimalLiteral_colon, (occurs_colon_cons c t Ht). intros ->. discriminate. }
  destruct t as [|d t']; [apply strDecimalLiteral_colon, Ht|].
  destruct (Ascii.eqb c "0") eqn:E0; cbn [andb];
    [|apply strDecimalLiteral_colon, Ht].
  assert (Ht' : forall x, Ascii.eqb d x = true -> x <> ":"%char -> occurs ":" t' = true).
  { intros x Ex Hx. apply Ascii.eqb_eq in Ex. subst x.
    apply (occurs_colon_cons d t'); [|exact Hx].
    apply (occurs_colon_cons c _ Ht). intros ->. discriminate. }
  unfold Js.nonDecimal.
  destruct (Ascii.eqb d "x") eqn:E1;
    [rewrite (digits_colon 16 t' (Ht' "x"%char E1 ltac:(discriminate))); reflexivity|].
  destruct (Ascii.eqb d "X") eqn:E2;
    [rewrite (digits_colon 16 t' (Ht' "X"%char E2 ltac:(discriminate))); reflexivity|].
  destruct (Ascii.eqb d "o") eqn:E3;
    [rewrite (digits_colon 8 t' (Ht' "o"%char E3 ltac:(discriminate))); reflexivity|].
  destruct (Ascii.eqb d "O") eqn:E4;
    [rewrite (digits_colon 8 t' (Ht' "O"%char E4 ltac:(discriminate))); reflexivity|].
  destruct (Ascii.eqb d "b") eqn:E5;
    [rewrite (digits_colon 2 t' (Ht' "b"%char E5 ltac:(discriminate))); reflexivity|].
  destruct (Ascii.eqb d "B") eqn:E6;
    [rewrite (digits_colon 2 t' (Ht' "B"%char E6 ltac:(discriminate))); reflexivity|].
  cbn [orb]. apply strDecimalLiteral_colon, Ht.
Qed.

Lemma matches_colon (s : string) : RegExp.matches net.colon s -> s = ":".
Proof.
  unfold net.colon, RegExp.chr. intros H.
  apply matches_class_inv in H as (c & -> & H). vm_compute in H.
  destruct H as [<-|[]]. reflexivity.
Qed.

Lemma matches_seg_colon (s : string) :
  RegExp.matches net.seg_colon s ->
  exists h, s = h +:+ ":" /\ occurs "." h = false.
Proof.
  unfold net.seg_colon. intros H.
  apply matches_cat_inv in H as (h & c & -> & Hh & Hc).
  apply matches_colon in Hc. subst c. exists h. split; [reflexivity|].
  apply (matches_avoids "." net.v6Seg h); [reflexivity | exact Hh].
Qed.

Lemma headed_append (s t : string) : headed s -> headed (s +:+ t).
Proof.
  intros (h & rest & -> & Hh). exists h, (rest +:+ t). split; [|exact Hh].
  rewrite <- append_assoc_string. reflexivity.
Qed.

Lemma headed_segments (k : nat) (r : RegExp.re) (s : string) :
  RegExp.matches (RegExp.Cat (RegExp.times (S k) net.seg_colon) r) s -> headed s.
Proof.
  intros H. apply matches_cat_inv in H as (s1 & s2 & -> & H & _).
  apply headed_append. cbn [RegExp.times] in H.
  apply matches_cat_inv in H as (y & y' & -> & Hy & _).
  apply headed_append. apply matches_seg_colon in Hy as (h & -> & Hh).
  exists h, EmptyString. split; [reflexivity | exact Hh].
Qed.

(** A valid address with colons starts with at most one group of digits,
    none of them a dot, and a colon. *)
Lemma isIPv6_headed (ip : string) : net.isIPv6 ip = true -> headed ip.
Proof.
  unfold net.isIPv6. intros H. apply test_matches in H. unfold net.IPv6Reg in H.
  apply matches_cat_inv in H as (x & z & -> & H & _). apply headed_append.
  cbn [RegExp.alts] in H.
  repeat (apply matches_alt_inv in H as [H|H]; [exact (headed_segments _ _ _ H)|]).
  apply matches_cat_inv in H as (c & x' & -> & Hc & _).
  apply matches_colon in Hc. subst c.
  exists EmptyString, x'. split; reflexivity.
Qed.

Lemma prefix_headed (p q h rest : string) :
  occurs ":" p = false -> occurs "." h = false ->
  String.prefix (p +:+ String "." q) (h +:+ String ":" rest) = false.
Proof.
  revert h. induction p as [|e p IH]; intros [|c h] Hp Hh;
    cbn [occurs] in Hp, Hh; rewrite ?append_cons;
    change (EmptyString +:+ String "." q) with (String "." q);
    change (EmptyString +:+ String ":" rest) with (String ":" rest);
    rewrite prefix_cons.
  - reflexivity.
  - apply orb_false_iff in Hh as [Hc _]. rewrite Hc. reflexivity.
  - apply orb_false_iff in Hp as [He _]. rewrite Ascii.eqb_sym, He. reflexivity.
  - apply orb_false_iff in Hp as [_ Hp]. apply orb_false_iff in Hh as [_ Hh].
    rewrite (IH h Hp Hh). apply andb_false_r.
Qed.

Lemma split_headed (h rest : string) :
  occurs "." h = false ->
  exists p0 tl, Js.split "." (h +:+ String ":" rest) = p0 :: tl /\ occurs ":" p0 = true.
Proof.
  induction h as [|c h IH]; intros Hh.
  - change (EmptyString +:+ String ":" rest) with (String ":" rest).
    cbn [Js.split]. change (Ascii.eqb ":" ".") with false. cbv iota.
    destruct (Js.split "." rest) as [|x xs]; eexists; eexists; split; reflexivity.
  - cbn [occurs] in Hh. apply orb_false_iff in Hh as [Hc Hh].
    destruct (IH Hh) as (p0 & tl & E & Hp0).
    rewrite append_cons. cbn [Js.split]. rewrite Hc, E.
    exists (String c p0), tl. split; [reflexivity|].
    cbn [occurs]. rewrite Hp0. apply orb_true_r.
Qed.

Lemma headed_colon (ip : string) : headed ip -> occurs ":" ip = true.
Proof.
  intros (h & rest & -> & _). rewrite occurs_append. cbn [occurs].
  rewrite Ascii.eqb_refl. apply orb_true_r.
Qed.

(** On the addresses with colons the classification is the loopback text
    [::1] and the three prefixes of the lower-cased text. *)
Theorem isPrivate_on_IPv6 (ip : string) :
  net.isIPv6 ip = true ->
  ClientIp.isPrivate ip
  = String.eqb ip "::1"
    || Js.startsWith (Js.toLowerCase ip) "fc"
    || Js.startsWith (Js.toLowerCase ip) "fd"
    || Js.startsWith (Js.toLowerCase ip) "fe80:".
Proof.
  intros Hv6. pose proof (isIPv6_headed ip Hv6) as Hhead.
  assert (H127 : String.eqb ip "127.0.0.1" = false).
  { destruct (String.eqb ip "127.0.0.1") eqn:E127; [|reflexivity].
    apply String.eqb_eq in E127. apply headed_colon in Hhead.
    rewrite E127 in Hhead. discriminate Hhead. }
  destruct Hhead as (h & rest & E & Hh).
  unfold ClientIp.isPrivate.
  assert (Ht : Js.truthy ip = true) by (rewrite E; destruct h; reflexivity).
  assert (H10 : Js.startsWith ip "10." = false).
  { unfold Js.startsWith. rewrite E.
    change "10." with ("10" +:+ String "." EmptyString).
    apply prefix_headed; [reflexivity | exact Hh]. }
  assert (H192 : Js.startsWith ip "192.168." = false).
  { unfold Js.startsWith. rewrite E.
    change "192.168." with ("192" +:+ String "." "168.").
    apply prefix_headed; [reflexivity | exact Hh]. }
  assert (Hnan : ClientIp.at_ (List.map Js.Number (Js.split "." ip)) 0 = Js.NaN).
  { rewrite E. destruct (split_headed h rest Hh) as (p0 & tl & -> & Hp0).
    cbn [List.map]. rewrite (Number_colon p0 Hp0). reflexivity. }
  rewrite Ht, H10, H192, H127. cbv zeta. rewrite Hnan.
  cbn [negb Js.strictEq andb orb]. rewrite !andb_false_r.
  destruct (String.eqb ip "::1"); [reflexivity|].
  destruct (Js.startsWith (Js.toLowerCase ip) "fc"),
    (Js.startsWith (Js.toLowerCase ip) "fd"),
    (Js.startsWith (Js.toLowerCase ip) "fe80:"); reflexivity.
Qed.

(** C5, at addresses where the code and the listed ranges part: [fe90::1]
    lies in fe80::/10 and is classified public, as is everything from
    fe81:: to febf::, the test being for the text [fe80:]; and [fc::1],
    whose first group is 00fc, lies outside fc00::/7 and is classified
    private, the test being for the text [fc]. *)
Theorem C5_isPrivate_against_listed_ranges :
  (valid "fe90::1" = true
   /\ listedPrivate "fe90::1" = true
   /\ ClientIp.isPrivate "fe90::1" = false)
  /\ (valid "febf:ffff::1" = true
      /\ listedPrivate "febf:ffff::1" = true
      /\ ClientIp.isPrivate "febf:ffff::1" = false)
  /\ (valid "fc::1" = true
      /\ listedPrivate "fc::1" = false
      /\ ClientIp.isPrivate "fc::1" = true).
Proof. vm_compute. repeat split. Qed.

(** Where the two agree: the addresses the specification names, one of
    each listed range and some public ones. *)
Lemma isPrivate_agrees_on_samples :
  Forall (fun ip => valid ip = true /\ ClientIp.isPrivate ip = listedPrivate ip)
    [ "127.0.0.1"; "::1"; "10.0.0.1"; "10.255.255.255"; "172.16.0.1"; "172.31.255.254";
      "172.15.0.1"; "172.32.0.1"; "192.168.0.1"; "192.169.0.1"; "169.254.10.10";
      "169.253.0.1"; "fc00::1"; "fdff:ffff::1"; "fe80::1"; "FE80::abcd"; "8.8.8.8";
      "203.0.113.5"; "2001:db8::1"; "11.0.0.1"; "100.64.0.1" ].
Proof. repeat constructor; vm_compute; reflexivity. Qed.

(** The resolver acts on the classification: with [fe90::1] ahead of a
    public address in X-Forwarded-For, the link-local one is returned. *)
Lemma getClientIp_prefers_fe90 :
  ClientIp.getClientIp None
    (Samples.withHeaders {[ "x-forwarded-for" := HStr "fe90::1, 203.0.113.5" ]})
  = "fe90::1".
Proof. vm_compute. reflexivity. Qed.

End Classification.

(** ** Further properties of the code *)

Section Further.
Import keyUtils adminAuth Date keyHelpers Vocabulary Samples.

(** X1: every store the handlers can produce, starting from the empty one,
    holds each session under its own token, and no token is empty. *)
Theorem X1_sessions_stored_under_own_token
    (adminUser : AdminUser) (sessions : gmap string Session)
    (token : string) (session : Session) :
  reachable adminUser sessions ->
  sessions !! token = Some session ->
  id session = token /\ token <> EmptyString.
Proof. intros Hreach. apply (reachable_wellFormed adminUser sessions Hreach). Qed.

Lemma X1_sessions_stored_under_own_token_witness :
  id (mkSession drawnToken 1000 (Some "203.0.113.5") (Some "curl/8.5.0")) = drawnToken
  /\ drawnToken <> EmptyString.
Proof.
  apply (X1_sessions_stored_under_own_token operator oneSession).
  - exact oneSession_reachable.
  - exact oneSession_lookup.
Defined.

(** X2: on every valid dotted address, [isPrivate] answers true exactly for
    the text 127.0.0.1 and the ranges 10.0.0.0/8, 172.16.0.0/12,
    192.168.0.0/16 and 169.254.0.0/16. *)
Theorem X2_isPrivate_exact_on_dotted (ip : string) :
  net.isIPv4 ip = true -> ClientIp.isPrivate ip = listedPrivate ip.
Proof. exact (isPrivate_exact_on_IPv4 ip). Qed.

Lemma X2_isPrivate_exact_on_dotted_witness :
  ClientIp.isPrivate "172.31.255.254" = listedPrivate "172.31.255.254".
Proof. apply X2_isPrivate_exact_on_dotted. vm_compute. reflexivity. Defined.

(** X3: on every valid address with colons, [isPrivate] answers true
    exactly for the text [::1] and for a text that starts, in either case,
    with [fc], [fd] or [fe80:]. *)
Theorem X3_isPrivate_on_colon_addresses (ip : string) :
  net.isIPv6 ip = true ->
  ClientIp.isPrivate ip
  = String.eqb ip "::1"
    || Js.startsWith (Js.toLowerCase ip) "fc"
    || Js.startsWith (Js.toLowerCase ip) "fd"
    || Js.startsWith (Js.toLowerCase ip) "fe80:".
Proof. exact (isPrivate_on_IPv6 ip). Qed.

Lemma X3_isPrivate_on_colon_addresses_witness :
  ClientIp.isPrivate "FD12:3456::1"
  = String.eqb "FD12:3456::1" "::1"
    || Js.startsWith (Js.toLowerCase "FD12:3456::1") "fc"
    || Js.startsWith (Js.toLowerCase "FD12:3456::1") "fd"
    || Js.startsWith (Js.toLowerCase "FD12:3456::1") "fe80:".
Proof. apply X3_isPrivate_on_colon_addresses. vm_compute. reflexivity. Defined.



(** X5: [logout] takes the token from the [admin_session] cookie only: a
    request without that cookie is answered with success and leaves the
    store as it is, so that a session presented in the [x-admin-session]
    header is still accepted by [requireAuth] afterwards. *)
Theorem X5_logout_reads_the_cookie_only
    (now : Z) (req : Request) (sessions : gmap string Session)
    (token : string) (session : Session) :
  cookies req = None ->
  sessionTokenOf req = Some (Some (HStr token)) ->
  token <> EmptyString ->
  sessions !! token = Some session ->
  now - createdAt session <= 24 * 60 * 60 * 1000 ->
  logout req sessions
  = (Json 200 true "Logged out successfully" None CookieUntouched, sessions)
  /\ requireAuth now req (logout req sessions).2 = (Next session, sessions).
Proof.
  intros Hcookies Htok Hne Hget Hage.
  assert (E : logout req sessions
              = (Json 200 true "Logged out successfully" None CookieUntouched, sessions)).
  { apply logout_without_cookie. unfold cookieToken. rewrite Hcookies. reflexivity. }
  rewrite E. split; [reflexivity|]. cbn [snd].
  rewrite (requireAuth_token now req sessions token Htok), Hget.
  destruct token; [congruence|].
  replace (now - createdAt session >? 24 * 60 * 60 * 1000) with false
    by (symmetry; rewrite Z.gtb_ltb; apply Z.ltb_ge; lia).
  reflexivity.
Qed.

Lemma X5_logout_reads_the_cookie_only_witness :
  requireAuth 2000 (withSessionHeader drawnToken)
    (logout (withSessionHeader drawnToken) oneSession).2
  = (Next (mkSession drawnToken 1000 (Some "203.0.113.5") (Some "curl/8.5.0")),
     oneSession).
Proof.
  apply (X5_logout_reads_the_cookie_only 2000 (withSessionHeader drawnToken) oneSession
           drawnToken).
  - reflexivity.
  - vm_compute. reflexivity.
  - discriminate.
  - exact oneSession_lookup.
  - vm_compute. discriminate.
Defined.

(** X6: under the ['private'] preference [getClientIp] returns the first
    valid candidate whatever its classification, and ["unknown"] when no
    candidate is valid; with the candidates 10.0.0.5 and 8.8.8.8 it returns
    10.0.0.5. *)
Theorem X6_private_preference_first_valid :
  (forall (req : Request),
      ClientIp.getClientIp (Some "private") req
      = default "unknown" (ClientIp.firstValidOf (ClientIp.candidates req)))
  /\ ClientIp.getClientIp (Some "private") privateThenPublic = "10.0.0.5"
  /\ ClientIp.getClientIp None privateThenPublic = "8.8.8.8".
Proof.
  split; [exact getClientIp_private|]. split; vm_compute; reflexivity.
Qed.

(** X7: a login with the operator's credentials stores a session under a
    fresh token and hands the token out; [requireAuth] with that token,
    within the 24 hours, passes the session on, with the address and the
    user agent of the login. *)
Theorem X7_login_then_requireAuth
    (adminUser : AdminUser) (randomBytes : list Byte.byte) (now now' : Z)
    (req reqIn : Request) (hs : gmap string hvalue) (sessions : gmap string Session) :
  username (body req) = Some (adminUsername adminUser) ->
  password (body req) = Some (adminPassword adminUser) ->
  adminUsername adminUser <> EmptyString ->
  adminPassword adminUser <> EmptyString ->
  headers req = Some hs ->
  randomBytes <> [] ->
  sessionTokenOf reqIn = Some (Some (HStr (generateSession randomBytes))) ->
  now' - now <= 24 * 60 * 60 * 1000 ->
  let token := generateSession randomBytes in
  let session := mkSession token now (ip req) (asString (hs !! "user-agent")) in
  authenticate adminUser randomBytes now req sessions
  = (Json 200 true "Authentication successful" (Some token)
       (CookieSet token (24 * 60 * 60 * 1000)),
     <[token := session]> sessions)
  /\ requireAuth now' reqIn (authenticate adminUser randomBytes now req sessions).2
     = (Next session, <[token := session]> sessions).
Proof.
  intros Hu Hp Hune Hpne Hhs Hrnd Htok Hage token session.
  assert (E : authenticate adminUser randomBytes now req sessions
              = (Json 200 true "Authentication successful" (Some token)
                   (CookieSet token (24 * 60 * 60 * 1000)),
                 <[token := session]> sessions)).
  { unfold authenticate. cbv zeta. rewrite Hu, Hp, Hhs.
    destruct (adminUsername adminUser); [congruence|].
    destruct (adminPassword adminUser); [congruence|].
    cbn [falsy Js.truthy negb orb]. rewrite !bool_decide_eq_true_2 by reflexivity.
    reflexivity. }
  rewrite E. split; [reflexivity|]. cbn [snd].
  rewrite (requireAuth_token now' reqIn _ token Htok), lookup_insert_eq.
  pose proof (toHex_nonempty randomBytes Hrnd) as Hne. fold token in Hne.
  destruct token; [congruence|]. cbn [createdAt session].
  replace (now' - now >? 24 * 60 * 60 * 1000) with false
    by (symmetry; rewrite Z.gtb_ltb; apply Z.ltb_ge; lia).
  reflexivity.
Qed.

Lemma X7_login_then_requireAuth_witness :
  requireAuth 5000 (withCookie drawnToken) oneSession
  = (Next (mkSession drawnToken 1000 (Some "203.0.113.5") (Some "curl/8.5.0")),
     oneSession).
Proof.
  assert (H : sessionTokenOf (withCookie drawnToken)
              = Some (Some (HStr (generateSession drawn))))
    by (vm_compute; reflexivity).
  assert (Hage : 5000 - 1000 <= 24 * 60 * 60 * 1000) by lia.
  exact (proj2 (X7_login_then_requireAuth operator drawn 1000 5000 loginRequest
                  (withCookie drawnToken) {[ "user-agent" := HStr "curl/8.5.0" ]} ∅
                  eq_refl eq_refl ltac:(discriminate) ltac:(discriminate) eq_refl
                  ltac:(discriminate) H Hage)).
Defined.

(** X8: [getActiveSessions] lists exactly the sessions the store holds,
    whatever their age: nothing sweeps the store and the listing does not
    read the clock.  The count it reports is the size of the store. *)
Theorem X8_getActiveSessions_lists_the_store (sessions : gmap string Session) :
  exists l,
    getActiveSessions sessions = SessionList l (size sessions)
    /\ forall session, In session l <-> exists token, sessions !! token = Some session.
Proof.
  exists (map_to_list sessions).*2. split.
  - unfold getActiveSessions. cbv zeta. f_equal.
    rewrite length_fmap. apply length_map_to_list.
  - intros session. exact (listed_lookup sessions session).
Qed.

(** X9: [clearAllSessions] empties the store and reports how many sessions
    it held; afterwards nothing is listed and [requireAuth] lets no
    request pass, whatever token it carries. *)
Theorem X9_clearAllSessions_empties
    (now : Z) (req : Request) (sessions : gmap string Session) :
  clearAllSessions sessions
  = (Json 200 true ("Cleared " +:+ pretty (size sessions) +:+ " sessions") None
       CookieUntouched, ∅)
  /\ listed (getActiveSessions (clearAllSessions sessions).2) = []
  /\ (forall session, (requireAuth now req (clearAllSessions sessions).2).1 <> Next session)
  /\ (requireAuth now req (clearAllSessions sessions).2).2 = ∅.
Proof.
  split; [reflexivity|]. cbn [clearAllSessions snd]. split.
  - unfold getActiveSessions. cbv zeta. cbn [listed].
    rewrite map_to_list_empty. reflexivity.
  - unfold requireAuth.
    destruct (sessionTokenOf req) as [[[[|c t]|l]|]|];
      try rewrite lookup_empty; split; try reflexivity; discriminate.
Qed.

End Further.

(** ** Input texts: [sanitizeInput] *)

Section Texts.
Import keyHelpers keyFormat Vocabulary.

Lemma all_take (p : ascii -> bool) (n : nat) (s : string) :
  JsText.all p s = true -> JsText.all p (Js.take n s) = true.
Proof.
  revert n. induction s as [|c s IH]; intros [|n] H; try reflexivity.
  cbn [Js.take JsText.all] in *. apply andb_true_iff in H as [Hc Hs].
  rewrite Hc. exact (IH n Hs).
Qed.

Lemma all_trimStart (p : ascii -> bool) (s : string) :
  JsText.all p s = true -> JsText.all p (Js.trimStart s) = true.
Proof.
  induction s as [|c s IH]; intros H; [reflexivity|].
  cbn [Js.trimStart]. destruct (Js.isWhiteSpace c); [|exact H].
  cbn [JsText.all] in H. apply andb_true_iff in H as [_ Hs]. exact (IH Hs).
Qed.

Lemma all_trimEnd (p : ascii -> bool) (s : string) :
  JsText.all p s = true -> JsText.all p (Js.trimEnd s) = true.
Proof.
  induction s as [|c s IH]; intros H; [reflexivity|].
  cbn [JsText.all] in H. apply andb_true_iff in H as [Hc Hs].
  cbn [Js.trimEnd]. specialize (IH Hs).
  destruct (Js.trimEnd s) as [|d u].
  - destruct (Js.isWhiteSpace c); [reflexivity|]. cbn [JsText.all]. rewrite Hc. reflexivity.
  - cbn [JsText.all] in *. rewrite Hc. exact IH.
Qed.

Lemma all_removeClass (p : ascii -> bool) (s : string) :
  JsText.all (fun c => negb (p c)) (JsText.removeClass p s) = true.
Proof.
  induction s as [|c s IH]; [reflexivity|].
  cbn [JsText.removeClass]. destruct (p c) eqn:E; [exact IH|].
  cbn [JsText.all]. rewrite E, IH. reflexivity.
Qed.

Lemma removeClass_fixed (p : ascii -> bool) (s : string) :
  JsText.all (fun c => negb (p c)) s = true -> JsText.removeClass p s = s.
Proof.
  induction s as [|c s IH]; intros H; [reflexivity|].
  cbn [JsText.all] in H. apply andb_true_iff in H as [Hc Hs].
  cbn [JsText.removeClass]. destruct (p c); [discriminate Hc|]. rewrite (IH Hs). reflexivity.
Qed.

Lemma length_take (n : nat) (s : string) :
  String.length (Js.take n s) = Nat.min n (String.length s).
Proof.
  revert n. induction s as [|c s IH]; intros [|n]; try reflexivity.
  cbn [Js.take String.length]. rewrite IH. reflexivity.
Qed.

Lemma take_all (n : nat) (s : string) :
  (String.length s <= n)%nat -> Js.take n s = s.
Proof.
  revert n. induction s as [|c s IH]; intros [|n] H; try reflexivity.
  - cbn [String.length] in H. lia.
  - cbn [Js.take]. rewrite IH; [reflexivity|]. cbn [String.length] in H. lia.
Qed.

Lemma take_min (n : nat) (s : string) :
  Js.take (Nat.min n (String.length s)) s = Js.take n s.
Proof.
  revert n. induction s as [|c s IH]; intros [|n]; try reflexivity.
  cbn [String.length Nat.min Js.take]. rewrite IH. reflexivity.
Qed.

(** [s.substring(0, n)] is the first [n] characters. *)
Lemma substring_from_zero (s : string) (n : Z) :
  0 <= n -> JsText.substring s 0 n = Js.take (Z.to_nat n) s.
Proof.
  intros Hn. unfold JsText.substring, Js.clamp. cbv zeta.
  set (len := Z.of_nat (String.length s)).
  assert (0 <= len) by (unfold len; lia).
  replace (Z.min (Z.min (Z.max 0 0) len) (Z.min (Z.max n 0) len)) with 0 by lia.
  replace (Z.max (Z.min (Z.max 0 0) len) (Z.min (Z.max n 0) len) - 0)
    with (Z.min n len) by lia.
  change (Z.to_nat 0) with 0%nat. cbn [Js.drop].
  rewrite <- (take_min (Z.to_nat n) s). f_equal. unfold len. lia.
Qed.

Lemma length_trimStart (s : string) :
  (String.length (Js.trimStart s) <= String.length s)%nat.
Proof.
  induction s as [|c s IH]; [reflexivity|].
  cbn [Js.trimStart]. destruct (Js.isWhiteSpace c); cbn [String.length]; lia.
Qed.

Lemma length_trimEnd (s : string) :
  (String.length (Js.trimEnd s) <= String.length s)%nat.
Proof.
  induction s as [|c s IH]; [reflexivity|].
  cbn [Js.trimEnd]. destruct (Js.trimEnd s) as [|d u].
  - destruct (Js.isWhiteSpace c); cbn [String.length]; lia.
  - cbn [String.length] in *. lia.
Qed.

Lemma take_head (n : nat) (s : string) : headNotSpace s -> headNotSpace (Js.take n s).
Proof. destruct s as [|c s], n as [|n]; intros H; try exact I. exact H. Qed.

Lemma sanitizeInput_string (s : string) :
  sanitizeInput (VString s)
  = Js.take 255 (Js.trim (JsText.removeClass dangerous s)).
Proof. unfold sanitizeInput. rewrite substring_from_zero by lia. reflexivity. Qed.

Lemma sanitizeInput_output (input : value) :
  JsText.all (fun c => negb (dangerous c)) (sanitizeInput input) = true
  /\ (String.length (sanitizeInput input) <= 255)%nat
  /\ headNotSpace (sanitizeInput input).
Proof.
  destruct input as [| |b|n|s|]; try (repeat split; cbn; lia).
  rewrite sanitizeInput_string. repeat split.
  - apply all_take, all_trimEnd, all_trimStart, all_removeClass.
  - rewrite length_take. lia.
  - apply take_head, trimEnd_head, trimStart_head.
Qed.

(** X10: whatever it is given, [sanitizeInput] returns a text without
    angle brackets and quotes, of at most 255 characters, that does not
    start with whitespace; what is not a string gives the empty text. *)
Theorem X10_sanitizeInput_output (input : value) :
  JsText.all (fun c => negb (dangerous c)) (sanitizeInput input) = true
  /\ (String.length (sanitizeInput input) <= 255)%nat
  /\ headNotSpace (sanitizeInput input)
  /\ ((forall s, input <> VString s) -> sanitizeInput input = EmptyString).
Proof.
  destruct (sanitizeInput_output input) as (H1 & H2 & H3).
  repeat split; try assumption.
  intros Hs. destruct input; try reflexivity. exfalso. exact (Hs _ eq_refl).
Qed.

(** X11: sanitizing a sanitized text only trims its end; the cut at 255
    characters can leave whitespace there, so that a second pass may still
    change the text. *)
Theorem X11_sanitizeInput_twice :
  (forall input : value,
      sanitizeInput (VString (sanitizeInput input)) = Js.trimEnd (sanitizeInput input))
  /\ sanitizeInput (VString (sanitizeInput (VString MoreSamples.longText)))
     <> sanitizeInput (VString MoreSamples.longText).
Proof.
  split; [|vm_compute; discriminate].
  intros input. destruct (sanitizeInput_output input) as (Hclean & Hlen & Hhead).
  rewrite sanitizeInput_string, (removeClass_fixed _ _ Hclean).
  unfold Js.trim. rewrite (trimStart_fixed _ Hhead).
  apply take_all. pose proof (length_trimEnd (sanitizeInput input)). lia.
Qed.

(** X12: the texts [sanitizeInput] leaves as they are: those without an
    angle bracket or a quote, without whitespace at either end, and of at
    most 255 characters. *)
Theorem X12_sanitizeInput_fixed_points (s : string) :
  sanitizeInput (VString s) = s
  <-> JsText.all (fun c => negb (dangerous c)) s = true
      /\ Js.trim s = s
      /\ (String.length s <= 255)%nat.
Proof.
  split.
  - intros H. destruct (sanitizeInput_output (VString s)) as (Hclean & Hlen & _).
    rewrite H in Hclean, Hlen. repeat split; [exact Hclean| |exact Hlen].
    rewrite sanitizeInput_string, (removeClass_fixed _ _ Hclean) in H.
    rewrite take_all in H; [exact H|].
    pose proof (length_trimEnd (Js.trimStart s)). pose proof (length_trimStart s).
    unfold Js.trim. lia.
  - intros (Hclean & Htrim & Hlen).
    rewrite sanitizeInput_string, (removeClass_fixed _ _ Hclean), Htrim.
    apply take_all, Hlen.
Qed.

End Texts.

(** ** Key ids: [isValidUUID] and [generateKey] *)

Section KeyIds.
Import RegExp keyFormat Terms.

Lemma test_Void (s : string) : test Void s = false.
Proof. induction s as [|c s IH]; [reflexivity|exact IH]. Qed.

Lemma cat_Eps_wordThen (l : list (ascii -> bool)) : cat Eps (word l) = word l.
Proof. destruct l; reflexivity. Qed.

Lemma cat_Void (r : re) : cat Void r = Void.
Proof. reflexivity. Qed.

Lemma test_word (l : list (ascii -> bool)) (s : string) :
  test (word l) s = conforms l s.
Proof.
  revert s. induction l as [|p l IH]; intros [|c s]; try reflexivity.
  - cbn. apply test_Void.
  - change (test (word (p :: l)) (String c s))
      with (test (cat (if p c then Eps else Void) (word l)) s).
    cbn [conforms]. destruct (p c).
    + rewrite cat_Eps_wordThen. apply IH.
    + rewrite cat_Void. apply test_Void.
Qed.

Lemma matches_cat_congr (a b b' : re) :
  (forall t, matches b t <-> matches b' t) ->
  forall s, matches (Cat a b) s <-> matches (Cat a b') s.
Proof.
  intros H s. split; intros Hm; inversion Hm; subst;
    (apply matches_cat; [assumption | apply H; assumption]).
Qed.

Lemma matches_cat_assoc (a b c : re) (s : string) :
  matches (Cat (Cat a b) c) s <-> matches (Cat a (Cat b c)) s.
Proof.
  split; intros Hm.
  - inversion Hm as [| |? ? s1 t1 H1 H2| | | |]; subst.
    inversion H1 as [| |? ? s2 t2 H3 H4| | | |]; subst.
    rewrite <- append_assoc_string.
    apply matches_cat; [assumption|]. apply matches_cat; assumption.
  - inversion Hm as [| |? ? s1 t1 H1 H2| | | |]; subst.
    inversion H2 as [| |? ? s2 t2 H3 H4| | | |]; subst.
    rewrite append_assoc_string.
    apply matches_cat; [|assumption]. apply matches_cat; assumption.
Qed.

Lemma matches_cat_Eps_l (r : re) (s : string) : matches (Cat Eps r) s <-> matches r s.
Proof.
  split; intros Hm.
  - inversion Hm as [| |? ? s1 t1 H1 H2| | | |]; subst.
    inversion H1; subst. exact H2.
  - change s with (EmptyString +:+ s). apply matches_cat; [constructor|exact Hm].
Qed.

Lemma matches_times_then (n : nat) (p : ascii -> bool) (r : re) (s : string) :
  matches (Cat (times n (Class p)) r) s <-> matches (wordThen (replicate n p) r) s.
Proof.
  revert s. induction n as [|n IH]; intros s.
  - apply matches_cat_Eps_l.
  - cbn [times replicate wordThen List.fold_right].
    rewrite matches_cat_assoc. apply matches_cat_congr. exact IH.
Qed.

Lemma wordThen_word (l1 l2 : list (ascii -> bool)) :
  wordThen l1 (word l2) = word (l1 ++ l2).
Proof. unfold word, wordThen. rewrite List.fold_right_app. reflexivity. Qed.

Lemma matches_times_word (n : nat) (p : ascii -> bool) (l : list (ascii -> bool)) :
  forall s, matches (Cat (times n (Class p)) (word l)) s
            <-> matches (word (replicate n p ++ l)) s.
Proof. intros s. rewrite matches_times_then, wordThen_word. reflexivity. Qed.

Lemma matches_times_last (n : nat) (p : ascii -> bool) (s : string) :
  matches (times n (Class p)) s <-> matches (word (replicate n p)) s.
Proof.
  revert s. induction n as [|n IH]; intros s; [reflexivity|].
  cbn [times replicate]. apply (matches_cat_congr _ _ (word (replicate n p))). exact IH.
Qed.

Lemma matches_class_word (p : ascii -> bool) (l : list (ascii -> bool)) (b : re) :
  (forall t, matches b t <-> matches (word l) t) ->
  forall s, matches (Cat (Class p) b) s <-> matches (word (p :: l)) s.
Proof. intros H. apply matches_cat_congr. exact H. Qed.

Lemma matches_run_word (n : nat) (p : ascii -> bool) (l : list (ascii -> bool)) (b : re) :
  (forall t, matches b t <-> matches (word l) t) ->
  forall s, matches (Cat (times n (Class p)) b) s <-> matches (word (replicate n p ++ l)) s.
Proof.
  intros H s. rewrite <- matches_times_word. apply matches_cat_congr. exact H.
Qed.

Lemma uuidRegex_word (s : string) :
  matches uuidRegex s <-> matches (word (List.map uuidClassAt (List.seq 0 36))) s.
Proof.
  revert s. unfold uuidRegex, cats, chr.
  change (List.map uuidClassAt (List.seq 0 36))
    with (replicate 8 hexClass ++ Ascii.eqb "-" :: replicate 4 hexClass
          ++ Ascii.eqb "-" :: JsText.within "1" "5" :: replicate 3 hexClass
          ++ Ascii.eqb "-" :: variantClass :: replicate 3 hexClass
          ++ Ascii.eqb "-" :: replicate 12 hexClass)%list.
  apply matches_run_word, matches_class_word, matches_run_word, matches_class_word,
    matches_class_word, matches_run_word, matches_class_word, matches_class_word,
    matches_run_word, matches_class_word.
  apply matches_times_last.
Qed.

Lemma isValidUUID_shape (s : string) : isValidUUID s = uuidShape s.
Proof.
  apply Bool.eq_iff_eq_true. unfold isValidUUID, uuidShape.
  rewrite test_matches, uuidRegex_word, <- test_matches, test_word. reflexivity.
Qed.


Lemma conforms_length (l : list (ascii -> bool)) (s : string) :
  conforms l s = true -> String.length s = List.length l.
Proof.
  revert s. induction l as [|p l IH]; intros [|c s] H; try discriminate H; [reflexivity|].
  cbn [conforms] in H. apply andb_true_iff in H as [_ H].
  cbn [String.length List.length]. rewrite (IH s H). reflexivity.
Qed.

Lemma conforms_all (P : ascii -> bool) (l : list (ascii -> bool)) (s : string) :
  Forall (fun p => forall c, p c = true -> P c = true) l ->
  conforms l s = true -> JsText.all P s = true.
Proof.
  intros Hl. revert s. induction Hl as [|p l Hp Hl IH]; intros [|c s] H;
    try discriminate H; [reflexivity|].
  cbn [conforms] in H. apply andb_true_iff in H as [Hc H].
  cbn [JsText.all]. rewrite (Hp c Hc), (IH s H). reflexivity.
Qed.

Lemma conforms_lower (l : list (ascii -> bool)) (s : string) :
  Forall (fun p => forall c, p (Js.lowerChar c) = p c) l ->
  conforms l (Js.toLowerCase s) = conforms l s.
Proof.
  intros Hl. revert s. induction Hl as [|p l Hp Hl IH]; intros [|c s]; try reflexivity.
  cbn [Js.toLowerCase conforms]. rewrite Hp, IH. reflexivity.
Qed.

(** A property of characters that holds of each of the 256 holds of all. *)
Lemma forall_codeUnits (P : ascii -> bool) :
  List.forallb P Vocabulary.codeUnits = true -> forall c, P c = true.
Proof.
  intros H c. rewrite List.forallb_forall in H. apply H, codeUnits_all.
Qed.

Lemma uuidClasses_hexOrHyphen :
  Forall (fun p : ascii -> bool => forall c, p c = true -> hexOrHyphen c = true)
         (List.map uuidClassAt (List.seq 0 36)).
Proof.
  assert (H : forall p : ascii -> bool,
             List.forallb (fun c => implb (p c) (hexOrHyphen c)) Vocabulary.codeUnits = true ->
             forall c, p c = true -> hexOrHyphen c = true).
  { intros p Hp c Hc. pose proof (forall_codeUnits _ Hp c) as Hi. cbv beta in Hi.
    rewrite Hc in Hi. exact Hi. }
  cbn [List.map List.seq uuidClassAt].
  repeat (apply Forall_cons; split; [apply H; vm_compute; reflexivity|]).
  apply Forall_nil. exact I.
Qed.

Lemma uuidClasses_lower :
  Forall (fun p : ascii -> bool => forall c, p (Js.lowerChar c) = p c)
         (List.map uuidClassAt (List.seq 0 36)).
Proof.
  assert (H : forall p : ascii -> bool,
             List.forallb (fun c => Bool.eqb (p (Js.lowerChar c)) (p c)) Vocabulary.codeUnits
             = true ->
             forall c, p (Js.lowerChar c) = p c).
  { intros p Hp c. apply Bool.eqb_prop. exact (forall_codeUnits _ Hp c). }
  cbn [List.map List.seq uuidClassAt].
  repeat (apply Forall_cons; split; [apply H; vm_compute; reflexivity|]).
  apply Forall_nil. exact I.
Qed.

Lemma accepted_alphabet (s : string) :
  isValidUUID s = true -> String.length s = 36%nat /\ JsText.all hexOrHyphen s = true.
Proof.
  rewrite isValidUUID_shape. unfold uuidShape. intros H. split.
  - rewrite (conforms_length _ _ H). reflexivity.
  - exact (conforms_all _ _ _ uuidClasses_hexOrHyphen H).
Qed.

(** X13: [isValidUUID] accepts exactly the texts of 36 characters with a
    hyphen at the offsets 8, 13, 18 and 23, a digit from 1 to 5 at offset
    14, one of 8, 9, a, b (in either case) at offset 19, and hex digits
    (in either case) everywhere else. *)
Theorem X13_isValidUUID_by_position (s : string) : isValidUUID s = uuidShape s.
Proof. exact (isValidUUID_shape s). Qed.

(** X14: [isValidUUID] gives the same answer for a text and for its
    lower-case form, and a text it accepts has 36 characters, each a hex
    digit or a hyphen. *)
Theorem X14_isValidUUID_alphabet (s : string) :
  isValidUUID (Js.toLowerCase s) = isValidUUID s
  /\ (isValidUUID s = true ->
      String.length s = 36%nat /\ JsText.all hexOrHyphen s = true).
Proof.
  split; [|exact (accepted_alphabet s)].
  rewrite !isValidUUID_shape. apply conforms_lower, uuidClasses_lower.
Qed.

Lemma X14_isValidUUID_alphabet_witness :
  isValidUUID "123e4567-e89b-42d3-a456-426614174000" = isValidUUID "123E4567-E89B-42D3-A456-426614174000"
  /\ String.length "123E4567-E89B-42D3-A456-426614174000" = 36%nat
  /\ JsText.all hexOrHyphen "123E4567-E89B-42D3-A456-426614174000" = true.
Proof.
  destruct (X14_isValidUUID_alphabet "123E4567-E89B-42D3-A456-426614174000") as [Hl Hs].
  split; [exact Hl|]. apply Hs. vm_compute. reflexivity.
Defined.

Lemma hexByte_chars (b : Byte.byte) :
  exists x y, adminAuth.hexByte b = String x (String y EmptyString)
              /\ hexClass (Js.lowerChar x) = true /\ hexClass (Js.lowerChar y) = true.
Proof.
  exists (adminAuth.hexDigit (Byte.to_N b / 16)), (adminAuth.hexDigit (Byte.to_N b mod 16)).
  split; [reflexivity|]. destruct b; vm_compute; split; reflexivity.
Qed.

Lemma version_chars (b : Byte.byte) :
  exists y, adminAuth.hexByte (masked 15 64 b) = String "4" (String y EmptyString)
            /\ hexClass (Js.lowerChar y) = true.
Proof.
  exists (adminAuth.hexDigit (Byte.to_N (masked 15 64 b) mod 16)).
  destruct b; vm_compute; split; reflexivity.
Qed.

Lemma variant_chars (b : Byte.byte) :
  exists x y, adminAuth.hexByte (masked 63 128 b) = String x (String y EmptyString)
              /\ variantClass (Js.lowerChar x) = true /\ hexClass (Js.lowerChar y) = true.
Proof.
  exists (adminAuth.hexDigit (Byte.to_N (masked 63 128 b) / 16)),
         (adminAuth.hexDigit (Byte.to_N (masked 63 128 b) mod 16)).
  split; [reflexivity|]. destruct b; vm_compute; split; reflexivity.
Qed.

(** X15: every key id [generateKey] makes from 16 random bytes passes
    [isValidUUID], and its version digit, at offset 14, is 4. *)
Theorem X15_generateKey_is_valid (rnds : list Byte.byte) :
  List.length rnds = 16%nat ->
  isValidUUID (generateKey rnds) = true
  /\ String.get 14 (generateKey rnds) = Some "4"%char.
Proof.
  intros Hlen.
  do 16 (destruct rnds as [|? rnds]; [discriminate Hlen|]).
  destruct rnds; [|discriminate Hlen]. clear Hlen.
  rewrite isValidUUID_shape.
  unfold generateKey, v4, byteToHex, byteAt. cbn [list_insert insert lookup list_lookup default from_option].
  unfold id.
  destruct (version_chars b5) as (v & -> & Hv).
  destruct (variant_chars b7) as (r1 & r2 & -> & Hr1 & Hr2).
  repeat match goal with
         | |- context [adminAuth.hexByte ?b] =>
             let x := fresh "x" in let y := fresh "y" in
             let Hx := fresh "Hx" in let Hy := fresh "Hy" in
             destruct (hexByte_chars b) as (x & y & -> & Hx & Hy)
         end.
  cbv [String.append].
  cbn [Js.toLowerCase uuidShape conforms List.map List.seq uuidClassAt String.get].
  repeat match goal with H : _ = true |- _ => rewrite H; clear H end.
  split; vm_compute; reflexivity.
Qed.

Lemma X15_generateKey_is_valid_witness :
  isValidUUID (generateKey MoreSamples.keyBytes) = true
  /\ String.get 14 (generateKey MoreSamples.keyBytes) = Some "4"%char.
Proof. apply X15_generateKey_is_valid. reflexivity. Defined.

End KeyIds.

(** ** The test page *)

Section Page.
Import keyFormat appController Terms.

(** X16: [getTestPage] answers 400 with a fixed page to every key id that
    [isValidUUID] refuses; the page it sends otherwise holds the key id
    once, inside the address of the script, and that key id has 36
    characters, each a hex digit or a hyphen. *)
Theorem X16_getTestPage_reflects_key_ids_only (keyId : string) :
  (isValidUUID keyId = false /\ getTestPage keyId = (400, errorPage))
  \/ (isValidUUID keyId = true
      /\ String.length keyId = 36%nat
      /\ JsText.all hexOrHyphen keyId = true
      /\ getTestPage keyId = (200, pageHead +:+ keyId +:+ pageTail)).
Proof.
  unfold getTestPage. change (RegExp.test uuidRegex keyId) with (isValidUUID keyId).
  destruct (isValidUUID keyId) eqn:E.
  - right. destruct (accepted_alphabet keyId E) as [Hl Ha]. repeat split; assumption.
  - left. split; reflexivity.
Qed.

End Page.

(** ** The time a key has left: [getRemainingTime] *)

Section Timestamps.
Import Date DateParse keyClock keyHelpers Vocabulary.

Lemma digitValue_digitChar (d : Z) :
  0 <= d <= 9 -> Js.digitValue (digitChar d) = Some d.
Proof.
  intros H.
  assert (E : d = 0 \/ d = 1 \/ d = 2 \/ d = 3 \/ d = 4 \/ d = 5 \/ d = 6 \/ d = 7
              \/ d = 8 \/ d = 9) by lia.
  repeat (destruct E as [->|E]; [reflexivity|]). rewrite E. reflexivity.
Qed.

Lemma digitsAcc_pad (w : nat) (acc n : Z) :
  0 <= n < 10 ^ Z.of_nat w ->
  Js.digitsAcc 10 acc (pad w n) = Some (acc * 10 ^ Z.of_nat w + n).
Proof.
  revert acc n. induction w as [|w IH]; intros acc n Hn.
  - cbn [pad Js.digitsAcc]. f_equal. change (10 ^ Z.of_nat 0) with 1 in *. lia.
  - cbn [pad Js.digitsAcc].
    assert (Hp : 0 < 10 ^ Z.of_nat w) by (apply Z.pow_pos_nonneg; lia).
    assert (E : 10 ^ Z.of_nat (S w) = 10 * 10 ^ Z.of_nat w)
      by (rewrite Nat2Z.inj_succ, Z.pow_succ_r; lia).
    rewrite E in Hn.
    assert (Hq : 0 <= n / 10 ^ Z.of_nat w <= 9).
    { split; [apply Z.div_pos; lia|].
      assert (n / 10 ^ Z.of_nat w < 10) by (apply Z.div_lt_upper_bound; lia). lia. }
    rewrite (digitValue_digitChar _ Hq).
    replace (n / 10 ^ Z.of_nat w <? 10) with true by (symmetry; apply Z.ltb_lt; lia).
    rewrite IH by (apply Z.mod_pos_bound; exact Hp).
    f_equal. rewrite E. pose proof (Z.div_mod n (10 ^ Z.of_nat w)). nia.
Qed.

Lemma digits_pad (w : nat) (n : Z) :
  0 <= n < 10 ^ Z.of_nat (S w) -> Js.digits 10 (pad (S w) n) = Some n.
Proof.
  intros Hn. change (Js.digits 10 (pad (S w) n)) with (Js.digitsAcc 10 0 (pad (S w) n)).
  rewrite digitsAcc_pad by exact Hn. f_equal.
Qed.

(** The ISO text of seven fields *)
Lemma isoText_parts (Y M D H Mi S Ms : Z) :
  let s := pad 4 Y +:+ String "-" (pad 2 M +:+ String "-" (pad 2 D
           +:+ String "T" (pad 2 H +:+ String ":" (pad 2 Mi
           +:+ String ":" (pad 2 S +:+ String "." (pad 3 Ms +:+ "Z")))))) in
  ((String.length s =? 24)%nat
   && sepAt s 4 "-" && sepAt s 7 "-" && sepAt s 10 "T"
   && sepAt s 13 ":" && sepAt s 16 ":" && sepAt s 19 "." && sepAt s 23 "Z") = true
  /\ field s 0 4 = Js.digits 10 (pad 4 Y)
  /\ field s 5 2 = Js.digits 10 (pad 2 M)
  /\ field s 8 2 = Js.digits 10 (pad 2 D)
  /\ field s 11 2 = Js.digits 10 (pad 2 H)
  /\ field s 14 2 = Js.digits 10 (pad 2 Mi)
  /\ field s 17 2 = Js.digits 10 (pad 2 S)
  /\ field s 20 3 = Js.digits 10 (pad 3 Ms).
Proof. repeat split; reflexivity. Qed.


Ltac by_month :=
  unfold monthOf, dateOf, monthOf;
  repeat match goal with
         | |- context [?a <? ?b] => destruct (Z.ltb_spec a b)
         end.

(** The month and the date give the day within the year back. *)
Lemma monthStart_date (leap day : Z) :
  (leap = 0 \/ leap = 1) -> 0 <= day < 365 + leap ->
  monthStart leap (monthOf leap day) + dateOf leap day - 1 = day.
Proof. intros Hl Hd. by_month; cbn [monthStart]; lia. Qed.

Lemma date_in_month (y leap day : Z) :
  leap = (if DaysInYear y =? 366 then 1 else 0) -> 0 <= day < 365 + leap ->
  1 <= monthOf leap day + 1 <= 12
  /\ 1 <= dateOf leap day <= DaysInMonth y (monthOf leap day + 1).
Proof.
  intros Hl Hd. unfold DaysInMonth.
  destruct (DaysInYear y =? 366); subst leap; by_month;
    match goal with
    | |- context [match ?k + 1 with _ => _ end] =>
        let v := eval vm_compute in (k + 1) in change (k + 1) with v
    end; cbv iota; lia.
Qed.

Lemma truncate_inject_Z (h : Z) : truncate (inject_Z h) = h.
Proof.
  unfold truncate. destruct (Qle_bool 0 (inject_Z h)).
  - apply Qfloor_Z.
  - apply Qceiling_Z.
Qed.

(** [Date.parse] reads what [toISOString] wrote. *)
Lemma parseISO_isoOf (t : Z) : fourDigitYear t -> parseISO (isoOf t) = Some t.
Proof.
  intros Ht. pose proof (fields_range t Ht) as (HY & HM & HD & HH & HMi & HS & HMs).
  unfold isoOf, isoYear.
  replace ((0 <=? YearFromTime t) && (YearFromTime t <=? 9999)) with true
    by (symmetry; apply andb_true_iff; split; apply Z.leb_le; lia).
  pose proof (isoText_parts (YearFromTime t) (MonthFromTime t + 1) (DateFromTime t)
                (HourFromTime t) (MinFromTime t) (SecFromTime t) (msFromTime t)) as P.
  cbv zeta in P. destruct P as (P0 & P1 & P2 & P3 & P4 & P5 & P6 & P7).
  unfold parseISO. rewrite P0, P1, P2, P3, P4, P5, P6, P7.
  rewrite !digits_pad by (change (10 ^ Z.of_nat 4) with 10000;
                          change (10 ^ Z.of_nat 3) with 1000;
                          change (10 ^ Z.of_nat 2) with 100; lia).
  cbn [mbind option_bind].
  pose proof (date_in_month (YearFromTime t) (InLeapYear t) (DayWithinYear t) eq_refl
                (DayWithinYear_range t)) as [Hm Hd].
  fold (MonthFromTime t) in Hm, Hd. fold (DateFromTime t) in Hd.
  assert (Hh : 0 <= HourFromTime t <= 23 /\ 0 <= MinFromTime t <= 59
               /\ 0 <= SecFromTime t <= 59).
  { unfold HourFromTime, MinFromTime, SecFromTime. repeat split;
      Z.div_mod_to_equations; lia. }
  replace ((1 <=? MonthFromTime t + 1) && (MonthFromTime t + 1 <=? 12)
           && (1 <=? DateFromTime t)
           && (DateFromTime t <=? DaysInMonth (YearFromTime t) (MonthFromTime t + 1))
           && (HourFromTime t <=? 23) && (MinFromTime t <=? 59)
           && (SecFromTime t <=? 59)) with true
    by (symmetry; repeat (apply andb_true_iff; split); apply Z.leb_le; lia).
  unfold MakeDate, MakeTime, MakeDay. rewrite truncate_inject_Z. f_equal.
  replace (MonthFromTime t + 1 - 1) with (MonthFromTime t) by lia.
  pose proof (monthStart_date (InLeapYear t) (DayWithinYear t) (InLeapYear_range t)
                (DayWithinYear_range t)) as Hday.
  fold (MonthFromTime t) in Hday. fold (DateFromTime t) in Hday.
  change (if DaysInYear (YearFromTime t) =? 366 then 1 else 0) with (InLeapYear t).
  replace (DayFromYear (YearFromTime t) + monthStart (InLeapYear t) (MonthFromTime t)
           + DateFromTime t - 1) with (Day t)
    by (unfold DayWithinYear in Hday; lia).
  unfold Day, HourFromTime, MinFromTime, SecFromTime, msFromTime,
    msPerDay, msPerHour, msPerMinute, msPerSecond.
  Z.div_mod_to_equations. lia.
Qed.


Lemma ofString_isoOf (host : string -> option Z) (t : Z) :
  fourDigitYear t -> ofString host (isoOf t) = Some t.
Proof.
  intros Ht. unfold ofString, parse. rewrite (parseISO_isoOf t Ht).
  apply fourDigitYear_clip, Ht.
Qed.

(** What [getRemainingTime] answers once the time value of its argument
    is known. *)
Lemma getRemainingTime_invalid (host : string -> option Z) (now : Z) (expiryDate : string) :
  ofString host expiryDate = None ->
  getRemainingTime host now expiryDate = mkTimeInfo false None None None "NaNh NaNm".
Proof. intros H. unfold getRemainingTime. rewrite H. reflexivity. Qed.

Lemma getRemainingTime_passed (host : string -> option Z) (now e : Z) (expiryDate : string) :
  ofString host expiryDate = Some e -> e <= now ->
  getRemainingTime host now expiryDate
  = mkTimeInfo true (Some 0) (Some 0) (Some 0) "Expired".
Proof.
  intros H Hle. unfold getRemainingTime. rewrite H. cbv zeta.
  cbn [fmap option_fmap option_map notPositive].
  replace (e - now <=? 0) with true by (symmetry; apply Z.leb_le; lia). reflexivity.
Qed.

Lemma getRemainingTime_ahead (host : string -> option Z) (now e : Z) (expiryDate : string) :
  ofString host expiryDate = Some e -> now < e ->
  getRemainingTime host now expiryDate
  = mkTimeInfo false (Some (e - now)) (Some ((e - now) / 3600000))
      (Some ((e - now) mod 3600000 / 60000))
      (pretty ((e - now) / 3600000) +:+ "h "
       +:+ pretty ((e - now) mod 3600000 / 60000) +:+ "m").
Proof.
  intros H Hlt. unfold getRemainingTime. rewrite H. cbv zeta.
  cbn [fmap option_fmap option_map notPositive].
  replace (e - now <=? 0) with false by (symmetry; apply Z.leb_gt; lia).
  unfold floorDiv, remainder. cbn [fmap option_fmap option_map text].
  change (1000 * 60 * 60) with 3600000. change (1000 * 60) with 60000.
  rewrite Z.rem_mod_nonneg by lia. reflexivity.
Qed.

(** X17: for a text the Date constructor cannot read, [getRemainingTime]
    does not report the key as expired: it answers [expired: false] with
    NaN for the remaining time and the text [NaNh NaNm]. *)
Theorem X17_getRemainingTime_unreadable_date
    (host : string -> option Z) (now : Z) (expiryDate : string) :
  ofString host expiryDate = None ->
  getRemainingTime host now expiryDate = mkTimeInfo false None None None "NaNh NaNm".
Proof. exact (getRemainingTime_invalid host now expiryDate). Qed.

Lemma X17_getRemainingTime_unreadable_date_witness :
  getRemainingTime MoreSamples.strictHost 1730505600000 "next week"
  = mkTimeInfo false None None None "NaNh NaNm".
Proof. apply X17_getRemainingTime_unreadable_date. reflexivity. Defined.

(** X18: for a readable expiry [e], [getRemainingTime] reports the key as
    expired exactly when [e] is not after the clock reading, with all
    numbers 0; otherwise the remaining time is [e - now], split into
    whole hours and the whole minutes, below 60, of the rest. *)
Theorem X18_getRemainingTime_split
    (host : string -> option Z) (now e : Z) (expiryDate : string) :
  0 <= now ->
  ofString host expiryDate = Some e ->
  (e <= now ->
   getRemainingTime host now expiryDate
   = mkTimeInfo true (Some 0) (Some 0) (Some 0) "Expired")
  /\ (now < e ->
      exists h m,
        getRemainingTime host now expiryDate
        = mkTimeInfo false (Some (e - now)) (Some h) (Some m)
            (pretty h +:+ "h " +:+ pretty m +:+ "m")
        /\ 0 <= h /\ 0 <= m < 60
        /\ h * 3600000 + m * 60000 <= e - now < h * 3600000 + m * 60000 + 60000).
Proof.
  intros _ H. split.
  - apply getRemainingTime_passed, H.
  - intros Hlt. exists ((e - now) / 3600000), ((e - now) mod 3600000 / 60000).
    split; [apply (getRemainingTime_ahead host now e expiryDate H Hlt)|].
    Z.div_mod_to_equations. lia.
Qed.

Lemma X18_getRemainingTime_split_witness :
  getRemainingTime MoreSamples.strictHost 1730505600000 "2024-11-02T03:30:59.999Z"
  = mkTimeInfo false (Some 12659999) (Some 3) (Some 30) "3h 30m".
Proof.
  destruct (X18_getRemainingTime_split MoreSamples.strictHost 1730505600000
              (1730505600000 + 12659999) "2024-11-02T03:30:59.999Z") as [_ H].
  - lia.
  - vm_compute. reflexivity.
  - destruct H as (h & m & E & Hh & Hm & Hsplit); [lia|].
    assert (h = 3) by lia. assert (m = 30) by lia. subst h m.
    rewrite E. vm_compute. reflexivity.
Defined.

(** X19: for a key whose expiry was written by [toISOString],
    [isKeyValid] holds exactly when the status is active and
    [getRemainingTime] on the key's expiry does not report it as expired. *)
Theorem X19_isKeyValid_agrees_with_getRemainingTime
    (host : string -> option Z) (now e : Z) (key : Key) :
  fourDigitYear now -> fourDigitYear e -> expires_at key = isoOf e ->
  isKeyValid now (Some key)
  = String.eqb (status key) "active"
    && negb (expired (getRemainingTime host now (expires_at key))).
Proof.
  intros Hnow He Hexp. unfold isKeyValid. cbv zeta.
  rewrite Hexp, (isoOf_ltb now e Hnow He). f_equal.
  destruct (Z.ltb_spec now e) as [Hlt|Hge].
  - rewrite (getRemainingTime_ahead host now e _ (ofString_isoOf host e He) Hlt).
    reflexivity.
  - rewrite (getRemainingTime_passed host now e _ (ofString_isoOf host e He) Hge).
    reflexivity.
Qed.

Lemma X19_isKeyValid_agrees_with_getRemainingTime_witness :
  isKeyValid 1704067200000 (Some MoreSamples.activeKey)
  = String.eqb (status MoreSamples.activeKey) "active"
    && negb (expired (getRemainingTime MoreSamples.strictHost 1704067200000
                        (expires_at MoreSamples.activeKey))).
Proof.
  apply (X19_isKeyValid_agrees_with_getRemainingTime MoreSamples.strictHost
           1704067200000 1704067200000 MoreSamples.activeKey).
  - unfold fourDigitYear. lia.
  - unfold fourDigitYear. lia.
  - reflexivity.
Defined.



End Timestamps.

(** ** The guard of the protected routes, and logins *)

Section Guard.
Import adminAuth adminRoutes Vocabulary Samples.

Lemma guard_without_cookie (now : Z) (path : string) (req : Request)
    (sessions : gmap string Session) :
  falsy (cookieToken req) = true ->
  (requireAuthOrRedirect now path req sessions).2 = sessions
  /\ forall session, (requireAuthOrRedirect now path req sessions).1 <> Handled (Next session).
Proof.
  intros H. unfold requireAuthOrRedirect. rewrite H.
  destruct (wantsJson path req) as [[|]|]; split; try reflexivity; discriminate.
Qed.

Lemma guard_with_cookie (now : Z) (path : string) (req : Request)
    (sessions : gmap string Session) (token : string) :
  cookieToken req = Some token -> token <> EmptyString ->
  requireAuthOrRedirect now path req sessions
  = match sessions !! token with
    | None =>
        (Handled (Json 401 false "Invalid or expired session" None CookieUntouched),
         sessions)
    | Some session =>
        if now - createdAt session >? 24 * 60 * 60 * 1000
        then (Handled (Json 401 false "Session expired" None CookieUntouched),
              delete token sessions)
        else (Handled (Next session), sessions)
    end.
Proof.
  intros Hc Hne. unfold requireAuthOrRedirect, requireAuth, sessionTokenOf.
  rewrite Hc. destruct token as [|c token]; [congruence|].
  cbn [falsy Js.truthy negb fmap option_fmap option_map].
  destruct (sessions !! String c token) as [session|]; [|reflexivity].
  cbv zeta. destruct (_ >? _); reflexivity.
Qed.

(** X21: the guard of the protected routes lets a request pass, with the
    session attached, exactly when its [admin_session] cookie names a
    stored session that is at most 24 hours old, and then it leaves the
    store as it is; a token in the [x-admin-session] header alone never
    passes. *)
Theorem X21_guard_passes_on_live_cookie_only (now : Z) (path : string) (req : Request)
    (sessions sessions' : gmap string Session) (session : Session) :
  requireAuthOrRedirect now path req sessions = (Handled (Next session), sessions')
  <-> exists token,
        cookieToken req = Some token /\ token <> EmptyString
        /\ sessions !! token = Some session
        /\ now - createdAt session <= 24 * 60 * 60 * 1000
        /\ sessions' = sessions.
Proof.
  split.
  - intros H. destruct (falsy (cookieToken req)) eqn:Hf.
    + destruct (guard_without_cookie now path req sessions Hf) as [_ Hn].
      rewrite H in Hn. exfalso. exact (Hn session eq_refl).
    + destruct (cookieToken req) as [token|] eqn:Hc; [|discriminate Hf].
      assert (Hne : token <> EmptyString) by (intros ->; discriminate Hf).
      rewrite (guard_with_cookie now path req sessions token Hc Hne) in H.
      exists token. destruct (sessions !! token) as [s|]; [|discriminate H].
      destruct (Z.gtb_spec (now - createdAt s) (24 * 60 * 60 * 1000)) as [Hgt|Hle];
        [discriminate H|].
      injection H as -> ->. repeat split; try reflexivity; [exact Hne | exact Hle].
  - intros (token & Hc & Hne & Hget & Hage & ->).
    rewrite (guard_with_cookie now path req sessions token Hc Hne), Hget.
    replace (now - createdAt session >? 24 * 60 * 60 * 1000) with false
      by (symmetry; rewrite Z.gtb_ltb; apply Z.ltb_ge; lia).
    reflexivity.
Qed.

(** X22: a login whose user name or password differs from the
    configured one is answered with 400 or 401, sets no cookie, hands out
    no token and leaves the store as it is. *)
Theorem X22_failed_login_changes_nothing (adminUser : AdminUser) (randomBytes : list Byte.byte) (now : Z)
    (req : Request) (sessions : gmap string Session) :
  username (body req) <> Some (adminUsername adminUser)
  \/ password (body req) <> Some (adminPassword adminUser) ->
  exists status message,
    authenticate adminUser randomBytes now req sessions
    = (Json status false message None CookieUntouched, sessions)
    /\ (status = 400 \/ status = 401).
Proof.
  intros H. unfold authenticate. cbv zeta.
  destruct (falsy (username (body req)) || falsy (password (body req))).
  - eexists _, _. split; [reflexivity|]. left. reflexivity.
  - assert (E : bool_decide (username (body req) = Some (adminUsername adminUser))
                && bool_decide (password (body req) = Some (adminPassword adminUser))
                = false).
    { apply andb_false_iff. destruct H as [H|H]; [left|right];
        apply bool_decide_eq_false_2, H. }
    rewrite E. cbn [negb]. eexists _, _. split; [reflexivity|]. right. reflexivity.
Qed.

Lemma X22_failed_login_changes_nothing_witness :
  exists status message,
    authenticate operator drawn 1000 MoreSamples.wrongPassword oneSession
    = (Json status false message None CookieUntouched, oneSession)
    /\ (status = 400 \/ status = 401).
Proof. apply X22_failed_login_changes_nothing. right. discriminate. Defined.

(** X23: a login touches the store at the new token only: every other
    session is kept as it is. *)
Theorem X23_login_keeps_other_sessions (adminUser : AdminUser) (randomBytes : list Byte.byte) (now : Z)
    (req : Request) (sessions : gmap string Session) (token : string) :
  token <> generateSession randomBytes ->
  (authenticate adminUser randomBytes now req sessions).2 !! token = sessions !! token.
Proof.
  intros Hne. unfold authenticate. cbv zeta.
  destruct (_ || _); [reflexivity|]. destruct (negb _); [reflexivity|].
  destruct (headers req); [|reflexivity]. cbn [snd].
  apply lookup_insert_ne. congruence.
Qed.

Lemma X23_login_keeps_other_sessions_witness :
  (authenticate operator (List.rev drawn) 2000 loginRequest oneSession).2 !! drawnToken
  = oneSession !! drawnToken.
Proof.
  apply X23_login_keeps_other_sessions. intros H. vm_compute in H. discriminate H.
Defined.

(** X28: neither [requireAuth] nor [logout] ever adds or alters a session:
    what the store holds afterwards it held before. *)
Theorem X28_checks_never_add_sessions
    (now : Z) (req : Request) (sessions : gmap string Session)
    (token : string) (session : Session) :
  (requireAuth now req sessions).2 !! token = Some session
  \/ (logout req sessions).2 !! token = Some session ->
  sessions !! token = Some session.
Proof.
  intros [H|H].
  - unfold requireAuth in H.
    destruct (sessionTokenOf req) as [[[[|c t]|l]|]|]; try exact H.
    destruct (sessions !! String c t) as [s|]; [|exact H].
    cbv zeta in H. destruct (_ >? _); [|exact H].
    cbn [snd] in H. apply lookup_delete_Some in H. tauto.
  - unfold logout in H. destruct (cookieToken req) as [[|c t]|]; try exact H.
    cbn [snd] in H. apply lookup_delete_Some in H. tauto.
Qed.

Lemma X28_checks_never_add_sessions_witness :
  oneSession !! drawnToken
  = Some (mkSession drawnToken 1000 (Some "203.0.113.5") (Some "curl/8.5.0")).
Proof.
  apply (X28_checks_never_add_sessions 5000 (withCookie drawnToken) oneSession).
  left. vm_compute. reflexivity.
Defined.

(** Each byte is written as two lower-case hex digits that give it back. *)
Lemma hexByte_read (b : Byte.byte) (s : string) (bytes : list Byte.byte) :
  Terms.fromHex s = Some bytes ->
  Terms.fromHex (hexByte b +:+ s) = Some (b :: bytes).
Proof.
  intros H.
  change (hexByte b +:+ s)
    with (String (hexDigit (Byte.to_N b / 16)) (String (hexDigit (Byte.to_N b mod 16)) s)).
  cbn [Terms.fromHex]. rewrite H. destruct b; reflexivity.
Qed.

Lemma hexByte_lower (b : Byte.byte) (s : string) :
  JsText.all Terms.lowerHex (hexByte b +:+ s) = JsText.all Terms.lowerHex s.
Proof.
  change (hexByte b +:+ s)
    with (String (hexDigit (Byte.to_N b / 16)) (String (hexDigit (Byte.to_N b mod 16)) s)).
  cbn [JsText.all].
  replace (Terms.lowerHex (hexDigit (Byte.to_N b / 16))) with true
    by (destruct b; reflexivity).
  replace (Terms.lowerHex (hexDigit (Byte.to_N b mod 16))) with true
    by (destruct b; reflexivity).
  reflexivity.
Qed.

Lemma generateSession_read (randomBytes : list Byte.byte) :
  Terms.fromHex (generateSession randomBytes) = Some randomBytes.
Proof.
  unfold generateSession. induction randomBytes as [|b l IH]; [reflexivity|].
  cbn [toHex]. apply hexByte_read, IH.
Qed.

(** X29: a session token holds two lower-case hex digits for every random
    byte, 64 characters for the 32 bytes of a login, and the bytes can be
    read back from it: two tokens are equal only if the random bytes
    were. *)
Theorem X29_session_token_is_the_hex_of_the_bytes (randomBytes : list Byte.byte) :
  String.length (generateSession randomBytes) = (2 * List.length randomBytes)%nat
  /\ JsText.all Terms.lowerHex (generateSession randomBytes) = true
  /\ Terms.fromHex (generateSession randomBytes) = Some randomBytes
  /\ (forall others, generateSession others = generateSession randomBytes ->
                     others = randomBytes).
Proof.
  split; [|split; [|split]].
  - unfold generateSession. induction randomBytes as [|b l IH]; [reflexivity|].
    cbn [toHex List.length]. rewrite length_append, IH. cbn [hexByte String.length]. lia.
  - unfold generateSession. induction randomBytes as [|b l IH]; [reflexivity|].
    cbn [toHex]. rewrite hexByte_lower. exact IH.
  - apply generateSession_read.
  - intros others H. pose proof (generateSession_read others) as Ho.
    rewrite H, generateSession_read in Ho. congruence.
Qed.

End Guard.

(** ** What the resolver can return *)

Section Origins.
Import keyUtils Vocabulary.

Lemma find_map_some {A} (f : A -> bool) (g : string -> A) (l : list string) (a : A) :
  List.find f (List.map g l) = Some a ->
  exists c, In c l /\ a = g c /\ f (g c) = true.
Proof.
  intros H. apply List.find_some in H as [Hin Hf].
  apply List.in_map_iff in Hin as (c & <- & Hc). exists c. auto.
Qed.

Lemma pickFirstPublic_some (l : list string) (b : string) :
  ClientIp.firstValidOf l = Some b ->
  exists c, In c l /\ ClientIp.pickFirstPublic l = ClientIp.normalize c
            /\ valid (ClientIp.normalize c) = true.
Proof.
  intros Hb. unfold ClientIp.pickFirstPublic.
  destruct (ClientIp.firstPublic l) as [a|] eqn:Ha.
  - apply find_map_some in Ha as (c & Hin & -> & Hf). exists c.
    apply andb_true_iff in Hf as [Hv _]. auto.
  - rewrite Hb. cbn [default]. apply find_map_some in Hb as (c & Hin & -> & Hv).
    exists c. auto.
Qed.

(** X24: under every preference [getClientIp] returns ["unknown"], which
    it does exactly when no candidate is a valid address once normalized,
    or else the normalized form of one of the candidates, which is a valid
    address. *)
Theorem X24_getClientIp_valid_or_unknown (pref : option string) (req : Request) :
  (ClientIp.firstValidOf (ClientIp.candidates req) = None
   /\ ClientIp.getClientIp pref req = "unknown")
  \/ (exists c, In c (ClientIp.candidates req)
                /\ valid (ClientIp.normalize c) = true
                /\ ClientIp.getClientIp pref req = ClientIp.normalize c).
Proof.
  destruct (ClientIp.firstValidOf (ClientIp.candidates req)) as [b|] eqn:Hb.
  - right. destruct (decide (pref = Some "private")) as [->|Hp].
    + rewrite getClientIp_private, Hb. cbn [default].
      apply find_map_some in Hb as (c & Hin & -> & Hv). exists c. auto.
    + rewrite (getClientIp_default pref req Hp).
      destruct (pickFirstPublic_some _ b Hb) as (c & Hin & E & Hv).
      exists c. rewrite E, or_truthy by (apply valid_truthy, Hv). auto.
  - left. split; [reflexivity|]. apply getClientIp_no_valid.
    intros c Hin.
    unfold ClientIp.firstValidOf in Hb.
    apply (List.find_none _ _ Hb). apply List.in_map, Hin.
Qed.


(** The first element that passes [g] also is the first that passes the
    stronger test, as soon as it passes it. *)
Lemma find_stronger {A} (g h : A -> bool) (l : list A) (b : A) :
  List.find g l = Some b -> h b = true ->
  List.find (fun x => g x && h x) l = Some b.
Proof.
  induction l as [|x l IH]; intros Hg Hh; [discriminate Hg|].
  cbn [List.find] in *. destruct (g x) eqn:Ex.
  - injection Hg as ->. rewrite Hh. reflexivity.
  - cbn [andb]. exact (IH Hg Hh).
Qed.

(** X25: [getIpVariants] gives either both addresses or neither; both are
    valid addresses; and when they differ, the public one is classified
    public and the private one private. *)
Theorem X25_getIpVariants_related (req : Request) :
  let v := IpVariants.getIpVariants req in
  (IpVariants.publicIp v = None <-> IpVariants.privateIp v = None)
  /\ (forall a, IpVariants.publicIp v = Some a -> valid a = true)
  /\ (forall b, IpVariants.privateIp v = Some b -> valid b = true)
  /\ (forall a b,
        IpVariants.publicIp v = Some a -> IpVariants.privateIp v = Some b -> a <> b ->
        IpVariants.isPrivate a = false /\ IpVariants.isPrivate b = true).
Proof.
  cbv zeta. unfold IpVariants.getIpVariants. cbv zeta.
  cbn [IpVariants.publicIp IpVariants.privateIp].
  set (l := List.map IpVariants.normalize (IpVariants.candidates req)).
  unfold IpVariants.pickFirstPublic. fold l.
  destruct (List.find valid l) as [b|] eqn:Hb.
  - assert (Hvb : valid b = true) by (apply List.find_some in Hb; tauto).
    destruct (List.find (fun ip => valid ip && negb (IpVariants.isPrivate ip)) l)
      as [a|] eqn:Ha.
    + apply List.find_some in Ha as Ha'. destruct Ha' as [_ Hfa].
      apply andb_true_iff in Hfa as [Hva Hpa]. apply negb_true_iff in Hpa.
      unfold IpVariants.orNull. rewrite (valid_truthy a Hva).
      split; [split; discriminate|]. split; [intros ? [= <-]; exact Hva|].
      split; [intros ? [= <-]; exact Hvb|].
      intros a' b' [= <-] [= <-] Hne. split; [exact Hpa|].
      destruct (IpVariants.isPrivate b) eqn:Hpb; [reflexivity|].
      rewrite (find_stronger valid (fun ip => negb (IpVariants.isPrivate ip)) l b Hb)
        in Ha by (cbv beta; rewrite Hpb; reflexivity).
      congruence.
    + change (default "" (Some b)) with b.
      unfold IpVariants.orNull. rewrite (valid_truthy b Hvb).
      split; [split; discriminate|]. split; [intros ? [= <-]; exact Hvb|].
      split; [intros ? [= <-]; exact Hvb|].
      intros a' b' [= <-] [= <-] Hne. congruence.
  - assert (Ha : List.find (fun ip => valid ip && negb (IpVariants.isPrivate ip)) l = None).
    { apply find_none_iff. intros x Hx. rewrite (List.find_none _ _ Hb x Hx). reflexivity. }
    rewrite Ha. change (IpVariants.orNull (default "" None)) with (@None string).
    split; [split; reflexivity|]. repeat split; discriminate.
Qed.

Lemma X25_getIpVariants_related_witness :
  IpVariants.isPrivate "8.8.8.8" = false /\ IpVariants.isPrivate "10.0.0.5" = true.
Proof.
  destruct (X25_getIpVariants_related Samples.privateThenPublic) as (_ & _ & _ & H).
  apply H; [reflexivity | reflexivity | discriminate].
Defined.

End Origins.

(** ** Headers before transport addresses *)

Section Precedence.
Import keyUtils Vocabulary.

Lemma find_app_some {A} (f : A -> bool) (l1 l2 : list A) (a : A) :
  List.find f l1 = Some a -> List.find f (l1 ++ l2) = Some a.
Proof.
  induction l1 as [|x l1 IH]; intros H; [discriminate H|].
  cbn [List.find app] in *. destruct (f x); [exact H | exact (IH H)].
Qed.

Lemma find_exists {A} (f : A -> bool) (l : list A) (x : A) :
  In x l -> f x = true -> exists a, List.find f l = Some a.
Proof.
  intros Hin Hf. destruct (List.find f l) as [a|] eqn:E; [exists a; reflexivity|].
  rewrite (List.find_none _ _ E x Hin) in Hf. discriminate Hf.
Qed.

(** The candidates the headers give *)
Lemma candidates_split (req : Request) (hs : gmap string hvalue) :
  headers req = Some hs ->
  ClientIp.candidates req
  = ((forwardedCandidates (hs !! "forwarded") ++ directCandidates hs
      ++ xffCandidates (hs !! "x-forwarded-for")) ++ fallbacks req)%list.
Proof.
  intros H. rewrite (candidates_headers req hs H).
  rewrite <- !List.app_assoc. reflexivity.
Qed.

(** X26: as soon as one candidate from the headers ([Forwarded], the
    vendor headers, [X-Forwarded-For]) is valid and public, the result of
    [getClientIp] is decided by the headers alone: two requests with the
    same headers get the same answer, whatever their [req.ip] and socket
    addresses are. *)
Theorem X26_headers_decide_before_transport (pref : option string) (req req' : Request) (hs : gmap string hvalue)
    (c : string) :
  headers req = Some hs -> headers req' = Some hs ->
  In c (forwardedCandidates (hs !! "forwarded") ++ directCandidates hs
        ++ xffCandidates (hs !! "x-forwarded-for")) ->
  validPublic (ClientIp.normalize c) = true ->
  ClientIp.getClientIp pref req = ClientIp.getClientIp pref req'.
Proof.
  intros Hreq Hreq' Hin Hc.
  set (H := (forwardedCandidates (hs !! "forwarded") ++ directCandidates hs
             ++ xffCandidates (hs !! "x-forwarded-for"))%list) in *.
  destruct (find_exists (fun ip => valid ip && negb (ClientIp.isPrivate ip))
              (List.map ClientIp.normalize H) (ClientIp.normalize c)
              (List.in_map _ _ _ Hin) Hc) as [a Ha].
  destruct (find_exists valid (List.map ClientIp.normalize H) (ClientIp.normalize c)
              (List.in_map _ _ _ Hin) (validPublic_valid _ Hc)) as [b Hb].
  assert (E : forall r, headers r = Some hs ->
                ClientIp.firstPublic (ClientIp.candidates r) = Some a
                /\ ClientIp.firstValidOf (ClientIp.candidates r) = Some b).
  { intros r Hr. rewrite (candidates_split r hs Hr). fold H.
    unfold ClientIp.firstPublic, ClientIp.firstValidOf. rewrite List.map_app.
    split; apply find_app_some; assumption. }
  destruct (E req Hreq) as [E1 E2]. destruct (E req' Hreq') as [E1' E2'].
  unfold ClientIp.getClientIp, ClientIp.pickFirstPublic. cbv zeta.
  rewrite E1, E2, E1', E2'. reflexivity.
Qed.

Lemma X26_headers_decide_before_transport_witness :
  ClientIp.getClientIp None (MoreSamples.spoofedFrom "198.51.100.7")
  = ClientIp.getClientIp None (MoreSamples.spoofedFrom "10.1.1.1").
Proof.
  apply (X26_headers_decide_before_transport None _ _
           {[ "x-real-ip" := HStr "8.8.4.4" ]} "8.8.4.4").
  - reflexivity.
  - reflexivity.
  - vm_compute. left. reflexivity.
  - vm_compute. reflexivity.
Defined.

End Precedence.

(** ** Dotted addresses under [normalize] *)

Section Dotted.
Import keyUtils Vocabulary Terms.

Lemma all_from_occurs (P : ascii -> bool) (s : string) :
  (forall c, P c = false -> occurs c s = false) -> JsText.all P s = true.
Proof.
  induction s as [|d s IH]; intros H; [reflexivity|].
  cbn [JsText.all]. destruct (P d) eqn:E.
  - apply IH. intros c Hc. specialize (H c Hc). cbn [occurs] in H.
    apply orb_false_iff in H. tauto.
  - specialize (H d E). cbn [occurs] in H. rewrite Ascii.eqb_refl in H. discriminate H.
Qed.

Lemma trimEnd_fixed (s : string) :
  JsText.all (fun c => negb (Js.isWhiteSpace c)) s = true -> Js.trimEnd s = s.
Proof.
  induction s as [|c s IH]; intros H; [reflexivity|].
  cbn [JsText.all] in H. apply andb_true_iff in H as [Hc Hs].
  cbn [Js.trimEnd]. rewrite (IH Hs). apply negb_true_iff in Hc. rewrite Hc.
  destruct s; reflexivity.
Qed.

Lemma trim_fixed (s : string) :
  JsText.all (fun c => negb (Js.isWhiteSpace c)) s = true -> Js.trim s = s.
Proof.
  intros H. unfold Js.trim. rewrite trimStart_fixed.
  - apply trimEnd_fixed, H.
  - destruct s as [|c s]; [exact I|]. cbn [JsText.all] in H.
    apply andb_true_iff in H as [Hc _]. apply negb_true_iff in Hc. exact Hc.
Qed.

Lemma chars_imply (P Q : ascii -> bool) :
  List.forallb (fun c => implb (P c) (Q c)) codeUnits = true ->
  forall c, P c = true -> Q c = true.
Proof.
  intros H c Hc. pose proof (forall_codeUnits _ H c) as Hi. cbv beta in Hi.
  rewrite Hc in Hi. exact Hi.
Qed.

(** A valid dotted address holds digits and dots only. *)
Lemma isIPv4_chars (ip : string) :
  net.isIPv4 ip = true ->
  JsText.all (fun c => Js.isDigit c || Ascii.eqb c ".") ip = true.
Proof.
  intros H. apply test_matches in H. apply all_from_occurs. intros c Hc.
  apply (matches_avoids c net.IPv4Reg ip); [|exact H].
  apply (chars_imply (fun c => negb (Js.isDigit c || Ascii.eqb c "."))
           (fun c => RegExp.avoids c net.IPv4Reg)).
  - vm_compute. reflexivity.
  - rewrite Hc. reflexivity.
Qed.

Lemma all_imply (P Q : ascii -> bool) (s : string) :
  (forall c, P c = true -> Q c = true) -> JsText.all P s = true -> JsText.all Q s = true.
Proof.
  intros HPQ. induction s as [|c s IH]; intros H; [reflexivity|].
  cbn [JsText.all] in *. apply andb_true_iff in H as [Hc Hs].
  rewrite (HPQ c Hc), (IH Hs). reflexivity.
Qed.

Lemma all_occurs (P : ascii -> bool) (c : ascii) (s : string) :
  JsText.all P s = true -> P c = false -> occurs c s = false.
Proof.
  intros Hs Hc. induction s as [|d s IH]; [reflexivity|].
  cbn [JsText.all] in Hs. apply andb_true_iff in Hs as [Hd Hs].
  cbn [occurs]. rewrite (IH Hs), orb_false_r.
  destruct (Ascii.eqb d c) eqn:E; [|reflexivity].
  apply Ascii.eqb_eq in E. subst. congruence.
Qed.

Lemma all_append (P : ascii -> bool) (s t : string) :
  JsText.all P (s +:+ t) = JsText.all P s && JsText.all P t.
Proof.
  induction s as [|c s IH]; [reflexivity|].
  rewrite append_cons. cbn [JsText.all]. rewrite IH. apply andb_assoc.
Qed.

(** X27: [normalize] returns a valid dotted address as it is, and gives
    the same address for its form with a port and for its form with the
    prefix [::ffff:]. *)
Theorem X27_normalize_on_dotted_addresses (ip : string) :
  net.isIPv4 ip = true ->
  ClientIp.normalize ip = ip
  /\ (forall port, JsText.all Js.isDigit port = true ->
                   ClientIp.normalize (ip +:+ String ":" port) = ip)
  /\ ClientIp.normalize ("::ffff:" +:+ ip) = ip.
Proof.
  intros Hv. pose proof (isIPv4_chars ip Hv) as Hchars.
  assert (Hcolon : occurs ":" ip = false) by (apply (all_occurs _ _ _ Hchars); reflexivity).
  assert (Hbr : Js.startsWith ip "[" = false).
  { unfold Js.startsWith. apply (occurs_prefix_false "["); [|reflexivity].
    apply (all_occurs _ _ _ Hchars). reflexivity. }
  assert (Hplain : JsText.all plain ip = true).
  { apply (all_imply (fun c => Js.isDigit c || Ascii.eqb c ".") plain); [|exact Hchars].
    apply chars_imply. vm_compute. reflexivity. }
  assert (Hws : forall s, JsText.all plain s = true -> Js.trim s = s).
  { intros s Hs. apply trim_fixed.
    apply (all_imply plain (fun c => negb (Js.isWhiteSpace c))); [|exact Hs].
    apply chars_imply. vm_compute. reflexivity. }
  split; [|split].
  - destruct (isIPv4_shape ip Hv) as (a & b & c & d & E & Ha & _).
    assert (Ht : Js.truthy ip = true).
    { rewrite E. destruct Ha as (_ & _ & _ & _ & _ & _ & _ & _ & _ & Ht & _). apply Ht. }
    rewrite (normalize_truthy ip Ht), (Hws ip Hplain). cbv zeta.
    rewrite Hbr, (indexOf_char_absent ":" ip Hcolon). cbn [Z.eqb negb andb].
    apply unwrapMapped_no_colon, Hcolon.
  - intros port Hport.
    assert (Hp : JsText.all plain port = true).
    { apply (all_imply Js.isDigit plain); [|exact Hport].
      apply chars_imply. vm_compute. reflexivity. }
    apply (normalize_host_port _ ip port); [|exact Hbr|exact Hcolon|].
    + apply Hws. rewrite all_append, Hplain. cbn [JsText.all andb]. exact Hp.
    + apply (all_occurs _ _ _ Hport). reflexivity.
  - apply normalize_mapped. apply Hws. rewrite all_append, Hplain. reflexivity.
Qed.

Lemma X27_normalize_on_dotted_addresses_witness :
  ClientIp.normalize "203.0.113.9" = "203.0.113.9"
  /\ (forall port, JsText.all Js.isDigit port = true ->
                   ClientIp.normalize ("203.0.113.9" +:+ String ":" port) = "203.0.113.9")
  /\ ClientIp.normalize ("::ffff:" +:+ "203.0.113.9") = "203.0.113.9".
Proof. apply X27_normalize_on_dotted_addresses. vm_compute. reflexivity. Defined.

End Dotted.

(** ** The candidates of the [Forwarded] header *)

Section Forwarded.
Import keyUtils Vocabulary.

Lemma split_nonempty (c : ascii) (s : string) : Js.split c s <> [].
Proof.
  induction s as [|d s IH]; [discriminate|].
  cbn [Js.split]. destruct (Ascii.eqb d c); [discriminate|].
  destruct (Js.split c s); discriminate.
Qed.

Lemma split_append (c : ascii) (x y : string) :
  Js.split c (x +:+ String c y) = (Js.split c x ++ Js.split c y)%list.
Proof.
  induction x as [|d x IH].
  - change (EmptyString +:+ String c y) with (String c y).
    cbn [Js.split]. rewrite Ascii.eqb_refl. reflexivity.
  - rewrite append_cons. cbn [Js.split]. rewrite IH.
    destruct (Ascii.eqb d c); [reflexivity|].
    pose proof (split_nonempty c x) as Hx.
    destruct (Js.split c x) as [|h tl]; [congruence|]. reflexivity.
Qed.

Lemma split_whole (c : ascii) (s : string) :
  occurs c s = false -> Js.split c s = [s].
Proof.
  induction s as [|d s IH]; intros H; [reflexivity|].
  cbn [occurs] in H. apply orb_false_iff in H as [Hd Hs].
  cbn [Js.split]. rewrite Hd, (IH Hs). reflexivity.
Qed.

(** The candidates of a [Forwarded] header are those of its parts. *)
Lemma forwardedCandidates_parts (fwd : string) :
  forwardedCandidates (Some (HStr fwd))
  = omap (fun p => match matchFor p with
                   | Some m1 => Some (Js.removeAll Js.dquote (Js.removeAll Js.dquote m1))
                   | None => None
                   end)
         (Js.split "," fwd).
Proof. destruct fwd; reflexivity. Qed.

Lemma untilSemicolon_stop (a t : string) :
  occurs ";" a = false -> untilSemicolon (a +:+ String ";" t) = a.
Proof.
  induction a as [|d a IH]; intros H.
  - reflexivity.
  - cbn [occurs] in H. apply orb_false_iff in H as [Hd Ha].
    rewrite append_cons. cbn [untilSemicolon]. rewrite Hd, (IH Ha). reflexivity.
Qed.

Lemma untilSemicolon_whole (a : string) :
  occurs ";" a = false -> untilSemicolon a = a.
Proof.
  induction a as [|d a IH]; intros H; [reflexivity|].
  cbn [occurs] in H. apply orb_false_iff in H as [Hd Ha].
  cbn [untilSemicolon]. rewrite Hd, (IH Ha). reflexivity.
Qed.

Lemma removeAll_whole (c : ascii) (a : string) :
  occurs c a = false -> Js.removeAll c a = a.
Proof.
  induction a as [|d a IH]; intros H; [reflexivity|].
  cbn [occurs] in H. apply orb_false_iff in H as [Hd Ha].
  cbn [Js.removeAll]. rewrite Hd, (IH Ha). reflexivity.
Qed.

Lemma removeAll_append (c : ascii) (a b : string) :
  Js.removeAll c (a +:+ b) = Js.removeAll c a +:+ Js.removeAll c b.
Proof.
  induction a as [|d a IH]; [reflexivity|].
  rewrite append_cons. cbn [Js.removeAll]. rewrite IH.
  destruct (Ascii.eqb d c); [reflexivity|]. rewrite append_cons. reflexivity.
Qed.

Lemma matchFor_here (r : string) :
  Js.truthy (untilSemicolon r) = true ->
  matchFor ("for=" +:+ r) = Some (untilSemicolon r).
Proof.
  intros H. change ("for=" +:+ r) with (String "f" (String "o" (String "r" (String "=" r)))).
  cbn [matchFor]. unfold forPrefix. rewrite H. reflexivity.
Qed.

(** X30: the candidates of a [Forwarded] header are those of its
    comma-separated parts, in order; and a part [for=a], [for=a;...] or
    [for="a"], where [a] is a non-empty text without semicolon, comma and
    double quote, gives the one candidate [a]. *)
Theorem X30_forwarded_parts :
  (forall x y : string,
      forwardedCandidates (Some (HStr (x +:+ String "," y)))
      = (forwardedCandidates (Some (HStr x)) ++ forwardedCandidates (Some (HStr y)))%list)
  /\ (forall a t : string,
        a <> EmptyString ->
        occurs ";" a = false -> occurs "," a = false -> occurs Js.dquote a = false ->
        occurs "," t = false ->
        forwardedCandidates (Some (HStr ("for=" +:+ a))) = [a]
        /\ forwardedCandidates (Some (HStr ("for=" +:+ a +:+ String ";" t))) = [a]
        /\ forwardedCandidates
             (Some (HStr ("for=" +:+ String Js.dquote (a +:+ String Js.dquote EmptyString))))
           = [a]).
Proof.
  split.
  - intros x y. rewrite !forwardedCandidates_parts, split_append. apply omap_app.
  - intros a t Hne Hsemi Hcomma Hq Ht.
    assert (Hta : Js.truthy a = true) by (destruct a; [congruence | reflexivity]).
    split; [|split]; rewrite forwardedCandidates_parts.
    + rewrite split_whole by (rewrite occurs_append, Hcomma; reflexivity).
      cbn [omap list_omap]. rewrite matchFor_here; rewrite untilSemicolon_whole by exact Hsemi;
        [|exact Hta].
      rewrite !(removeAll_whole Js.dquote a Hq). reflexivity.
    + rewrite split_whole
        by (rewrite !occurs_append, Hcomma; cbn [occurs]; rewrite Ht; reflexivity).
      cbn [omap list_omap].
      rewrite matchFor_here; rewrite untilSemicolon_stop by exact Hsemi; [|exact Hta].
      rewrite !(removeAll_whole Js.dquote a Hq). reflexivity.
    + rewrite split_whole
        by (rewrite occurs_append; cbn [occurs]; rewrite occurs_append, Hcomma; reflexivity).
      cbn [omap list_omap].
      assert (Hs : occurs ";" (String Js.dquote (a +:+ String Js.dquote EmptyString)) = false).
      { cbn [occurs]. rewrite occurs_append, Hsemi. reflexivity. }
      rewrite matchFor_here; rewrite untilSemicolon_whole by exact Hs; [|reflexivity].
      cbn [Js.removeAll]. change (Ascii.eqb Js.dquote Js.dquote) with true. cbv iota.
      rewrite removeAll_append. cbn [Js.removeAll].
      change (Ascii.eqb Js.dquote Js.dquote) with true. cbv iota.
      rewrite append_empty_r, !(removeAll_whole Js.dquote a Hq). reflexivity.
Qed.

Lemma X30_forwarded_parts_witness :
  forwardedCandidates (Some (HStr "for=198.51.100.2")) = ["198.51.100.2"]
  /\ forwardedCandidates (Some (HStr "for=198.51.100.2;proto=https")) = ["198.51.100.2"]
  /\ forwardedCandidates
       (Some (HStr ("for=" +:+ String Js.dquote
                               ("198.51.100.2" +:+ String Js.dquote EmptyString))))
     = ["198.51.100.2"].
Proof.
  destruct X30_forwarded_parts as [_ H].
  apply (H "198.51.100.2" "proto=https"); [discriminate | reflexivity..].
Defined.

End Forwarded.
